(** * analyze_trex.py: a shallow embedding and its properties

    The script reads a fossil-occurrence CSV, keeps the rows whose taxonomic
    columns mention the taxon, derives years from free-text dates, draws a
    map and a timeline, and writes the kept rows to a CSV file.

    Conventions of the embedding:
    - a Python [str] is a list of Unicode code points ([N]); ASCII literals
      are written [u "..."];
    - the Unicode database (decimal digits and case mapping outside ASCII)
      is a parameter, [unicode_db]; everything ASCII is computed;
    - a cell of the table is a [value]: missing, text, or a number that is
      carried with its [str()] text (floating point is not modelled);
    - exceptions are explicit ([outcome]); logging and the calls into
      folium, matplotlib and pandas' writer are events of a trace, and
      whether such a call raises is decided by a parameter, [world];
    - the statements before the [try] (the imports and the logging set-up
      of lines 11-23) are a parameter of [script]: how they end; so are the
      ends of [os.makedirs] and of opening and reading the file;
    - [pandas.read_csv] is library code: the loader is stated for any
      reader, and [read_csv] follows pandas' tokenizer. *)

From Stdlib Require Import List NArith ZArith Bool Arith Lia String Ascii Sorted.
Import ListNotations.

(** ** Python strings *)

Definition str := list N.

Fixpoint u (s : string) : str :=
  match s with
  | EmptyString => []
  | String a s' => N_of_ascii a :: u s'
  end.

Fixpoint str_eqb (a b : str) : bool :=
  match a, b with
  | [], [] => true
  | x :: a', y :: b' => N.eqb x y && str_eqb a' b'
  | _, _ => false
  end.

(** [a.startswith(prefix)] *)
Fixpoint startswith (prefix a : str) : bool :=
  match prefix, a with
  | [], _ => true
  | p :: prefix', c :: a' => N.eqb p c && startswith prefix' a'
  | _ :: _, [] => false
  end.

(** What the Unicode database says outside ASCII. *)
Record unicode_db := {
  (** the digit value of a code point of category Nd *)
  ucd_decimal : N -> option N;
  (** the lower-casing of a code point standing between two texts *)
  ucd_lower : str -> N -> str -> str
}.

(** A database in which no code point outside ASCII is a digit or cased. *)
Definition ascii_only : unicode_db :=
  {| ucd_decimal := fun _ => None; ucd_lower := fun _ c _ => [c] |}.

Definition is_ascii (c : N) : bool := N.ltb c 128.

(** The code points [\s] matches in a [str] pattern. *)
Definition is_space (c : N) : bool :=
  (N.leb 9 c && N.leb c 13) || (N.leb 28 c && N.leb c 32)
  || N.eqb c 133 || N.eqb c 160 || N.eqb c 5760
  || (N.leb 8192 c && N.leb c 8202)
  || N.eqb c 8232 || N.eqb c 8233 || N.eqb c 8239 || N.eqb c 8287
  || N.eqb c 12288.

(** ** Values, exceptions *)

Inductive value :=
| VNone
| VNaN
| VStr (s : str)
| VNum (text : str).

(** [pd.isna] / [pd.notna] on a scalar *)
Definition isna (v : value) : bool :=
  match v with VNone | VNaN => true | VStr _ | VNum _ => false end.

Definition notna (v : value) : bool := negb (isna v).

(** [str(v)] *)
Definition py_str (v : value) : str :=
  match v with
  | VNone => u "None"
  | VNaN => u "nan"
  | VStr s => s
  | VNum text => text
  end.

Inductive exn :=
| KeyError (key : str)
| ValueError (msg : str)
| IndexError (msg : str)
| TypeError (msg : str)
| LibraryError (msg : str).

Inductive outcome (A : Type) :=
| Ret (a : A)
| Raise (e : exn).
Arguments Ret {A} a.
Arguments Raise {A} e.

Definition obind {A B} (m : outcome A) (f : A -> outcome B) : outcome B :=
  match m with
  | Ret a => f a
  | Raise e => Raise e
  end.

Declare Scope outcome_scope.
Delimit Scope outcome_scope with outcome.
Notation "x <- m ;; k" := (obind m (fun x => k))
  (at level 61, m at next level, right associativity) : outcome_scope.

(** ** Regular expressions, as far as the script's patterns need them *)

Inductive regex :=
| Eps
| Chr (c : N)
| Cls (p : N -> bool)
| Cat (r1 r2 : regex)
| Opt (r : regex)
| Star (r : regex)
| Times (n : nat) (r : regex)
| Group (r : regex).

(** A way to match a prefix of the input: the groups closed on the way (in
    the order they were opened) and the input that is left. *)
Definition thread := (list str * str)%type.

Definition and_then (ts : list thread) (k : str -> list thread) : list thread :=
  flat_map (fun x => map (fun y => (fst x ++ fst y, snd y)) (k (snd x))) ts.

Fixpoint rep (step : str -> list thread) (n : nat) (s : str) : list thread :=
  match n with
  | O => [([], s)]
  | S n' => and_then (step s) (rep step n')
  end.

(** Greedy iteration; an iteration that consumes nothing ends the loop. *)
Fixpoint star (step : str -> list thread) (fuel : nat) (s : str) : list thread :=
  match fuel with
  | O => [([], s)]
  | S fuel' =>
      and_then
        (filter (fun x => Nat.ltb (List.length (snd x)) (List.length s)) (step s))
        (star step fuel')
      ++ [([], s)]
  end.

(** All the ways [r] matches at the start of [s], in the order a
    backtracking matcher tries them. *)
Fixpoint run (r : regex) (s : str) : list thread :=
  match r with
  | Eps => [([], s)]
  | Chr c =>
      match s with
      | x :: t => if N.eqb x c then [([], t)] else []
      | [] => []
      end
  | Cls p =>
      match s with
      | x :: t => if p x then [([], t)] else []
      | [] => []
      end
  | Cat r1 r2 => and_then (run r1 s) (run r2)
  | Opt r1 => run r1 s ++ [([], s)]
  | Star r1 => star (run r1) (List.length s) s
  | Times n r1 => rep (run r1) n s
  | Group r1 =>
      map (fun x => (firstn (List.length s - List.length (snd x)) s :: fst x, snd x))
          (run r1 s)
  end.

(** [re.search(r, s)]: the groups of the leftmost match, group 0 first. *)
Fixpoint search (r : regex) (s : str) : option (list str) :=
  match run r s with
  | x :: _ => Some (firstn (List.length s - List.length (snd x)) s :: fst x)
  | [] =>
      match s with
      | [] => None
      | _ :: s' => search r s'
      end
  end.

(** The texts a pattern matches, as the [re] documentation describes them:
    the meaning [run] and [search] are checked against. *)
Inductive matches : regex -> str -> Prop :=
| matches_Eps : matches Eps []
| matches_Chr c : matches (Chr c) [c]
| matches_Cls p c : p c = true -> matches (Cls p) [c]
| matches_Cat r1 r2 w1 w2 :
    matches r1 w1 -> matches r2 w2 -> matches (Cat r1 r2) (w1 ++ w2)
| matches_Opt_none r : matches (Opt r) []
| matches_Opt_some r w : matches r w -> matches (Opt r) w
| matches_Star_nil r : matches (Star r) []
| matches_Star_cons r w1 w2 :
    matches r w1 -> matches (Star r) w2 -> matches (Star r) (w1 ++ w2)
| matches_Times_0 r : matches (Times 0 r) []
| matches_Times_S n r w1 w2 :
    matches r w1 -> matches (Times n r) w2 -> matches (Times (S n) r) (w1 ++ w2)
| matches_Group r w : matches r w -> matches (Group r) w.

(** [m.group(i)] *)
Definition group (m : list str) (i : nat) : outcome str :=
  match nth_error m i with
  | Some g => Ret g
  | None => Raise (IndexError (u "no such group"))
  end.

Fixpoint lit_from (cs : str) : regex :=
  match cs with
  | [] => Eps
  | c :: cs' => Cat (Chr c) (lit_from cs')
  end.

(** The pattern that is a plain word. *)
Definition lit (s : string) : regex := lit_from (u s).

Definition en_dash : N := 8211.

(** Decimal text of a count, as an f-string renders it. *)
Fixpoint uint_str (d : Decimal.uint) : str :=
  match d with
  | Decimal.Nil => []
  | Decimal.D0 d' => 48%N :: uint_str d'
  | Decimal.D1 d' => 49%N :: uint_str d'
  | Decimal.D2 d' => 50%N :: uint_str d'
  | Decimal.D3 d' => 51%N :: uint_str d'
  | Decimal.D4 d' => 52%N :: uint_str d'
  | Decimal.D5 d' => 53%N :: uint_str d'
  | Decimal.D6 d' => 54%N :: uint_str d'
  | Decimal.D7 d' => 55%N :: uint_str d'
  | Decimal.D8 d' => 56%N :: uint_str d'
  | Decimal.D9 d' => 57%N :: uint_str d'
  end.

Definition str_of_nat (n : nat) : str := uint_str (Nat.to_uint n).

(** [str(e)] *)
Definition exn_str (e : exn) : str :=
  match e with
  | KeyError key => u "'" ++ key ++ u "'"
  | ValueError msg | IndexError msg | TypeError msg | LibraryError msg => msg
  end.

(** ** Tables *)

(** A row maps column labels to values; only the labels of the table's
    [columns] are ever read. *)
Definition row := str -> value.

Record DataFrame := {
  columns : list str;
  rows : list row
}.

Definition has_column (cols : list str) (key : str) : bool :=
  existsb (str_eqb key) cols.

(** [record[key]] for a row of a table with columns [cols] *)
Definition getitem (cols : list str) (record : row) (key : str) : outcome value :=
  if has_column cols key then Ret (record key) else Raise (KeyError key).

(** [df[keys]]: the table restricted to the listed columns.  The
    [KeyError] carries the first missing label; the message pandas gives
    lists them all. *)
Definition select (df : DataFrame) (keys : list str) : outcome DataFrame :=
  match filter (fun key => negb (has_column (columns df) key)) keys with
  | [] => Ret {| columns := keys; rows := rows df |}
  | missing :: _ => Raise (KeyError missing)
  end.

(** [df.apply(lambda x: x.apply(f))] with a boolean [f]: one list of
    booleans per column. *)
Definition apply_columns (f : value -> bool) (df : DataFrame) : list (list bool) :=
  map (fun c => map (fun record : row => f (record c)) (rows df)) (columns df).

(** [.any(axis=1)] on [n] rows held column by column *)
Definition any_axis1 (n : nat) (cols : list (list bool)) : list bool :=
  map (fun i => existsb (fun col => nth i col false) cols) (seq 0 n).

(** [df[mask]] *)
Fixpoint boolean_index (rs : list row) (mask : list bool) : list row :=
  match rs, mask with
  | record :: rs', b :: mask' =>
      if b then record :: boolean_index rs' mask' else boolean_index rs' mask'
  | _, _ => []
  end.

(** [df.empty] *)
Definition empty (df : DataFrame) : bool :=
  match rows df, columns df with
  | _ :: _, _ :: _ => false
  | _, _ => true
  end.

(** ** Effects *)

Inductive level := DEBUG | INFO | WARNING | ERROR.

(** The calls into folium, matplotlib and pandas' writer. *)
Inductive call :=
| FoliumMap
| MarkerAddTo (lat lng : value) (popup : str)
| MapSave (path : str)
| PltFigure
| PltBar (years : list Z) (counts : list nat)
| PltTitle (label : str)
| PltXlabel (label : str)
| PltYlabel (label : str)
| PltGrid
| PltXticks
| PltSavefig (path : str)
| PltClose
| ToCsv (records : DataFrame) (path : str).

Inductive event :=
| Log (lvl : level) (msg : str)
| Did (c : call).

(** What the script cannot decide by itself. *)
Record world := {
  (** the exception a library call ends with, if any *)
  raises : call -> option exn;
  (** whether [float] reads this text *)
  float_parses : str -> bool;
  (** the value pandas' reader gives a field *)
  infer_cell : str -> value
}.

(** A world in which no library call fails. *)
Definition quiet : world :=
  {| raises := fun _ => None;
     float_parses := fun _ => true;
     infer_cell := fun field => match field with [] => VNaN | _ :: _ => VStr field end |}.

(** A computation: the events it leaves and how it ends. *)
Definition M (A : Type) := (list event * outcome A)%type.

Definition ret {A} (a : A) : M A := ([], Ret a).

Definition bind {A B} (m : M A) (f : A -> M B) : M B :=
  match snd m with
  | Ret a => (fst m ++ fst (f a), snd (f a))
  | Raise e => (fst m, Raise e)
  end.

Definition lift {A} (o : outcome A) : M A := ([], o).

Definition log (lvl : level) (msg : str) : M unit := ([Log lvl msg], Ret tt).

(** [try: body  except Exception as e: handler e] *)
Definition try_except {A} (body : M A) (handler : exn -> M A) : M A :=
  match snd body with
  | Ret _ => body
  | Raise e => (fst body ++ fst (handler e), snd (handler e))
  end.

Declare Scope M_scope.
Delimit Scope M_scope with M.
Notation "x <- m ;; k" := (bind m (fun x => k))
  (at level 61, m at next level, right associativity) : M_scope.
Notation "m ;; k" := (bind m (fun _ => k))
  (at level 61, right associativity) : M_scope.

(** [for record in rs: s = body s record] *)
Fixpoint for_each {S} (body : S -> row -> M S) (rs : list row) (s : S) : M S :=
  match rs with
  | [] => ret s
  | record :: rs' => bind (body s record) (for_each body rs')
  end.

(** [os.path.join] *)
Definition path_join (dir name : str) : str := dir ++ u "/" ++ name.

Definition nl : str := [10%N].
Definition dquote : str := [34%N].

(** ** pandas' reader: the tokenizer

    [pandas.read_csv] is library code.  Its tokenizer is followed here for
    the call of line 44, which leaves every setting but [skiprows] and the
    encoding at its default. *)

(** The states of the tokenizer that the call of line 44 can reach: comma
    as delimiter, the double quote as quote character with doubled quotes
    inside quoted fields, no comment or escape character, blank lines
    skipped. *)
Inductive ParserState :=
| START_RECORD
| START_FIELD
| IN_FIELD
| IN_QUOTED_FIELD
| QUOTE_IN_QUOTED_FIELD
| EAT_CRNL
| EAT_CRNL_NOP
| WHITESPACE_LINE
| START_FIELD_IN_SKIP_LINE
| IN_FIELD_IN_SKIP_LINE
| IN_QUOTED_FIELD_IN_SKIP_LINE
| QUOTE_IN_QUOTED_FIELD_IN_SKIP_LINE.

Record parser_t := {
  state : ParserState;
  (** the lines of the file passed so far, skipped and blank ones too *)
  file_lines : nat;
  (** the field being read, last character first *)
  stream : str;
  (** the fields of the line being read, last field first *)
  words : list str;
  (** the lines read, last line first *)
  table : list (list str);
  error_msg : option exn
}.

Definition parser_init : parser_t :=
  {| state := START_RECORD; file_lines := 0; stream := []; words := [];
     table := []; error_msg := None |}.

Definition set_state (s : ParserState) (p : parser_t) : parser_t :=
  {| state := s; file_lines := file_lines p; stream := stream p;
     words := words p; table := table p; error_msg := error_msg p |}.

Definition push_char (c : N) (p : parser_t) : parser_t :=
  {| state := state p; file_lines := file_lines p; stream := c :: stream p;
     words := words p; table := table p; error_msg := error_msg p |}.

Definition end_field (p : parser_t) : parser_t :=
  {| state := state p; file_lines := file_lines p; stream := [];
     words := rev (stream p) :: words p; table := table p;
     error_msg := error_msg p |}.

(** A line that is passed without being read: a blank or a skipped one. *)
Definition pass_line (s : ParserState) (p : parser_t) : parser_t :=
  {| state := s; file_lines := S (file_lines p); stream := []; words := [];
     table := table p; error_msg := error_msg p |}.

Definition in_skip_line (s : ParserState) : bool :=
  match s with
  | START_FIELD_IN_SKIP_LINE | IN_FIELD_IN_SKIP_LINE
  | IN_QUOTED_FIELD_IN_SKIP_LINE | QUOTE_IN_QUOTED_FIELD_IN_SKIP_LINE => true
  | _ => false
  end.

Definition parser_error (msg : str) : exn :=
  LibraryError (u "Error tokenizing data. C error: " ++ msg).

(** The end of a line.  The header and the first line after it are taken as
    they are; a later line with more fields than the line before it is an
    error, and one with fewer is filled up with empty fields. *)
Definition end_line (p : parser_t) : parser_t :=
  if in_skip_line (state p) then pass_line START_RECORD p
  else
    let fields := rev (words p) in
    let ex_fields :=
      match table p with
      | [] => List.length fields
      | previous :: _ => List.length previous
      end in
    if Nat.ltb 1 (List.length (table p)) && Nat.ltb ex_fields (List.length fields)
    then
      {| state := START_RECORD; file_lines := S (file_lines p); stream := [];
         words := []; table := table p;
         error_msg :=
           Some (parser_error
                   (u "Expected " ++ str_of_nat ex_fields ++ u " fields in line "
                    ++ str_of_nat (S (file_lines p)) ++ u ", saw "
                    ++ str_of_nat (List.length fields) ++ [10%N])) |}
    else
      {| state := START_RECORD; file_lines := S (file_lines p); stream := [];
         words := [];
         table := (fields ++ repeat [] (ex_fields - List.length fields)) :: table p;
         error_msg := error_msg p |}.

Definition is_blank (c : N) : bool := N.eqb c 32 || N.eqb c 9.

Definition start_field (p : parser_t) (c : N) : parser_t :=
  if N.eqb c 10 then end_line (end_field p)
  else if N.eqb c 13 then set_state EAT_CRNL (end_field p)
  else if N.eqb c 34 then set_state IN_QUOTED_FIELD p
  else if N.eqb c 44 then set_state START_FIELD (end_field p)
  else set_state IN_FIELD (push_char c p).

Definition in_field (p : parser_t) (c : N) : parser_t :=
  if N.eqb c 10 then end_line (end_field p)
  else if N.eqb c 13 then set_state EAT_CRNL (end_field p)
  else if N.eqb c 44 then set_state START_FIELD (end_field p)
  else set_state IN_FIELD (push_char c p).

(** The start of a line: one of the first [skiprows] lines is skipped, an
    empty line is passed, and so is a line of blanks only. *)
Definition start_record (skiprows : nat) (p : parser_t) (c : N) : parser_t :=
  if Nat.ltb (file_lines p) skiprows then
    if N.eqb c 34 then set_state IN_QUOTED_FIELD_IN_SKIP_LINE p
    else if N.eqb c 10 then end_line (set_state IN_FIELD_IN_SKIP_LINE p)
    else set_state IN_FIELD_IN_SKIP_LINE p
  else if N.eqb c 10 then pass_line START_RECORD p
  else if N.eqb c 13 then pass_line EAT_CRNL_NOP p
  else if is_blank c then set_state WHITESPACE_LINE (push_char c p)
  else start_field p c.

Definition tokenize_char (skiprows : nat) (p : parser_t) (c : N) : parser_t :=
  match error_msg p with
  | Some _ => p
  | None =>
      match state p with
      | START_RECORD => start_record skiprows p c
      | START_FIELD => start_field p c
      | IN_FIELD => in_field p c
      | IN_QUOTED_FIELD =>
          if N.eqb c 34 then set_state QUOTE_IN_QUOTED_FIELD p
          else push_char c p
      | QUOTE_IN_QUOTED_FIELD =>
          if N.eqb c 34 then set_state IN_QUOTED_FIELD (push_char c p)
          else in_field p c
      | EAT_CRNL =>
          if N.eqb c 10 then end_line p
          else
            match error_msg (end_line p) with
            | Some _ => end_line p
            | None => start_record skiprows (end_line p) c
            end
      | EAT_CRNL_NOP =>
          if N.eqb c 10 || N.eqb c 44 then set_state START_RECORD p
          else start_record skiprows (set_state START_RECORD p) c
      | WHITESPACE_LINE =>
          (* the blanks read so far are kept in [stream]: when the line
             turns out not to be blank the tokenizer reads it again as a
             field *)
          if N.eqb c 10 then pass_line START_RECORD p
          else if N.eqb c 13 then pass_line EAT_CRNL_NOP p
          else if is_blank c then push_char c p
          else in_field p c
      | START_FIELD_IN_SKIP_LINE =>
          if N.eqb c 10 then end_line p
          else if N.eqb c 13 then pass_line EAT_CRNL_NOP p
          else if N.eqb c 34 then set_state IN_QUOTED_FIELD_IN_SKIP_LINE p
          else if N.eqb c 44 then p
          else set_state IN_FIELD_IN_SKIP_LINE p
      | IN_FIELD_IN_SKIP_LINE =>
          if N.eqb c 10 then end_line p
          else if N.eqb c 13 then pass_line EAT_CRNL_NOP p
          else if N.eqb c 44 then set_state START_FIELD_IN_SKIP_LINE p
          else p
      | IN_QUOTED_FIELD_IN_SKIP_LINE =>
          if N.eqb c 34 then set_state QUOTE_IN_QUOTED_FIELD_IN_SKIP_LINE p
          else p
      | QUOTE_IN_QUOTED_FIELD_IN_SKIP_LINE =>
          if N.eqb c 10 then end_line p
          else if N.eqb c 13 then pass_line EAT_CRNL_NOP p
          else if N.eqb c 34 then set_state IN_QUOTED_FIELD_IN_SKIP_LINE p
          else if N.eqb c 44 then set_state START_FIELD_IN_SKIP_LINE p
          else set_state IN_FIELD_IN_SKIP_LINE p
      end
  end.

Definition tokenize_bytes (skiprows : nat) (p : parser_t) (data : str) : parser_t :=
  fold_left (tokenize_char skiprows) data p.

(** The end of the file. *)
Definition handle_eof (p : parser_t) : parser_t :=
  match error_msg p with
  | Some _ => p
  | None =>
      match state p with
      | START_RECORD | WHITESPACE_LINE | EAT_CRNL_NOP => p
      | IN_QUOTED_FIELD =>
          {| state := state p; file_lines := file_lines p; stream := stream p;
             words := words p; table := table p;
             error_msg :=
               Some (parser_error (u "EOF inside string starting at row "
                                   ++ str_of_nat (file_lines p))) |}
      | IN_FIELD | START_FIELD | QUOTE_IN_QUOTED_FIELD => end_line (end_field p)
      | _ => end_line p
      end
  end.

(** A byte order mark at the start of the file is left out. *)
Definition skip_bom (data : str) : str :=
  match data with
  | c :: data' => if N.eqb c 65279 then data' else data
  | [] => []
  end.

(** The lines of the file as the reader takes them. *)
Definition tokenize (skiprows : nat) (lines : list str) : outcome (list (list str)) :=
  let p := handle_eof (tokenize_bytes skiprows parser_init (skip_bom (List.concat lines))) in
  match error_msg p with
  | Some e => Raise e
  | None => Ret (rev (table p))
  end.

(** ** Lines written as CSV *)

(** A field as it stands in a line: as it is, or between quotes. *)
Inductive cell := Bare (s : str) | Quoted (s : str).

Definition cell_text (c : cell) : str :=
  match c with Bare s => s | Quoted s => s end.

Fixpoint double_quotes (s : str) : str :=
  match s with
  | [] => []
  | c :: s' => if N.eqb c 34 then 34%N :: 34%N :: double_quotes s'
               else c :: double_quotes s'
  end.

Definition write_cell (c : cell) : str :=
  match c with
  | Bare s => s
  | Quoted s => dquote ++ double_quotes s ++ dquote
  end.

Fixpoint write_cells (cs : list cell) : str :=
  match cs with
  | [] => []
  | c :: cs' =>
      match cs' with
      | [] => write_cell c
      | _ :: _ => write_cell c ++ 44%N :: write_cells cs'
      end
  end.

Definition write_line (cs : list cell) : str := write_cells cs ++ nl.

(** A character that may stand in a field without quotes: no line end,
    quote or comma, and neither a byte order mark nor the null character,
    which the reader drops or stops at. *)
Definition bare_char (c : N) : bool :=
  negb (N.eqb c 10 || N.eqb c 13 || N.eqb c 34 || N.eqb c 44 || N.eqb c 65279
        || N.eqb c 0).

(** A field that stays on its line. *)
Definition cell_ok (c : cell) : bool :=
  match c with
  | Bare s => forallb bare_char s
  | Quoted s => forallb (fun c => negb (N.eqb c 10 || N.eqb c 13 || N.eqb c 0)) s
  end.

(** A line the reader passes as blank. *)
Definition blank_record (cs : list cell) : bool :=
  match cs with
  | [] => true
  | [Bare s] => forallb is_blank s
  | _ => false
  end.

(** A line of at most [n] well-formed fields that is not blank. *)
Definition record_ok (n : nat) (cs : list cell) : bool :=
  forallb cell_ok cs && negb (blank_record cs) && Nat.leb (List.length cs) n.

(** A line without quotes that ends where it ends. *)
Fixpoint plain_line (l : str) : bool :=
  match l with
  | [] => false
  | c :: l' =>
      match l' with
      | [] => N.eqb c 10
      | _ :: _ => negb (N.eqb c 10 || N.eqb c 13 || N.eqb c 34) && plain_line l'
      end
  end.

(** The parser between the lines, and inside a line that is read. *)
Definition between_lines (n : nat) (t : list (list str)) : parser_t :=
  {| state := START_RECORD; file_lines := n; stream := []; words := [];
     table := t; error_msg := None |}.

Definition reading (s : ParserState) (n : nat) (w : str) (ws : list str)
    (t : list (list str)) : parser_t :=
  {| state := s; file_lines := n; stream := w; words := ws; table := t;
     error_msg := None |}.

(** The fields of a line filled up to [n] fields. *)
Definition fields_of (n : nat) (cs : list cell) : list str :=
  map cell_text cs ++ repeat [] (n - List.length cs).

(** Whether a line begins with a field that is not empty. *)
Definition begins_with_text (cs : list cell) : bool :=
  match cs with
  | [] | Bare [] :: _ => false
  | _ :: _ => true
  end.

(** A line that is skipped as one line whatever it holds: a line without
    quotes, or a line of well-formed fields that begins with text. *)
Definition skipped_as_one_line (l : str) : Prop :=
  plain_line l = true
  \/ exists cs,
       l = write_line cs /\ forallb cell_ok cs = true /\ begins_with_text cs = true.

(** The row that holds [cells] under the labels [header]. *)
Fixpoint row_of (header : list str) (cells : list value) : row :=
  match header, cells with
  | h :: header', v :: cells' =>
      fun key => if str_eqb key h then v else row_of header' cells' key
  | _, _ => fun _ => VNaN
  end.

Section Script.

Variable U : unicode_db.
Variable W : world.

(** ** Character data that depends on the Unicode database *)

Definition decimal_value (c : N) : option N :=
  if N.leb 48 c && N.leb c 57 then Some (c - 48)%N
  else if is_ascii c then None
  else ucd_decimal U c.

(** [\d] *)
Definition is_decimal (c : N) : bool :=
  match decimal_value c with Some _ => true | None => false end.

Definition lower_char (before : str) (c : N) (after : str) : str :=
  if N.leb 65 c && N.leb c 90 then [(c + 32)%N]
  else if is_ascii c then [c]
  else ucd_lower U before c after.

Fixpoint lower_from (before s : str) : str :=
  match s with
  | [] => []
  | c :: after => lower_char before c after ++ lower_from (before ++ [c]) after
  end.

(** [s.lower()] *)
Definition lower (s : str) : str := lower_from [] s.

Fixpoint digits_value (acc : N) (s : str) : option N :=
  match s with
  | [] => Some acc
  | c :: s' =>
      match decimal_value c with
      | Some d => digits_value (10 * acc + d)%N s'
      | None => None
      end
  end.

(** [int(s)] for a text of decimal digits; any other text is a
    [ValueError] here (the signs, blanks and underscores that [int] also
    reads never reach it in this script). *)
Definition py_int (s : str) : outcome Z :=
  match s with
  | [] => Raise (ValueError (u "invalid literal for int()"))
  | _ :: _ =>
      match digits_value 0 s with
      | Some n => Ret (Z.of_N n)
      | None => Raise (ValueError (u "invalid literal for int()"))
      end
  end.

(** ** The matcher (lines 53-62) *)

Definition patterns : list regex :=
  [ (* t[-\s]?rex *)
    Cat (Chr 116) (Cat (Opt (Cls (fun c => N.eqb c 45 || is_space c))) (lit "rex"));
    (* tyrannosaurus *)
    lit "tyrannosaurus";
    (* t\.*\s*rexus *)
    Cat (Chr 116) (Cat (Star (Chr 46)) (Cat (Star (Cls is_space)) (lit "rexus")));
    (* tyrant *)
    lit "tyrant" ].

Definition is_match (m : option (list str)) : bool :=
  match m with Some _ => true | None => false end.

Definition contains_trex (text : value) : bool :=
  match text with
  | VStr s => existsb (fun pattern => is_match (search pattern (lower s))) patterns
  | _ => false
  end.

(** The texts the four patterns match, spelled out. *)
Definition trex_token (w : str) : Prop :=
  w = u "trex"
  \/ (exists c, (c = 45%N \/ is_space c = true) /\ w = u "t" ++ [c] ++ u "rex")
  \/ w = u "tyrannosaurus"
  \/ (exists n blanks,
        forallb is_space blanks = true /\
        w = u "t" ++ repeat 46%N n ++ blanks ++ u "rexus")
  \/ w = u "tyrant".

(** ** The date extractor (lines 162-178) *)

Definition four_digits : regex := Group (Times 4 (Cls is_decimal)).

Definition year_patterns : list regex :=
  [ (* (\d{4}) *)
    four_digits;
    (* (\d{4})-\d{4} *)
    Cat four_digits (Cat (Chr 45) (Times 4 (Cls is_decimal)));
    (* (\d{4})–\d{4} *)
    Cat four_digits (Cat (Chr en_dash) (Times 4 (Cls is_decimal)));
    (* (\d{4})\s*, *)
    Cat four_digits (Cat (Star (Cls is_space)) (Chr 44)) ].

(** The loop of lines 174-178 over the patterns still to try. *)
Fixpoint try_patterns (ps : list regex) (date_str : str) : outcome (option Z) :=
  match ps with
  | [] => Ret None
  | pattern :: ps' =>
      match search pattern date_str with
      | Some m =>
          (g <- group m 1 ;;
           y <- py_int g ;;
           Ret (Some y))%outcome
      | None => try_patterns ps' date_str
      end
  end.

Definition extract_years (date_str : value) : outcome (option Z) :=
  if isna date_str then Ret None
  else try_patterns year_patterns (py_str date_str).

(** The simpler extractor of the specification: the number written by the
    first four consecutive decimal digits of the text. *)
Fixpoint first_four_digit_number (s : str) : option Z :=
  match s with
  | [] => None
  | a :: t =>
      match t with
      | b :: c :: d :: _ =>
          match decimal_value a, decimal_value b, decimal_value c, decimal_value d with
          | Some da, Some db, Some dc, Some dd =>
              Some (Z.of_N (1000 * da + 100 * db + 10 * dc + dd))
          | _, _, _, _ => first_four_digit_number t
          end
      | _ => first_four_digit_number t
      end
  end.

Definition simple_year (date_str : value) : option Z :=
  if isna date_str then None else first_four_digit_number (py_str date_str).

(** A library call: it raises what the world says, or else happens. *)
Definition invoke (c : call) : M unit :=
  match raises W c with
  | Some e => ([], Raise e)
  | None => ([Did c], Ret tt)
  end.

(** ** The loader (lines 30-50) *)

Definition header_token : str := dquote ++ u "occurrence_no" ++ dquote.

(** The loop of lines 37-40 from line number [i] on; [header_row] is the
    value the variable has when the loop is entered. *)
Fixpoint scan_header (i : nat) (lines : list str) (header_row : nat) : nat :=
  match lines with
  | [] => header_row
  | line :: lines' =>
      if startswith header_token line then i
      else scan_header (S i) lines' header_row
  end.

Definition header_row (lines : list str) : nat := scan_header 0 lines 0.

(** Lines 34-41. *)
Definition find_header_row (lines : list str) : M nat :=
  (log DEBUG (u "Found header row at line " ++ str_of_nat (header_row lines)) ;;
   ret (header_row lines))%M.

(** Modelled from the spec: [pandas.read_csv] is library code.  The spec
    has the file parsed from the header on "using standard CSV rules"; the
    reader here is pandas' with its defaults.  The text of the file is the
    concatenation of the lines [readlines] gives.  The first line read
    names the columns and every later line is a row; fields that a row has
    more than the header, which can only be in the first row and then in
    all, are the index and not cells.  A file with no line to read is an
    error.  Two things are not modelled: pandas renames empty and repeated
    column names, and it types a column as a whole, for which [infer_cell]
    stands field by field. *)
Definition read_csv (skiprows : nat) (lines : list str) : outcome DataFrame :=
  match tokenize skiprows lines with
  | Raise e => Raise e
  | Ret [] => Raise (LibraryError (u "No columns to parse from file"))
  | Ret (header :: data) =>
      Ret {| columns := header;
             rows := map (fun fields =>
                            row_of header
                                   (map (infer_cell W)
                                        (skipn (List.length fields - List.length header)
                                               fields)))
                         data |}
  end.

(** Lines 31-50, for any reader standing for [pd.read_csv]. *)
Definition load_with (reader : nat -> list str -> outcome DataFrame)
    (lines : list str) : M DataFrame :=
  (log DEBUG (u "Attempting to read CSV file...") ;;
   skiprows <- find_header_row lines ;;
   df <- lift (reader skiprows lines) ;;
   log INFO (u "Successfully loaded CSV with "
             ++ str_of_nat (List.length (rows df)) ++ u " records") ;;
   ret df)%M.

Definition load (lines : list str) : M DataFrame := load_with read_csv lines.

(** ** The match mask (lines 64-75 and 116-119) *)

Definition taxonomic_columns : list str :=
  [ u "identified_name"; u "identified_rank"; u "accepted_name";
    u "accepted_rank"; u "phylum"; u "class"; u "order"; u "family";
    u "genus" ].

Definition trex_mask (df : DataFrame) : outcome (list bool) :=
  (sub <- select df taxonomic_columns ;;
   Ret (any_axis1 (List.length (rows sub)) (apply_columns contains_trex sub)))%outcome.

Definition trex_records (df : DataFrame) : outcome DataFrame :=
  (mask <- trex_mask df ;;
   Ret {| columns := columns df; rows := boolean_index (rows df) mask |})%outcome.

(** ** The map builder (lines 181-214) *)

Definition lat : str := u "lat".
Definition lng : str := u "lng".
Definition accepted_name : str := u "accepted_name".
Definition collection_name : str := u "collection_name".
Definition collection_dates : str := u "collection_dates".
Definition collectors : str := u "collectors".

Definition indent : str := repeat 32%N 20.

Definition popup_content (cols : list str) (record : row) : outcome str :=
  (specimen <- getitem cols record accepted_name ;;
   location <- getitem cols record collection_name ;;
   date <- getitem cols record collection_dates ;;
   collector <- getitem cols record collectors ;;
   Ret (nl ++ indent ++ u "<b>Specimen:</b> " ++ py_str specimen ++ u "<br>"
        ++ nl ++ indent ++ u "<b>Location:</b> " ++ py_str location ++ u "<br>"
        ++ nl ++ indent ++ u "<b>Date:</b> " ++ py_str date ++ u "<br>"
        ++ nl ++ indent ++ u "<b>Collector:</b> " ++ py_str collector
        ++ nl ++ indent))%outcome.

(** [float(v)]; the number itself is not modelled, the cell stands for it.
    The message of the [ValueError] is abridged: Python adds the text it
    could not read. *)
Definition py_float (v : value) : outcome value :=
  match v with
  | VNum _ | VNaN => Ret v
  | VStr s =>
      if float_parses W s then Ret v
      else Raise (ValueError (u "could not convert string to float"))
  | VNone => Raise (TypeError (u "float() argument must be a string or a real number"))
  end.

(** The body of the loop of lines 189-204. *)
Definition add_marker (cols : list str) (valid_locations : nat) (record : row)
  : M nat :=
  (la <- lift (getitem cols record lat) ;;
   if notna la then
     lo <- lift (getitem cols record lng) ;;
     if notna lo then
       popup <- lift (popup_content cols record) ;;
       la' <- lift (la0 <- getitem cols record lat ;; py_float la0)%outcome ;;
       lo' <- lift (lo0 <- getitem cols record lng ;; py_float lo0)%outcome ;;
       invoke (MarkerAddTo la' lo' popup) ;;
       ret (S valid_locations)
     else ret valid_locations
   else ret valid_locations)%M.

(** The rows that get a marker, and the call that adds it. *)
Definition has_coordinates (record : row) : bool :=
  notna (record lat) && notna (record lng).

Definition float_ok (v : value) : bool :=
  match py_float v with Ret _ => true | Raise _ => false end.

Definition popup_text (record : row) : str :=
  nl ++ indent ++ u "<b>Specimen:</b> " ++ py_str (record accepted_name) ++ u "<br>"
  ++ nl ++ indent ++ u "<b>Location:</b> " ++ py_str (record collection_name) ++ u "<br>"
  ++ nl ++ indent ++ u "<b>Date:</b> " ++ py_str (record collection_dates) ++ u "<br>"
  ++ nl ++ indent ++ u "<b>Collector:</b> " ++ py_str (record collectors)
  ++ nl ++ indent.

Definition marker_of (record : row) : call :=
  MarkerAddTo (record lat) (record lng) (popup_text record).

Definition map_columns : list str :=
  [lat; lng; accepted_name; collection_name; collection_dates; collectors].

Definition map_path : str := path_join (u "outputs") (u "trex_locations.html").

Definition fossil_map_body (records : DataFrame) : M unit :=
  (log DEBUG (u "Creating fossil map...") ;;
   invoke FoliumMap ;;
   valid_locations <- for_each (add_marker (columns records)) (rows records) 0 ;;
   log DEBUG (u "Added " ++ str_of_nat valid_locations ++ u " markers to the map") ;;
   invoke (MapSave map_path) ;;
   log INFO (u "Map saved successfully to " ++ map_path))%M.

Definition create_fossil_map (records : DataFrame) : M unit :=
  try_except (fossil_map_body records)
             (fun e => log ERROR (u "Error creating map: " ++ exn_str e)).

(** ** The timeline builder (lines 217-252) *)

(** [if year:] *)
Definition truthy (year : option Z) : bool :=
  match year with
  | Some y => negb (Z.eqb y 0)
  | None => false
  end.

(** The body of the loop of lines 222-225: [if year: years.append(year)]. *)
Definition add_year (cols : list str) (years : list Z) (record : row) : M (list Z) :=
  (date <- lift (getitem cols record collection_dates) ;;
   year <- lift (extract_years date) ;;
   match year with
   | Some y => if truthy year then ret (years ++ [y]) else ret years
   | None => ret years
   end)%M.

Fixpoint insert_year (y : Z) (counts : list (Z * nat)) : list (Z * nat) :=
  match counts with
  | [] => [(y, 1)]
  | (y', n) :: counts' =>
      if Z.ltb y y' then (y, 1) :: counts
      else if Z.eqb y y' then (y', S n) :: counts'
      else (y', n) :: insert_year y counts'
  end.

(** [pd.Series(years).value_counts().sort_index()] *)
Definition year_counts (years : list Z) : list (Z * nat) :=
  fold_right insert_year [] years.

(** The count a list of bars gives a year. *)
Definition total_for (y : Z) (counts : list (Z * nat)) : nat :=
  list_sum (map snd (filter (fun bar => Z.eqb (fst bar) y) counts)).

(** The year a row adds to the list of lines 221-225, if it adds one. *)
Definition valid_year (record : row) : list Z :=
  match extract_years (record collection_dates) with
  | Ret (Some y) => if truthy (Some y) then [y] else []
  | _ => []
  end.

Definition timeline_path : str := path_join (u "outputs") (u "trex_timeline.png").

(** The calls of lines 237-248 for the given list of years. *)
Definition plot_calls (years : list Z) : list call :=
  [ PltFigure;
    PltBar (map fst (year_counts years)) (map snd (year_counts years));
    PltTitle (u "T-Rex Fossil Discoveries Over Time");
    PltXlabel (u "Year");
    PltYlabel (u "Number of Discoveries");
    PltGrid;
    PltXticks;
    PltSavefig timeline_path;
    PltClose ].

(** Lines 233-249. *)
Definition plot_timeline (years : list Z) : M unit :=
  (invoke PltFigure ;;
   invoke (PltBar (map fst (year_counts years)) (map snd (year_counts years))) ;;
   invoke (PltTitle (u "T-Rex Fossil Discoveries Over Time")) ;;
   invoke (PltXlabel (u "Year")) ;;
   invoke (PltYlabel (u "Number of Discoveries")) ;;
   invoke PltGrid ;;
   invoke PltXticks ;;
   invoke (PltSavefig timeline_path) ;;
   invoke PltClose ;;
   log INFO (u "Timeline plot saved successfully to " ++ timeline_path))%M.

Definition timeline_body (records : DataFrame) : M unit :=
  (log DEBUG (u "Creating discovery timeline...") ;;
   years <- for_each (add_year (columns records)) (rows records) [] ;;
   log DEBUG (u "Found " ++ str_of_nat (List.length years) ++ u " valid years") ;;
   match years with
   | [] => log WARNING (u "No valid years found for timeline plot")
   | _ :: _ => plot_timeline years
   end)%M.

Definition create_discovery_timeline (records : DataFrame) : M unit :=
  try_except (timeline_body records)
             (fun e => log ERROR (u "Error creating timeline: " ++ exn_str e)).

(** ** The last stage (lines 254-265) *)

Definition output_path : str := path_join (u "outputs") (u "trex_analysis.csv").

(** Lines 255-259. *)
Definition create_visualizations (records : DataFrame) : M unit :=
  if empty records then ret tt
  else
    (log INFO (nl ++ u "Creating visualizations...") ;;
     log DEBUG (u "Found " ++ str_of_nat (List.length (rows records))
                ++ u " T-Rex records for visualization") ;;
     create_fossil_map records ;;
     create_discovery_timeline records)%M.

(** Lines 262-265. *)
Definition save_results (records : DataFrame) : M unit :=
  (log INFO (nl ++ u "Saving detailed results to " ++ output_path) ;;
   invoke (ToCsv records output_path) ;;
   log INFO (u "Analysis completed successfully"))%M.

Definition last_stage (records : DataFrame) : M unit :=
  (create_visualizations records ;;
   save_results records)%M.

(** ** The report (lines 101-159) *)

(** [for x in xs: body x], for a body that keeps no state *)
Fixpoint for_in {A} (body : A -> M unit) (xs : list A) : M unit :=
  match xs with
  | [] => ret tt
  | x :: xs' => bind (body x) (fun _ => for_in body xs')
  end.

(** Whether two cells are the same value. *)
Definition value_eqb (a b : value) : bool :=
  match a, b with
  | VNone, VNone | VNaN, VNaN => true
  | VStr s, VStr t | VNum s, VNum t => str_eqb s t
  | _, _ => false
  end.

Fixpoint unique_from (seen vs : list value) : list value :=
  match vs with
  | [] => []
  | v :: vs' =>
      if existsb (value_eqb v) seen then unique_from seen vs'
      else v :: unique_from (v :: seen) vs'
  end.

(** [series.unique()]: the distinct values, in the order they first appear *)
Definition unique (vs : list value) : list value := unique_from [] vs.

(** [df[col]] *)
Definition column (df : DataFrame) (col : str) : outcome (list value) :=
  if has_column (columns df) col
  then Ret (map (fun record : row => record col) (rows df))
  else Raise (KeyError col).

(** The body of the loop of lines 104-113. *)
Definition report_column (df : DataFrame) (col : str) : M unit :=
  if has_column (columns df) col then
    (cells <- lift (column df col) ;;
     let trex_entries :=
       {| columns := columns df;
          rows := boolean_index (rows df) (map contains_trex cells) |} in
     if empty trex_entries then ret tt
     else
       (log INFO (nl ++ u "Found T-Rex related entries in " ++ col ++ u ":") ;;
        log INFO (u "Total entries: "
                  ++ str_of_nat (List.length (rows trex_entries))) ;;
        log INFO (u "Unique values:") ;;
        unique_values <- lift (values <- column trex_entries col ;;
                               Ret (unique values))%outcome ;;
        for_in (fun val => log INFO (u "  - " ++ py_str val)) unique_values))%M
  else ret tt.

(** Lines 102-113. *)
Definition report_columns (df : DataFrame) : M unit :=
  (log INFO (nl ++ u "Analyzing taxonomic columns for T-Rex mentions:") ;;
   log INFO (repeat 45%N 50) ;;
   for_in (report_column df) taxonomic_columns)%M.

(** A piece of an f-string over a record: literal text, or [{record['key']}]. *)
Inductive part :=
| Text (s : str)
| Field (key : str).

(** The text of an f-string, its fields read from left to right. *)
Fixpoint fstring (cols : list str) (record : row) (parts : list part) : outcome str :=
  match parts with
  | [] => Ret []
  | Text s :: parts' =>
      (rest <- fstring cols record parts' ;; Ret (s ++ rest))%outcome
  | Field key :: parts' =>
      (v <- getitem cols record key ;;
       rest <- fstring cols record parts' ;;
       Ret (py_str v ++ rest))%outcome
  end.

(** A statement of the loop of lines 129-159: [logging.info(f"...")], plain
    or under [if pd.notna(record[key]):]. *)
Inductive line :=
| Info (parts : list part)
| InfoIfNotna (key : str) (parts : list part).

Definition report_line (cols : list str) (record : row) (l : line) : M unit :=
  match l with
  | Info parts => (msg <- lift (fstring cols record parts) ;; log INFO msg)%M
  | InfoIfNotna key parts =>
      (v <- lift (getitem cols record key) ;;
       if notna v
       then (msg <- lift (fstring cols record parts) ;; log INFO msg)
       else ret tt)%M
  end.

(** Lines 130-159 for the record with index label [idx]. *)
Definition record_lines (idx : nat) : list line :=
  [ Info [Text (nl ++ repeat 61%N 80)];
    Info [Text (u "Record "); Text (str_of_nat (idx + 1)); Text (u ":")];
    Info [Text (nl ++ u "Taxonomic Information:")];
    Info [Text (u "Accepted Name: "); Field (u "accepted_name")];
    Info [Text (u "Genus: "); Field (u "genus")];
    Info [Text (nl ++ u "Discovery Information:")];
    Info [Text (u "Location: "); Field (u "collection_name"); Text (u " (");
          Field (u "cc"); Text (u ", "); Field (u "state"); Text (u ")")];
    Info [Text (u "Coordinates: "); Field (u "lat"); Text (u ", "); Field (u "lng")];
    Info [Text (u "Discovered by: "); Field (u "collectors")];
    Info [Text (u "Collection date: "); Field (u "collection_dates")];
    Info [Text (nl ++ u "Specimen Information:")];
    Info [Text (u "Collection type: "); Field (u "collection_type")];
    Info [Text (u "Collection size: "); Field (u "collection_size")];
    Info [Text (u "Methods used: "); Field (u "collection_methods")];
    InfoIfNotna (u "occurrence_comments")
      [Text (nl ++ u "Specimen details: "); Field (u "occurrence_comments")];
    InfoIfNotna (u "preservation_comments")
      [Text (u "Preservation: "); Field (u "preservation_comments")];
    InfoIfNotna (u "collection_comments")
      [Text (u "Additional notes: "); Field (u "collection_comments")] ].

Definition report_record (cols : list str) (labelled : nat * row) : M unit :=
  for_in (report_line cols (snd labelled)) (record_lines (fst labelled)).

(** [df[mask].iterrows()]: the kept rows, each with the index label it has
    in [df], counted from [idx] for the first row of [rs]. *)
Fixpoint iterrows_from (idx : nat) (rs : list row) (mask : list bool)
  : list (nat * row) :=
  match rs, mask with
  | record :: rs', b :: mask' =>
      if b then (idx, record) :: iterrows_from (S idx) rs' mask'
      else iterrows_from (S idx) rs' mask'
  | _, _ => []
  end.

(** Lines 121-159, for the table and its mask. *)
Definition report_records (df : DataFrame) (mask : list bool) : M unit :=
  let records := {| columns := columns df; rows := boolean_index (rows df) mask |} in
  (log INFO (nl ++ u "Complete T-Rex Records Found:") ;;
   log INFO (repeat 45%N 50) ;;
   log INFO (u "Total number of potential T-Rex records: "
             ++ str_of_nat (List.length (rows records))) ;;
   if empty records then ret tt
   else
     (log INFO (nl ++ u "Sample of records with discovery information:") ;;
      for_in (report_record (columns df)) (iterrows_from 0 (rows df) mask)))%M.

(** The columns the report of a record reads, in the order it reads them. *)
Definition report_fields : list str :=
  [ u "accepted_name"; u "genus"; u "collection_name"; u "cc"; u "state";
    u "lat"; u "lng"; u "collectors"; u "collection_dates";
    u "collection_type"; u "collection_size"; u "collection_methods";
    u "occurrence_comments"; u "preservation_comments"; u "collection_comments" ].

(** ** The script (lines 1-268) *)

(** Lines 31-50 when opening or reading the file gave [file]. *)
Definition read_input (reader : nat -> list str -> outcome DataFrame)
    (file : outcome (list str)) : M DataFrame :=
  match file with
  | Ret lines => load_with reader lines
  | Raise e => (log DEBUG (u "Attempting to read CSV file...") ;; lift (Raise e))%M
  end.

(** The body of the outer [try]: [dirs] is how the two [os.makedirs] ended,
    [file] what [open] and [readlines] gave. *)
Definition analysis (reader : nat -> list str -> outcome DataFrame)
    (dirs : outcome unit) (file : outcome (list str)) : M unit :=
  (_ <- lift dirs ;;
   df <- read_input reader file ;;
   report_columns df ;;
   mask <- lift (trex_mask df) ;;
   report_records df mask ;;
   last_stage {| columns := columns df; rows := boolean_index (rows df) mask |})%M.

(** The [try] statement of lines 25-268. *)
Definition main (reader : nat -> list str -> outcome DataFrame)
    (dirs : outcome unit) (file : outcome (list str)) : M unit :=
  try_except (analysis reader dirs file)
             (fun e => log ERROR (u "An error occurred: " ++ exn_str e)).

(** The script: the statements before the [try] (the imports and the
    logging set-up of lines 11-23, which opens the log file in [data/]),
    ended as [setup] says, and then the [try] statement. *)
Definition script (setup : outcome unit)
    (reader : nat -> list str -> outcome DataFrame)
    (dirs : outcome unit) (file : outcome (list str)) : M unit :=
  (_ <- lift setup ;; main reader dirs file)%M.

(** ** Notions the properties are stated with *)

(** Whether some candidate cell of a row matches. *)
Definition row_matches (record : row) : bool :=
  existsb (fun c => contains_trex (record c)) taxonomic_columns.

(** The rows of a table whose cell in column [col] matches. *)
Definition column_entries (df : DataFrame) (col : str) : list row :=
  filter (fun record : row => contains_trex (record col)) (rows df).

(** The library calls of a trace, in the order they were made. *)
Fixpoint calls_of (t : list event) : list call :=
  match t with
  | [] => []
  | Log _ _ :: t' => calls_of t'
  | Did c :: t' => c :: calls_of t'
  end.

(** ** Sample inputs *)

Definition sample_columns : list str :=
  taxonomic_columns ++ [lat; lng; collection_name; collection_dates; collectors].

(** A find with coordinates and a dated collection. *)
Definition located_row : row :=
  row_of sample_columns
    [ VStr (u "Tyrannosaurus rex"); VStr (u "species");
      VStr (u "Tyrannosaurus rex"); VStr (u "species");
      VStr (u "Chordata"); VStr (u "Saurischia"); VStr (u "Theropoda");
      VStr (u "Tyrannosauridae"); VStr (u "Tyrannosaurus");
      VNum (u "46.9"); VNum (u "-106.7");
      VStr (u "Hell Creek"); VStr (u "1990-1992"); VStr (u "B. Brown") ].

(** A find without latitude, with no year in its date. *)
Definition unlocated_row : row :=
  row_of sample_columns
    [ VStr (u "T. rex"); VStr (u "species");
      VStr (u "Tyrannosaurus rex"); VStr (u "species");
      VStr (u "Chordata"); VStr (u "Saurischia"); VStr (u "Theropoda");
      VStr (u "Tyrannosauridae"); VStr (u "Tyrannosaurus");
      VNaN; VNum (u "-104.2");
      VStr (u "Lance Creek"); VStr (u "unknown"); VNaN ].

(** A find of another taxon. *)
Definition other_row : row :=
  row_of sample_columns
    [ VStr (u "Triceratops horridus"); VStr (u "species");
      VStr (u "Triceratops horridus"); VStr (u "species");
      VStr (u "Chordata"); VStr (u "Ornithischia"); VNaN;
      VStr (u "Ceratopsidae"); VStr (u "Triceratops");
      VNum (u "45.1"); VNum (u "-104.9");
      VStr (u "Lance Creek"); VStr (u "1889"); VStr (u "J. B. Hatcher") ].

Definition sample_table : DataFrame :=
  {| columns := sample_columns; rows := [located_row; other_row; unlocated_row] |}.

Definition sample_records : DataFrame :=
  {| columns := sample_columns; rows := [located_row; unlocated_row] |}.

Definition unlocated_records : DataFrame :=
  {| columns := sample_columns; rows := [unlocated_row] |}.

Definition sample_metadata : list str :=
  [ u "Data Provider: The Paleobiology Database" ++ nl;
    u "Data License: Creative Commons CC0" ++ nl;
    u "Records:" ++ nl ].

Definition sample_header : str :=
  header_token ++ u ",accepted_name,lat,lng" ++ nl.

Definition sample_data : list str :=
  [ u "1,Tyrannosaurus rex,46.9,-106.7" ++ nl;
    u "2,Triceratops horridus,," ++ nl ].

(** The same header and data, field by field. *)
Definition sample_header_cells : list cell :=
  [ Quoted (u "occurrence_no"); Bare (u "accepted_name"); Bare (u "lat");
    Bare (u "lng") ].

Definition sample_data_cells : list (list cell) :=
  [ [ Bare (u "1"); Bare (u "Tyrannosaurus rex"); Bare (u "46.9");
      Bare (u "-106.7") ];
    [ Bare (u "2"); Bare (u "Triceratops horridus"); Bare []; Bare [] ] ].

(** The data with an empty line between the two rows. *)
Definition sample_data_with_blank : list str :=
  [ u "1,Tyrannosaurus rex,46.9,-106.7" ++ nl;
    nl;
    u "2,Triceratops horridus,," ++ nl ].

(** A world in which the map cannot be saved. *)
Definition map_save_fails : world :=
  {| raises := fun c =>
       match c with
       | MapSave _ => Some (LibraryError (u "Permission denied"))
       | _ => None
       end;
     float_parses := fun _ => true;
     infer_cell := infer_cell quiet |}.

(** A table with every column the script reads. *)
Definition full_columns : list str :=
  sample_columns
  ++ [ u "cc"; u "state"; u "collection_type"; u "collection_size";
       u "collection_methods"; u "occurrence_comments";
       u "preservation_comments"; u "collection_comments" ].

Definition full_located_row : row :=
  row_of full_columns
    [ VStr (u "Tyrannosaurus rex"); VStr (u "species");
      VStr (u "Tyrannosaurus rex"); VStr (u "species");
      VStr (u "Chordata"); VStr (u "Saurischia"); VStr (u "Theropoda");
      VStr (u "Tyrannosauridae"); VStr (u "Tyrannosaurus");
      VNum (u "46.9"); VNum (u "-106.7");
      VStr (u "Hell Creek"); VStr (u "1990-1992"); VStr (u "B. Brown");
      VStr (u "US"); VStr (u "Montana"); VStr (u "taphonomic");
      VStr (u "12 specimens"); VStr (u "quarrying"); VStr (u "partial skull");
      VNaN; VNaN ].

Definition full_other_row : row :=
  row_of full_columns
    [ VStr (u "Triceratops horridus"); VStr (u "species");
      VStr (u "Triceratops horridus"); VStr (u "species");
      VStr (u "Chordata"); VStr (u "Ornithischia"); VNaN;
      VStr (u "Ceratopsidae"); VStr (u "Triceratops");
      VNum (u "45.1"); VNum (u "-104.9");
      VStr (u "Lance Creek"); VStr (u "1889"); VStr (u "J. B. Hatcher");
      VStr (u "US"); VStr (u "Wyoming"); VNaN; VNaN; VNaN; VNaN; VNaN; VNaN ].

Definition full_table : DataFrame :=
  {| columns := full_columns; rows := [full_other_row; full_located_row] |}.

(** A table in which no row matches. *)
Definition other_table : DataFrame :=
  {| columns := sample_columns; rows := [other_row] |}.

(** A table without most columns. *)
Definition coordinates_only : DataFrame :=
  {| columns := [lat; lng]; rows := [located_row] |}.

(** A find whose latitude was typed with a letter. *)
Definition mistyped_row : row :=
  row_of sample_columns
    [ VStr (u "Tyrannosaurus rex"); VStr (u "species");
      VStr (u "Tyrannosaurus rex"); VStr (u "species");
      VStr (u "Chordata"); VStr (u "Saurischia"); VStr (u "Theropoda");
      VStr (u "Tyrannosauridae"); VStr (u "Tyrannosaurus");
      VStr (u "46.9N"); VStr (u "-106.7");
      VStr (u "Hell Creek"); VStr (u "1902"); VStr (u "B. Brown") ].

Definition mistyped_records : DataFrame :=
  {| columns := sample_columns; rows := [located_row; mistyped_row] |}.

(** A world in which [float] reads signs, digits and points only. *)
Definition plain_floats : world :=
  {| raises := fun _ => None;
     float_parses :=
       forallb (fun c => N.eqb c 45 || N.eqb c 46 || (N.leb 48 c && N.leb c 57));
     infer_cell := infer_cell quiet |}.

(** A reader that yields the given table. *)
Definition reads (df : DataFrame) : nat -> list str -> outcome DataFrame :=
  fun _ _ => Ret df.

(** * Properties *)

(** ** The regular-expression matcher *)

Lemma and_then_nil (ts : list thread) (k : str -> list thread) :
  and_then ts k <> [] -> ts <> [].
Proof.
  destruct ts; [intros H; exact H | discriminate].
Qed.

Lemma run_Cat_nil (r1 r2 : regex) (s : str) :
  run (Cat r1 r2) s <> [] -> run r1 s <> [].
Proof.
  simpl. apply and_then_nil.
Qed.


(** A pattern that matches wherever another one does is found whenever the
    other one is. *)
Lemma search_weaken (p q : regex) :
  (forall s, run p s <> [] -> run q s <> []) ->
  forall s, search q s = None -> search p s = None.
Proof.
  intros Hpq s. induction s as [|c s IH]; simpl.
  - destruct (run q []) eqn:Eq; [|discriminate]. intros _.
    destruct (run p []) eqn:Ep; [reflexivity|].
    exfalso. apply (Hpq []); [rewrite Ep; discriminate | exact Eq].
  - destruct (run q (c :: s)) eqn:Eq; [|discriminate]. intros Hq.
    destruct (run p (c :: s)) eqn:Ep; [auto|].
    exfalso. apply (Hpq (c :: s)); [rewrite Ep; discriminate | exact Eq].
Qed.

Lemma and_then_In (ts : list thread) (k : str -> list thread) (z : thread) :
  In z (and_then ts k) <->
  exists x y, In x ts /\ In y (k (snd x)) /\ z = (fst x ++ fst y, snd y).
Proof.
  unfold and_then. rewrite in_flat_map. split.
  - intros (x & Hx & Hz). apply in_map_iff in Hz. destruct Hz as (y & <- & Hy).
    now exists x, y.
  - intros (x & y & Hx & Hy & ->). exists x. split; [exact Hx|].
    apply in_map_iff. now exists y.
Qed.

Lemma and_then_ext (ts : list thread) (k1 k2 : str -> list thread) :
  (forall x, In x ts -> k1 (snd x) = k2 (snd x)) ->
  and_then ts k1 = and_then ts k2.
Proof.
  intros H. unfold and_then. induction ts as [|x ts IH]; [reflexivity|].
  cbn [flat_map]. rewrite (H x (or_introl eq_refl)), IH; [reflexivity|].
  intros y Hy. apply H. now right.
Qed.

(** More fuel than the text is long changes nothing. *)
Lemma star_fuel (step : str -> list thread) (fuel1 fuel2 : nat) (s : str) :
  List.length s <= fuel1 -> List.length s <= fuel2 ->
  star step fuel1 s = star step fuel2 s.
Proof.
  revert fuel2 s. induction fuel1 as [|fuel1 IH]; intros [|fuel2] s H1 H2;
    [reflexivity| | |].
  - destruct s; [|cbn in H1; lia]. cbn [star List.length].
    replace (filter _ (step [])) with (@nil thread); [reflexivity|].
    symmetry. induction (step []) as [|x l IHl]; [reflexivity | exact IHl].
  - destruct s; [|cbn in H2; lia]. cbn [star List.length].
    replace (filter _ (step [])) with (@nil thread); [reflexivity|].
    symmetry. induction (step []) as [|x l IHl]; [reflexivity | exact IHl].
  - cbn [star]. f_equal. apply and_then_ext. intros x Hx.
    apply filter_In in Hx. destruct Hx as [_ Hlt]. apply Nat.ltb_lt in Hlt.
    apply IH; apply Nat.lt_succ_r; eapply Nat.lt_le_trans; eassumption.
Qed.

Lemma rep_sound (r : regex) :
  (forall s x, In x (run r s) -> exists w, s = w ++ snd x /\ matches r w) ->
  forall n s x,
    In x (rep (run r) n s) -> exists w, s = w ++ snd x /\ matches (Times n r) w.
Proof.
  intros Hr. induction n as [|n IH]; intros s x Hx.
  - destruct Hx as [<-|[]]. exists []. split; [reflexivity | constructor].
  - cbn [rep] in Hx. apply and_then_In in Hx.
    destruct Hx as (x1 & x2 & H1 & H2 & ->). cbn [snd].
    destruct (Hr _ _ H1) as (w1 & E1 & M1). destruct (IH _ _ H2) as (w2 & E2 & M2).
    exists (w1 ++ w2). split; [now rewrite <- app_assoc, <- E2 | now constructor].
Qed.

Lemma star_sound (r : regex) :
  (forall s x, In x (run r s) -> exists w, s = w ++ snd x /\ matches r w) ->
  forall fuel s x,
    In x (star (run r) fuel s) -> exists w, s = w ++ snd x /\ matches (Star r) w.
Proof.
  intros Hr. induction fuel as [|fuel IH]; intros s x Hx.
  - destruct Hx as [<-|[]]. exists []. split; [reflexivity | constructor].
  - cbn [star] in Hx. apply in_app_or in Hx. destruct Hx as [Hx|[<-|[]]].
    + apply and_then_In in Hx. destruct Hx as (x1 & x2 & H1 & H2 & ->). cbn [snd].
      apply filter_In in H1. destruct H1 as [H1 _].
      destruct (Hr _ _ H1) as (w1 & E1 & M1). destruct (IH _ _ H2) as (w2 & E2 & M2).
      exists (w1 ++ w2). split; [now rewrite <- app_assoc, <- E2 | now constructor].
    + exists []. split; [reflexivity | constructor].
Qed.

(** Whatever the matcher finds at the start of a text is a match. *)
Lemma run_sound (r : regex) :
  forall s x, In x (run r s) -> exists w, s = w ++ snd x /\ matches r w.
Proof.
  induction r as [|c|p|r1 IH1 r2 IH2|r IH|r IH|n r IH|r IH]; intros s x Hx.
  - destruct Hx as [<-|[]]. exists []. split; [reflexivity | constructor].
  - cbn [run] in Hx. destruct s as [|y t]; [destruct Hx|].
    destruct (N.eqb_spec y c) as [->|]; [|destruct Hx].
    destruct Hx as [<-|[]]. exists [c]. split; [reflexivity | constructor].
  - cbn [run] in Hx. destruct s as [|y t]; [destruct Hx|].
    destruct (p y) eqn:Hp; [|destruct Hx].
    destruct Hx as [<-|[]]. exists [y]. split; [reflexivity | now constructor].
  - cbn [run] in Hx. apply and_then_In in Hx.
    destruct Hx as (x1 & x2 & H1 & H2 & ->). cbn [snd].
    destruct (IH1 _ _ H1) as (w1 & E1 & M1). destruct (IH2 _ _ H2) as (w2 & E2 & M2).
    exists (w1 ++ w2). split; [now rewrite <- app_assoc, <- E2 | now constructor].
  - cbn [run] in Hx. apply in_app_or in Hx. destruct Hx as [Hx|[<-|[]]].
    + destruct (IH _ _ Hx) as (w & E & Hm). exists w. split; [exact E | now constructor].
    + exists []. split; [reflexivity | constructor].
  - exact (star_sound r IH _ s x Hx).
  - exact (rep_sound r IH n s x Hx).
  - cbn [run] in Hx. apply in_map_iff in Hx. destruct Hx as (y & <- & Hy). cbn [snd].
    destruct (IH _ _ Hy) as (w & E & Hm). exists w. split; [exact E | now constructor].
Qed.

(** Every match at the start of a text is found by the matcher. *)
Lemma run_complete (r : regex) (w : str) :
  matches r w -> forall t, exists g, In (g, t) (run r (w ++ t)).
Proof.
  induction 1 as [|c|p c Hp|r1 r2 w1 w2 _ IH1 _ IH2|r|r w _ IH|r
                  |r w1 w2 _ IH1 _ IH2|r|n r w1 w2 _ IH1 _ IH2|r w _ IH]; intros t.
  - exists []. now left.
  - exists []. cbn. rewrite N.eqb_refl. now left.
  - exists []. cbn. rewrite Hp. now left.
  - destruct (IH1 (w2 ++ t)) as (g1 & H1). destruct (IH2 t) as (g2 & H2).
    exists (g1 ++ g2). rewrite <- app_assoc. cbn [run]. apply and_then_In.
    now exists (g1, w2 ++ t), (g2, t).
  - exists []. cbn [run app]. apply in_or_app. right. now left.
  - destruct (IH t) as (g & Hg). exists g. cbn [run]. apply in_or_app. now left.
  - exists []. cbn [run app]. destruct (List.length t); cbn [star].
    + now left.
    + apply in_or_app. right. now left.
  - destruct w1 as [|c w1]; [exact (IH2 t)|].
    destruct (IH1 (w2 ++ t)) as (g1 & H1). destruct (IH2 t) as (g2 & H2).
    exists (g1 ++ g2). rewrite <- app_assoc. cbn [run app List.length star].
    apply in_or_app. left. apply and_then_In.
    exists (g1, w2 ++ t), (g2, t). cbn [fst snd]. split; [|split; [|reflexivity]].
    + apply filter_In. split; [exact H1|]. cbn [snd].
      apply Nat.ltb_lt. cbn [List.length]. rewrite !length_app. lia.
    + cbn [run] in H2.
      rewrite (star_fuel (run r) (List.length (w1 ++ w2 ++ t))
                 (List.length (w2 ++ t))); [exact H2| |lia].
      rewrite !length_app. lia.
  - exists []. now left.
  - destruct (IH1 (w2 ++ t)) as (g1 & H1). destruct (IH2 t) as (g2 & H2).
    exists (g1 ++ g2). rewrite <- app_assoc. cbn [run rep]. apply and_then_In.
    now exists (g1, w2 ++ t), (g2, t).
  - destruct (IH t) as (g & Hg). eexists. cbn [run]. apply in_map_iff.
    exists (g, t). split; [reflexivity | exact Hg].
Qed.

(** [re.search] finds a match exactly when some part of the text matches. *)
Lemma search_matches (r : regex) (s : str) :
  is_match (search r s) = true <->
  exists before w after, s = before ++ w ++ after /\ matches r w.
Proof.
  induction s as [|c s IH].
  - cbn [search]. destruct (run r []) as [|x l] eqn:E.
    + split; [discriminate|]. intros (before & w & after & Es & Hm).
      destruct before; [|discriminate]. destruct w; [|discriminate].
      destruct after; [|discriminate].
      destruct (run_complete r [] Hm []) as (g & Hg). cbn [app] in Hg.
      rewrite E in Hg. destruct Hg.
    + split; [intros _|reflexivity].
      destruct (run_sound r [] x) as (w & Ew & Hm); [rewrite E; now left|].
      exists [], w, (snd x). now split.
  - cbn [search]. destruct (run r (c :: s)) as [|x l] eqn:E.
    + rewrite IH. split.
      * intros (before & w & after & -> & Hm). now exists (c :: before), w, after.
      * intros (before & w & after & Es & Hm). destruct before as [|c' before].
        -- cbn [app] in Es. destruct (run_complete r w Hm after) as (g & Hg).
           rewrite <- Es, E in Hg. destruct Hg.
        -- injection Es as _ ->. now exists before, w, after.
    + split; [intros _|reflexivity].
      destruct (run_sound r (c :: s) x) as (w & Ew & Hm); [rewrite E; now left|].
      exists [], w, (snd x). now split.
Qed.

Lemma matches_Chr_iff (c : N) (w : str) : matches (Chr c) w <-> w = [c].
Proof.
  split; [intros H; now inversion H | intros ->; constructor].
Qed.

Lemma matches_Cls_iff (p : N -> bool) (w : str) :
  matches (Cls p) w <-> exists c, w = [c] /\ p c = true.
Proof.
  split.
  - intros H. inversion H; subst. now exists c.
  - intros (c & -> & Hp). now constructor.
Qed.

Lemma matches_Cat_iff (r1 r2 : regex) (w : str) :
  matches (Cat r1 r2) w <->
  exists w1 w2, w = w1 ++ w2 /\ matches r1 w1 /\ matches r2 w2.
Proof.
  split.
  - intros H. inversion H; subst. now exists w1, w2.
  - intros (w1 & w2 & -> & H1 & H2). now constructor.
Qed.

Lemma matches_Opt_iff (r : regex) (w : str) :
  matches (Opt r) w <-> w = [] \/ matches r w.
Proof.
  split.
  - intros H. inversion H; subst; [now left | now right].
  - intros [->|H]; [constructor | now constructor].
Qed.

Lemma matches_lit_from (cs w : str) : matches (lit_from cs) w <-> w = cs.
Proof.
  revert w. induction cs as [|c cs IH]; intros w; cbn [lit_from].
  - split; [intros H; now inversion H | intros ->; constructor].
  - rewrite matches_Cat_iff. split.
    + intros (w1 & w2 & -> & H1 & H2).
      apply matches_Chr_iff in H1. apply IH in H2. now subst.
    + intros ->. exists [c], cs. split; [reflexivity|].
      split; [constructor | now apply IH].
Qed.

Lemma matches_Star_Chr (c : N) (w : str) :
  matches (Star (Chr c)) w <-> exists n, w = repeat c n.
Proof.
  split.
  - intros H. remember (Star (Chr c)) as r eqn:Er.
    induction H as [| | | | | | |r0 w1 w2 H1 _ _ IH2| | |]; try discriminate.
    + now exists 0.
    + injection Er as ->. apply matches_Chr_iff in H1. subst w1.
      destruct (IH2 eq_refl) as (n & ->). now exists (S n).
  - intros (n & ->). induction n as [|n IH]; [constructor|].
    change (repeat c (S n)) with ([c] ++ repeat c n).
    constructor; [constructor | exact IH].
Qed.

Lemma matches_Star_Cls (p : N -> bool) (w : str) :
  matches (Star (Cls p)) w <-> forallb p w = true.
Proof.
  split.
  - intros H. remember (Star (Cls p)) as r eqn:Er.
    induction H as [| | | | | | |r0 w1 w2 H1 _ _ IH2| | |]; try discriminate.
    + reflexivity.
    + injection Er as ->. apply matches_Cls_iff in H1.
      destruct H1 as (c & -> & Hp). cbn [app forallb]. now rewrite Hp, IH2.
  - induction w as [|c w IH]; intros H; [constructor|].
    cbn [forallb] in H. apply andb_true_iff in H. destruct H as [Hp Hw].
    change (c :: w) with ([c] ++ w).
    constructor; [now constructor | now apply IH].
Qed.

Lemma length_minus_4 (A : Type) (a b c d : A) (t : list A) :
  List.length (a :: b :: c :: d :: t) - List.length t = 4.
Proof.
  cbn [List.length]. lia.
Qed.

(** What [(\d{4})] does at the start of a text. *)
Lemma run_four_digits (s : str) :
  run four_digits s =
  match s with
  | a :: b :: c :: d :: t =>
      if is_decimal a && is_decimal b && is_decimal c && is_decimal d
      then [([[a; b; c; d]], t)] else []
  | _ => []
  end.
Proof.
  unfold four_digits.
  destruct s as [|a [|b [|c [|d t]]]]; cbn [run rep and_then flat_map map app fst snd].
  - reflexivity.
  - destruct (is_decimal a); reflexivity.
  - destruct (is_decimal a); cbn; [destruct (is_decimal b)|]; reflexivity.
  - destruct (is_decimal a); cbn; [destruct (is_decimal b); cbn; [destruct (is_decimal c)|]|];
      reflexivity.
  - destruct (is_decimal a); cbn [map app flat_map fst snd andb]; [|reflexivity].
    destruct (is_decimal b); cbn [map app flat_map fst snd andb]; [|reflexivity].
    destruct (is_decimal c); cbn [map app flat_map fst snd andb]; [|reflexivity].
    destruct (is_decimal d); cbn [map app flat_map fst snd andb]; [|reflexivity].
    rewrite length_minus_4. reflexivity.
Qed.


(** ** The date extractor *)

Lemma py_int_four (a b c d da db dc dd : N) :
  decimal_value a = Some da -> decimal_value b = Some db ->
  decimal_value c = Some dc -> decimal_value d = Some dd ->
  py_int [a; b; c; d] = Ret (Z.of_N (1000 * da + 100 * db + 10 * dc + dd)).
Proof.
  intros Ha Hb Hc Hd. unfold py_int, digits_value.
  rewrite Ha, Hb, Hc, Hd. do 2 f_equal. lia.
Qed.

Lemma first_four_digit_number_step (a b c d : N) (t : str) :
  first_four_digit_number (a :: b :: c :: d :: t) =
  match decimal_value a, decimal_value b, decimal_value c, decimal_value d with
  | Some da, Some db, Some dc, Some dd =>
      Some (Z.of_N (1000 * da + 100 * db + 10 * dc + dd))
  | _, _, _, _ => first_four_digit_number (b :: c :: d :: t)
  end.
Proof.
  reflexivity.
Qed.

(** The first pattern finds the first four consecutive digits, and nothing
    when there are none. *)
Lemma search_four_digits (s : str) :
  match search four_digits s with
  | Some m =>
      exists a b c d da db dc dd,
        nth_error m 1 = Some [a; b; c; d] /\
        decimal_value a = Some da /\ decimal_value b = Some db /\
        decimal_value c = Some dc /\ decimal_value d = Some dd /\
        first_four_digit_number s
        = Some (Z.of_N (1000 * da + 100 * db + 10 * dc + dd))
  | None => first_four_digit_number s = None
  end.
Proof.
  induction s as [|a t IH].
  - reflexivity.
  - cbn [search]. rewrite run_four_digits.
    destruct t as [|b [|c [|d t']]]; try exact IH.
    rewrite first_four_digit_number_step. unfold is_decimal.
    destruct (decimal_value a) as [da|] eqn:Ha; [|exact IH].
    destruct (decimal_value b) as [db|] eqn:Hb; [|exact IH].
    destruct (decimal_value c) as [dc|] eqn:Hc; [|exact IH].
    destruct (decimal_value d) as [dd|] eqn:Hd; [|exact IH].
    cbn [andb fst snd nth_error].
    exists a, b, c, d, da, db, dc, dd. repeat split; assumption.
Qed.

Lemma try_patterns_first (ps : list regex) (s : str) :
  is_match (search four_digits s) = true ->
  try_patterns (four_digits :: ps) s = Ret (first_four_digit_number s).
Proof.
  intros Hm. cbn [try_patterns].
  pose proof (search_four_digits s) as H.
  destruct (search four_digits s) as [m|]; [|discriminate].
  destruct H as (a & b & c & d & da & db & dc & dd & Hg & Ha & Hb & Hc & Hd & Hn).
  unfold group. rewrite Hg. cbn [obind].
  rewrite (py_int_four _ _ _ _ _ _ _ _ Ha Hb Hc Hd). cbn [obind]. rewrite Hn. reflexivity.
Qed.

(** Each later pattern starts with the first one. *)
Lemma later_pattern_needs_first (pattern : regex) (s : str) :
  In pattern (tl year_patterns) ->
  search four_digits s = None -> search pattern s = None.
Proof.
  intros Hin. apply search_weaken. intros s'.
  cbn in Hin. destruct Hin as [<-|[<-|[<-|[]]]]; apply run_Cat_nil.
Qed.

Lemma try_patterns_none (ps : list regex) (s : str) :
  (forall pattern, In pattern ps -> search pattern s = None) ->
  try_patterns ps s = Ret None.
Proof.
  induction ps as [|p ps IH]; intros H; cbn [try_patterns].
  - reflexivity.
  - rewrite (H p (or_introl eq_refl)). apply IH. intros q Hq. apply H. now right.
Qed.

Lemma try_year_patterns (s : str) :
  try_patterns year_patterns s = Ret (first_four_digit_number s).
Proof.
  destruct (search four_digits s) as [m|] eqn:E.
  - apply try_patterns_first. rewrite E. reflexivity.
  - pose proof (search_four_digits s) as H. rewrite E in H. rewrite H.
    apply try_patterns_none. intros pattern [<-|Hin]; [exact E|].
    now apply later_pattern_needs_first.
Qed.

Lemma extract_years_simple (date_str : value) :
  extract_years date_str = Ret (simple_year date_str).
Proof.
  unfold extract_years, simple_year.
  destruct (isna date_str); [reflexivity | apply try_year_patterns].
Qed.

(** C2. The year extractor returns absent for a null input and for an input
    in which no pattern matches; otherwise it returns, as an integer, the
    four digits captured by the first pattern of the list that matches.
    "1990", "1990-1992", "1990–1992" (en dash) and "1990, summer" give 1990;
    "unknown" and null give absent. *)
Theorem extract_years_returns_first_captured_year :
  (forall date_str, isna date_str = true -> extract_years date_str = Ret None) /\
  (forall date_str,
      isna date_str = false ->
      (forall pattern, In pattern year_patterns ->
                       search pattern (py_str date_str) = None) ->
      extract_years date_str = Ret None) /\
  (forall date_str before pattern after m,
      isna date_str = false ->
      year_patterns = before ++ pattern :: after ->
      (forall q, In q before -> search q (py_str date_str) = None) ->
      search pattern (py_str date_str) = Some m ->
      exists a b c d y,
        group m 1 = Ret [a; b; c; d] /\
        forallb is_decimal [a; b; c; d] = true /\
        py_int [a; b; c; d] = Ret y /\
        extract_years date_str = Ret (Some y)) /\
  extract_years (VStr (u "1990")) = Ret (Some 1990%Z) /\
  extract_years (VStr (u "1990-1992")) = Ret (Some 1990%Z) /\
  extract_years (VStr (u "1990" ++ [en_dash] ++ u "1992")) = Ret (Some 1990%Z) /\
  extract_years (VStr (u "1990, summer")) = Ret (Some 1990%Z) /\
  extract_years (VStr (u "unknown")) = Ret None /\
  extract_years VNone = Ret None /\
  extract_years VNaN = Ret None.
Proof.
  split; [|split; [|split]].
  - intros date_str Hna. unfold extract_years. rewrite Hna. reflexivity.
  - intros date_str Hna Hnone. unfold extract_years. rewrite Hna.
    now apply try_patterns_none.
  - intros date_str before pattern after m Hna Hsplit Hbefore Hm.
    assert (Hfirst : search four_digits (py_str date_str) = Some m).
    { destruct before as [|q before].
      - cbn in Hsplit. injection Hsplit as <- _. exact Hm.
      - cbn in Hsplit. injection Hsplit as <- Htl.
        assert (Hin : In pattern (tl year_patterns)).
        { cbn [tl year_patterns]. fold four_digits. rewrite Htl.
          apply in_or_app. right. now left. }
        rewrite (later_pattern_needs_first _ _ Hin) in Hm; [discriminate|].
        apply Hbefore. now left. }
    pose proof (search_four_digits (py_str date_str)) as H.
    rewrite Hfirst in H.
    destruct H as (a & b & c & d & da & db & dc & dd & Hg & Ha & Hb & Hc & Hd & Hn).
    exists a, b, c, d, (Z.of_N (1000 * da + 100 * db + 10 * dc + dd)).
    split; [unfold group; rewrite Hg; reflexivity|].
    split.
    { cbn [forallb]. unfold is_decimal. rewrite Ha, Hb, Hc, Hd. reflexivity. }
    split; [now apply py_int_four|].
    rewrite extract_years_simple. unfold simple_year. rewrite Hna, Hn. reflexivity.
  - repeat split; vm_compute; reflexivity.
Qed.

(** C10. For every input the year extractor returns what the simpler
    function returns: the integer written by the first four consecutive
    digits of the input's text, absent for a null input or a text without
    four consecutive digits.  The second, third and fourth patterns never
    decide the result: wherever one of them matches, the first one matches,
    and leaving them out changes nothing. *)
Theorem extract_years_is_first_four_digits :
  (forall date_str, extract_years date_str = Ret (simple_year date_str)) /\
  (forall pattern s,
      In pattern (tl year_patterns) ->
      is_match (search pattern s) = true ->
      is_match (search (hd Eps year_patterns) s) = true) /\
  (forall date_str,
      extract_years date_str
      = if isna date_str then Ret None
        else try_patterns [hd Eps year_patterns] (py_str date_str)).
Proof.
  split; [exact extract_years_simple|split].
  - intros pattern s Hin Hm. cbn [hd year_patterns].
    destruct (search four_digits s) eqn:E; [reflexivity|].
    rewrite (later_pattern_needs_first _ _ Hin E) in Hm. discriminate.
  - intros date_str. unfold extract_years.
    destruct (isna date_str); [reflexivity|].
    rewrite try_year_patterns. cbn [hd year_patterns].
    destruct (is_match (search four_digits (py_str date_str))) eqn:E.
    + symmetry. now apply try_patterns_first.
    + pose proof (search_four_digits (py_str date_str)) as H.
      destruct (search four_digits (py_str date_str)) eqn:E';
        [discriminate|].
      rewrite H. symmetry. apply try_patterns_none.
      intros q [<-|[]]. exact E'.
Qed.

(** ** The matcher *)

(** The four patterns match exactly the texts of [trex_token]. *)
Lemma patterns_trex_token (w : str) :
  (exists pattern, In pattern patterns /\ matches pattern w) <-> trex_token w.
Proof.
  unfold trex_token, patterns, lit. split.
  - intros (pattern & Hin & Hm).
    destruct Hin as [<-|[<-|[<-|[<-|[]]]]].
    + apply matches_Cat_iff in Hm. destruct Hm as (w1 & w2 & -> & H1 & H2).
      apply matches_Chr_iff in H1. subst w1.
      apply matches_Cat_iff in H2. destruct H2 as (w3 & w4 & -> & H3 & H4).
      apply matches_lit_from in H4. subst w4.
      apply matches_Opt_iff in H3. destruct H3 as [->|H3]; [now left|].
      apply matches_Cls_iff in H3. destruct H3 as (c & -> & Hc).
      right. left. exists c. split; [|reflexivity].
      apply orb_true_iff in Hc. destruct Hc as [Hc|Hc]; [left|now right].
      now apply N.eqb_eq.
    + apply matches_lit_from in Hm. tauto.
    + apply matches_Cat_iff in Hm. destruct Hm as (w1 & w2 & -> & H1 & H2).
      apply matches_Chr_iff in H1. subst w1.
      apply matches_Cat_iff in H2. destruct H2 as (w3 & w4 & -> & H3 & H4).
      apply matches_Star_Chr in H3. destruct H3 as (n & ->).
      apply matches_Cat_iff in H4. destruct H4 as (w5 & w6 & -> & H5 & H6).
      apply matches_Star_Cls in H5. apply matches_lit_from in H6. subst w6.
      right. right. right. left. now exists n, w5.
    + apply matches_lit_from in Hm. tauto.
  - intros [-> | [(c & Hc & ->) | [-> | [(n & blanks & Hb & ->) | ->]]]].
    + eexists. split; [left; reflexivity|].
      change (u "trex") with ([116%N] ++ [] ++ u "rex").
      constructor; [constructor|]. constructor; [constructor|].
      now apply matches_lit_from.
    + eexists. split; [left; reflexivity|].
      change (u "t") with [116%N].
      constructor; [constructor|]. constructor; [|now apply matches_lit_from].
      apply matches_Opt_some, matches_Cls. apply orb_true_iff.
      destruct Hc as [->|Hc]; [now left | now right].
    + eexists. split; [right; left; reflexivity|]. now apply matches_lit_from.
    + eexists. split; [right; right; left; reflexivity|].
      change (u "t") with [116%N].
      constructor; [constructor|]. constructor; [apply matches_Star_Chr; now exists n|].
      constructor; [now apply matches_Star_Cls | now apply matches_lit_from].
    + eexists. split; [right; right; right; left; reflexivity|].
      now apply matches_lit_from.
Qed.

(** C4. The match predicate is false on every value that is not text; on a
    text it is true exactly when one of the four patterns is found in the
    lower-cased text.  "Tyrannosaurus rex" and "T-Rex" match, "Triceratops"
    does not. *)
Theorem contains_trex_iff_some_pattern :
  (forall text, (forall s, text <> VStr s) -> contains_trex text = false) /\
  (forall s,
      contains_trex (VStr s) = true <->
      exists pattern,
        In pattern patterns /\ is_match (search pattern (lower s)) = true) /\
  (forall s,
      contains_trex (VStr s) = true <->
      exists before w after, lower s = before ++ w ++ after /\ trex_token w) /\
  List.length patterns = 4 /\
  contains_trex (VStr (u "Tyrannosaurus rex")) = true /\
  contains_trex (VStr (u "T-Rex")) = true /\
  contains_trex (VStr (u "Triceratops")) = false.
Proof.
  split; [|split; [|split]].
  - intros text Hnot. destruct text as [| |s|t]; try reflexivity.
    now destruct (Hnot s).
  - intros s. cbn [contains_trex]. apply existsb_exists.
  - intros s. cbn [contains_trex]. rewrite existsb_exists. split.
    + intros (pattern & Hin & Hm). apply search_matches in Hm.
      destruct Hm as (before & w & after & E & Hm).
      exists before, w, after. split; [exact E|].
      apply patterns_trex_token. now exists pattern.
    + intros (before & w & after & E & Hw). apply patterns_trex_token in Hw.
      destruct Hw as (pattern & Hin & Hm). exists pattern. split; [exact Hin|].
      apply search_matches. now exists before, w, after.
  - repeat split; vm_compute; reflexivity.
Qed.

(** ** The loader *)

Lemma scan_header_found (metadata : list str) (header : str) (data : list str) :
  (forall line, In line metadata -> startswith header_token line = false) ->
  startswith header_token header = true ->
  forall i default,
    scan_header i (metadata ++ header :: data) default = i + List.length metadata.
Proof.
  intros Hmeta Hheader. induction metadata as [|line metadata IH]; intros i default.
  - cbn [app scan_header List.length]. rewrite Hheader. lia.
  - cbn [app scan_header List.length].
    rewrite (Hmeta line (or_introl eq_refl)).
    rewrite IH; [lia|]. intros l Hl. apply Hmeta. now right.
Qed.

Lemma scan_header_default (lines : list str) :
  (forall line, In line lines -> startswith header_token line = false) ->
  forall i default, scan_header i lines default = default.
Proof.
  induction lines as [|line lines IH]; intros Hnone i default.
  - reflexivity.
  - cbn [scan_header]. rewrite (Hnone line (or_introl eq_refl)).
    apply IH. intros l Hl. apply Hnone. now right.
Qed.

Lemma skipn_length_app (A : Type) (l1 l2 : list A) :
  skipn (List.length l1) (l1 ++ l2) = l2.
Proof.
  induction l1 as [|x l1 IH]; [reflexivity | exact IH].
Qed.

Lemma load_with_outcome (reader : nat -> list str -> outcome DataFrame)
    (lines : list str) :
  snd (load_with reader lines) = reader (header_row lines) lines.
Proof.
  unfold load_with, find_header_row, bind, log, ret, lift. cbn [fst snd].
  destruct (reader (header_row lines) lines); reflexivity.
Qed.

(** ** The tokenizer on written lines *)

Lemma tokenize_bytes_app (k : nat) (p : parser_t) (a b : str) :
  tokenize_bytes k p (a ++ b) = tokenize_bytes k (tokenize_bytes k p a) b.
Proof.
  apply fold_left_app.
Qed.

Lemma bare_char_inv (c : N) :
  bare_char c = true ->
  N.eqb c 10 = false /\ N.eqb c 13 = false /\ N.eqb c 34 = false /\
  N.eqb c 44 = false /\ N.eqb c 65279 = false.
Proof.
  unfold bare_char. rewrite negb_true_iff, !orb_false_iff. tauto.
Qed.

Lemma in_quoted_field_text (k n : nat) (ws : list str) (t : list (list str)) (s : str) :
  forall w,
    tokenize_bytes k (reading IN_QUOTED_FIELD n w ws t) (double_quotes s)
    = reading IN_QUOTED_FIELD n (rev s ++ w) ws t.
Proof.
  induction s as [|c s IH]; intros w; [reflexivity|].
  cbn [double_quotes rev]. rewrite <- app_assoc. cbn [app].
  destruct (N.eqb c 34) eqn:E.
  - apply N.eqb_eq in E. subst c. exact (IH (34%N :: w)).
  - cbn [tokenize_bytes fold_left]. unfold tokenize_char at 2.
    cbn [error_msg state reading]. rewrite E. exact (IH (c :: w)).
Qed.

Lemma in_field_text (k n : nat) (ws : list str) (t : list (list str)) (s : str) :
  forallb bare_char s = true ->
  forall w,
    tokenize_bytes k (reading IN_FIELD n w ws t) s
    = reading IN_FIELD n (rev s ++ w) ws t.
Proof.
  induction s as [|c s IH]; intros Hs w; [reflexivity|].
  cbn [forallb] in Hs. apply andb_true_iff in Hs. destruct Hs as [Hc Hs].
  apply bare_char_inv in Hc. destruct Hc as (H10 & H13 & _ & H44 & _).
  cbn [rev]. rewrite <- app_assoc. cbn [app tokenize_bytes fold_left].
  unfold tokenize_char at 2. cbn [error_msg state reading]. unfold in_field.
  rewrite H10, H13, H44. exact (IH Hs (c :: w)).
Qed.

(** A field and the comma after it. *)
Lemma field_and_comma (k n : nat) (ws : list str) (t : list (list str)) (c : cell) :
  cell_ok c = true ->
  tokenize_bytes k (reading START_FIELD n [] ws t) (write_cell c ++ [44%N])
  = reading START_FIELD n [] (cell_text c :: ws) t.
Proof.
  intros Hok. destruct c as [s|s]; cbn [write_cell cell_text cell_ok] in *.
  - destruct s as [|a s]; [reflexivity|].
    cbn [forallb] in Hok. apply andb_true_iff in Hok. destruct Hok as [Ha Hs].
    apply bare_char_inv in Ha. destruct Ha as (H10 & H13 & H34 & H44 & _).
    cbn [app tokenize_bytes fold_left]. unfold tokenize_char at 2.
    cbn [error_msg state reading]. unfold start_field. rewrite H10, H13, H34, H44.
    change (fold_left (tokenize_char k) (s ++ [44%N]) ?p)
      with (tokenize_bytes k p (s ++ [44%N])).
    rewrite tokenize_bytes_app.
    change (set_state IN_FIELD (push_char a (reading START_FIELD n [] ws t)))
      with (reading IN_FIELD n [a] ws t).
    rewrite (in_field_text k n ws t s Hs). cbn [tokenize_bytes fold_left].
    unfold tokenize_char, in_field, set_state, end_field, reading.
    cbn [error_msg state stream words file_lines table N.eqb Pos.eqb].
    rewrite rev_app_distr, rev_involutive. reflexivity.
  - unfold dquote. cbn [app tokenize_bytes fold_left].
    change (fold_left (tokenize_char k) ?x ?p) with (tokenize_bytes k p x).
    change (tokenize_char k (reading START_FIELD n [] ws t) 34)
      with (reading IN_QUOTED_FIELD n [] ws t).
    rewrite <- app_assoc, tokenize_bytes_app, in_quoted_field_text.
    cbn [tokenize_bytes fold_left app].
    unfold tokenize_char, in_field, set_state, end_field, reading.
    cbn [error_msg state stream words file_lines table N.eqb Pos.eqb].
    rewrite app_nil_r, rev_involutive. reflexivity.
Qed.

(** A field and the end of its line. *)
Lemma field_and_newline (k n : nat) (ws : list str) (t : list (list str)) (c : cell) :
  cell_ok c = true ->
  tokenize_bytes k (reading START_FIELD n [] ws t) (write_cell c ++ nl)
  = end_line (reading START_FIELD n [] (cell_text c :: ws) t).
Proof.
  intros Hok. destruct c as [s|s]; cbn [write_cell cell_text cell_ok] in *.
  - destruct s as [|a s]; [reflexivity|].
    cbn [forallb] in Hok. apply andb_true_iff in Hok. destruct Hok as [Ha Hs].
    apply bare_char_inv in Ha. destruct Ha as (H10 & H13 & H34 & H44 & _).
    cbn [app tokenize_bytes fold_left]. unfold tokenize_char at 2.
    cbn [error_msg state reading]. unfold start_field. rewrite H10, H13, H34, H44.
    change (fold_left (tokenize_char k) (s ++ nl) ?p)
      with (tokenize_bytes k p (s ++ nl)).
    rewrite tokenize_bytes_app.
    change (set_state IN_FIELD (push_char a (reading START_FIELD n [] ws t)))
      with (reading IN_FIELD n [a] ws t).
    rewrite (in_field_text k n ws t s Hs). unfold nl. cbn [tokenize_bytes fold_left].
    unfold tokenize_char, in_field, end_field, reading.
    cbn [error_msg state stream words file_lines table N.eqb Pos.eqb].
    rewrite rev_app_distr, rev_involutive. reflexivity.
  - unfold dquote, nl. cbn [app tokenize_bytes fold_left].
    change (fold_left (tokenize_char k) ?x ?p) with (tokenize_bytes k p x).
    change (tokenize_char k (reading START_FIELD n [] ws t) 34)
      with (reading IN_QUOTED_FIELD n [] ws t).
    rewrite <- app_assoc, tokenize_bytes_app, in_quoted_field_text.
    cbn [tokenize_bytes fold_left app].
    unfold tokenize_char, in_field, set_state, end_field, reading.
    cbn [error_msg state stream words file_lines table N.eqb Pos.eqb].
    rewrite app_nil_r, rev_involutive. reflexivity.
Qed.

Lemma write_line_cons (c c' : cell) (cs : list cell) :
  write_line (c :: c' :: cs) = (write_cell c ++ [44%N]) ++ write_line (c' :: cs).
Proof.
  unfold write_line. cbn [write_cells]. rewrite <- !app_assoc. reflexivity.
Qed.

(** The fields of a line from its first field on. *)
Lemma fields_of_line (k n : nat) (t : list (list str)) (cs : list cell) :
  cs <> [] ->
  forallb cell_ok cs = true ->
  forall ws,
    tokenize_bytes k (reading START_FIELD n [] ws t) (write_line cs)
    = end_line (reading START_FIELD n [] (rev (map cell_text cs) ++ ws) t).
Proof.
  induction cs as [|c cs IH]; intros Hne Hok ws; [contradiction|].
  cbn [forallb] in Hok. apply andb_true_iff in Hok. destruct Hok as [Hc Hcs].
  destruct cs as [|c' cs].
  - exact (field_and_newline k n ws t c Hc).
  - rewrite write_line_cons, tokenize_bytes_app, (field_and_comma k n ws t c Hc).
    rewrite (IH ltac:(discriminate) Hcs).
    cbn [map rev]. now rewrite <- !app_assoc.
Qed.

(** A line that begins with blanks and is not blank is read as a field. *)
Lemma whitespace_line_field (k n : nat) (t : list (list str)) (s : str) (c : N) (rest : str) :
  forallb bare_char s = true ->
  forallb is_blank s = false \/ c = 44%N ->
  forall w,
    tokenize_bytes k (reading WHITESPACE_LINE n w [] t) (s ++ c :: rest)
    = tokenize_bytes k (reading IN_FIELD n w [] t) (s ++ c :: rest).
Proof.
  induction s as [|a s IH]; intros Hs Hend w.
  - destruct Hend as [Hend| ->]; [discriminate|]. reflexivity.
  - cbn [forallb] in Hs, Hend. apply andb_true_iff in Hs. destruct Hs as [Ha Hs].
    apply bare_char_inv in Ha. destruct Ha as (H10 & H13 & _ & H44 & _).
    cbn [app tokenize_bytes fold_left]. unfold tokenize_char at 2 4.
    cbn [error_msg state reading]. unfold in_field. rewrite H10, H13, H44.
    destruct (is_blank a) eqn:Hblank; [|reflexivity].
    cbn [andb] in Hend. exact (IH Hs Hend (a :: w)).
Qed.

Lemma is_blank_inv (c : N) :
  is_blank c = false -> N.eqb c 32 = false /\ N.eqb c 9 = false.
Proof.
  unfold is_blank. now rewrite orb_false_iff.
Qed.

(** A line that is not blank is read from its first field on. *)
Lemma start_of_line (k n : nat) (t : list (list str)) (cs : list cell) :
  k <= n ->
  forallb cell_ok cs = true ->
  blank_record cs = false ->
  tokenize_bytes k (between_lines n t) (write_line cs)
  = tokenize_bytes k (reading START_FIELD n [] [] t) (write_line cs).
Proof.
  intros Hk Hok Hblank.
  assert (Hskip : Nat.ltb n k = false) by (apply Nat.ltb_ge; exact Hk).
  destruct cs as [|c cs]; [discriminate|].
  cbn [forallb] in Hok. apply andb_true_iff in Hok. destruct Hok as [Hc _].
  assert (Hline : exists text, write_line (c :: cs) = write_cell c ++ text
                               /\ (cs = [] -> text = nl)
                               /\ (cs <> [] -> exists rest, text = 44%N :: rest)).
  { destruct cs as [|c' cs].
    - exists nl. split; [reflexivity|]. split; [reflexivity|]. contradiction.
    - exists (44%N :: write_line (c' :: cs)). split.
      + rewrite write_line_cons, <- app_assoc. reflexivity.
      + split; [discriminate|]. intros _. now eexists. }
  destruct Hline as (text & -> & Hlast & Hmore).
  destruct c as [s|s]; cbn [write_cell cell_ok] in *.
  - destruct s as [|a s].
    + destruct cs as [|c' cs]; [discriminate|].
      destruct (Hmore ltac:(discriminate)) as (rest & ->).
      cbn [app tokenize_bytes fold_left]. unfold tokenize_char at 2 4.
      cbn [error_msg state between_lines reading]. unfold start_record.
      cbn [file_lines between_lines]. rewrite Hskip. reflexivity.
    + cbn [forallb] in Hc. apply andb_true_iff in Hc. destruct Hc as [Ha Hs].
      pose proof (bare_char_inv a Ha) as (H10 & H13 & H34 & H44 & _).
      cbn [app tokenize_bytes fold_left]. unfold tokenize_char at 2 4.
      cbn [error_msg state between_lines reading]. unfold start_record.
      cbn [file_lines between_lines]. rewrite Hskip, H10, H13.
      destruct (is_blank a) eqn:Ea; [|reflexivity].
      unfold start_field. rewrite H10, H13, H34, H44.
      change (fold_left (tokenize_char k) ?x ?p) with (tokenize_bytes k p x).
      change (set_state WHITESPACE_LINE (push_char a (between_lines n t)))
        with (reading WHITESPACE_LINE n [a] [] t).
      change (set_state IN_FIELD (push_char a (reading START_FIELD n [] [] t)))
        with (reading IN_FIELD n [a] [] t).
      destruct cs as [|c' cs].
      * rewrite (Hlast eq_refl). unfold nl.
        apply whitespace_line_field; [exact Hs|]. left.
        cbn [blank_record forallb] in Hblank. rewrite Ea in Hblank. exact Hblank.
      * destruct (Hmore ltac:(discriminate)) as (rest & ->).
        apply whitespace_line_field; [exact Hs|]. now right.
  - unfold dquote. cbn [app tokenize_bytes fold_left]. unfold tokenize_char at 2 4.
    cbn [error_msg state between_lines reading]. unfold start_record.
    cbn [file_lines between_lines]. rewrite Hskip. reflexivity.
Qed.

(** One line of the table. *)
Lemma line_of_table (k n : nat) (t : list (list str)) (cs : list cell) :
  k <= n ->
  forallb cell_ok cs = true ->
  blank_record cs = false ->
  tokenize_bytes k (between_lines n t) (write_line cs)
  = end_line (reading START_FIELD n [] (rev (map cell_text cs)) t).
Proof.
  intros Hk Hok Hblank. rewrite (start_of_line k n t cs Hk Hok Hblank).
  rewrite (fields_of_line k n t cs); [now rewrite app_nil_r| |exact Hok].
  intros ->. discriminate.
Qed.

(** A skipped line without quotes ends at its end. *)
Lemma tokenize_bytes_cons (k : nat) (p : parser_t) (c : N) (s : str) :
  tokenize_bytes k p (c :: s) = tokenize_bytes k (tokenize_char k p c) s.
Proof.
  reflexivity.
Qed.

Lemma rest_of_skipped_line (k n : nat) (t : list (list str)) (l : str) :
  plain_line l = true ->
  tokenize_bytes k (reading IN_FIELD_IN_SKIP_LINE n [] [] t) l = between_lines (S n) t /\
  tokenize_bytes k (reading START_FIELD_IN_SKIP_LINE n [] [] t) l = between_lines (S n) t.
Proof.
  induction l as [|c l IH]; intros Hl; [discriminate|].
  cbn [plain_line] in Hl. destruct l as [|c' l].
  - apply N.eqb_eq in Hl. subst c. split; reflexivity.
  - apply andb_true_iff in Hl. destruct Hl as [Hc Hl].
    rewrite negb_true_iff, !orb_false_iff in Hc. destruct Hc as ((H10 & H13) & H34).
    destruct (IH Hl) as [IHin IHstart].
    split; rewrite tokenize_bytes_cons; unfold tokenize_char;
      cbn [error_msg state reading]; rewrite H10, H13, ?H34;
      destruct (N.eqb c 44); assumption.
Qed.

Lemma skipped_line (k n : nat) (t : list (list str)) (l : str) :
  n < k ->
  plain_line l = true ->
  tokenize_bytes k (between_lines n t) l = between_lines (S n) t.
Proof.
  intros Hn Hl. apply Nat.ltb_lt in Hn.
  destruct l as [|c l]; [discriminate|].
  cbn [plain_line] in Hl. destruct l as [|c' l].
  - apply N.eqb_eq in Hl. subst c.
    cbn [tokenize_bytes fold_left]. unfold tokenize_char, start_record.
    cbn [error_msg state file_lines between_lines]. rewrite Hn. reflexivity.
  - apply andb_true_iff in Hl. destruct Hl as [Hc Hl].
    rewrite negb_true_iff, !orb_false_iff in Hc. destruct Hc as ((H10 & H13) & H34).
    rewrite tokenize_bytes_cons. unfold tokenize_char, start_record.
    cbn [error_msg state file_lines between_lines]. rewrite Hn, H10, H34.
    exact (proj1 (rest_of_skipped_line k n t (c' :: l) Hl)).
Qed.

(** A skipped line of fields, with or without quotes. *)
Lemma in_quoted_field_in_skip_line (k n : nat) (t : list (list str)) (s : str) :
  tokenize_bytes k (reading IN_QUOTED_FIELD_IN_SKIP_LINE n [] [] t) (double_quotes s)
  = reading IN_QUOTED_FIELD_IN_SKIP_LINE n [] [] t.
Proof.
  induction s as [|c s IH]; [reflexivity|].
  cbn [double_quotes]. destruct (N.eqb c 34) eqn:E.
  - exact IH.
  - rewrite tokenize_bytes_cons. unfold tokenize_char.
    cbn [error_msg state reading]. rewrite E. exact IH.
Qed.

Lemma in_field_in_skip_line (k n : nat) (t : list (list str)) (s : str) :
  forallb bare_char s = true ->
  tokenize_bytes k (reading IN_FIELD_IN_SKIP_LINE n [] [] t) s
  = reading IN_FIELD_IN_SKIP_LINE n [] [] t.
Proof.
  induction s as [|c s IH]; intros Hs; [reflexivity|].
  cbn [forallb] in Hs. apply andb_true_iff in Hs. destruct Hs as [Hc Hs].
  apply bare_char_inv in Hc. destruct Hc as (H10 & H13 & _ & H44 & _).
  rewrite tokenize_bytes_cons. unfold tokenize_char.
  cbn [error_msg state reading]. rewrite H10, H13, H44. exact (IH Hs).
Qed.

(** In a skipped line a field leaves the tokenizer in one of two states,
    from which a comma and the end of the line are taken alike. *)
Lemma skipped_field (k n : nat) (t : list (list str)) (c : cell) :
  cell_ok c = true ->
  c <> Bare [] ->
  exists s,
    (s = IN_FIELD_IN_SKIP_LINE \/ s = QUOTE_IN_QUOTED_FIELD_IN_SKIP_LINE) /\
    (forall text,
        tokenize_bytes k (reading START_FIELD_IN_SKIP_LINE n [] [] t)
                       (write_cell c ++ text)
        = tokenize_bytes k (reading s n [] [] t) text) /\
    (Nat.ltb n k = true ->
     forall text,
       tokenize_bytes k (between_lines n t) (write_cell c ++ text)
       = tokenize_bytes k (reading s n [] [] t) text).
Proof.
  intros Hok Hc. destruct c as [s|s]; cbn [write_cell cell_ok] in *.
  - destruct s as [|a s]; [contradiction|].
    cbn [forallb] in Hok. apply andb_true_iff in Hok. destruct Hok as [Ha Hs].
    apply bare_char_inv in Ha. destruct Ha as (H10 & H13 & H34 & H44 & _).
    exists IN_FIELD_IN_SKIP_LINE. split; [now left|]. split.
    + intros text. cbn [app]. rewrite tokenize_bytes_cons. unfold tokenize_char.
      cbn [error_msg state reading]. rewrite H10, H13, H34, H44.
      rewrite tokenize_bytes_app.
      change (set_state IN_FIELD_IN_SKIP_LINE (reading START_FIELD_IN_SKIP_LINE n [] [] t))
        with (reading IN_FIELD_IN_SKIP_LINE n [] [] t).
      now rewrite (in_field_in_skip_line k n t s Hs).
    + intros Hn text. cbn [app]. rewrite tokenize_bytes_cons.
      unfold tokenize_char, start_record.
      cbn [error_msg state file_lines between_lines]. rewrite Hn, H10, H34.
      rewrite tokenize_bytes_app.
      change (set_state IN_FIELD_IN_SKIP_LINE (between_lines n t))
        with (reading IN_FIELD_IN_SKIP_LINE n [] [] t).
      now rewrite (in_field_in_skip_line k n t s Hs).
  - exists QUOTE_IN_QUOTED_FIELD_IN_SKIP_LINE. split; [now right|].
    assert (Hquoted : forall text,
               tokenize_bytes k (reading IN_QUOTED_FIELD_IN_SKIP_LINE n [] [] t)
                              (double_quotes s ++ dquote ++ text)
               = tokenize_bytes k (reading QUOTE_IN_QUOTED_FIELD_IN_SKIP_LINE n [] [] t)
                                text).
    { intros text. rewrite tokenize_bytes_app, in_quoted_field_in_skip_line.
      reflexivity. }
    split.
    + intros text. rewrite <- !app_assoc. unfold dquote at 1. cbn [app].
      rewrite tokenize_bytes_cons. exact (Hquoted text).
    + intros Hn text. rewrite <- !app_assoc. unfold dquote at 1. cbn [app].
      rewrite tokenize_bytes_cons. unfold tokenize_char, start_record.
      cbn [error_msg state file_lines between_lines]. rewrite Hn.
      exact (Hquoted text).
Qed.

Lemma after_skipped_field (k n : nat) (t : list (list str)) (s : ParserState) :
  s = IN_FIELD_IN_SKIP_LINE \/ s = QUOTE_IN_QUOTED_FIELD_IN_SKIP_LINE ->
  tokenize_bytes k (reading s n [] [] t) nl = between_lines (S n) t /\
  forall text,
    tokenize_bytes k (reading s n [] [] t) (44%N :: text)
    = tokenize_bytes k (reading START_FIELD_IN_SKIP_LINE n [] [] t) text.
Proof.
  intros [-> | ->]; split; reflexivity.
Qed.

Lemma rest_of_skipped_fields (k n : nat) (t : list (list str)) (cs : list cell) :
  forallb cell_ok cs = true ->
  cs <> [] ->
  tokenize_bytes k (reading START_FIELD_IN_SKIP_LINE n [] [] t) (write_line cs)
  = between_lines (S n) t.
Proof.
  induction cs as [|c cs IH]; intros Hok Hne; [contradiction|].
  cbn [forallb] in Hok. apply andb_true_iff in Hok. destruct Hok as [Hc Hcs].
  assert (Hcell : forall text,
             exists s,
               (s = START_FIELD_IN_SKIP_LINE \/ s = IN_FIELD_IN_SKIP_LINE
                \/ s = QUOTE_IN_QUOTED_FIELD_IN_SKIP_LINE) /\
               tokenize_bytes k (reading START_FIELD_IN_SKIP_LINE n [] [] t)
                              (write_cell c ++ text)
               = tokenize_bytes k (reading s n [] [] t) text).
  { intros text. destruct c as [[|a s]|s].
    - exists START_FIELD_IN_SKIP_LINE. split; [now left|reflexivity].
    - destruct (skipped_field k n t (Bare (a :: s)) Hc ltac:(discriminate))
        as (st & Hst & Hfrom & _).
      exists st. split; [tauto|apply Hfrom].
    - destruct (skipped_field k n t (Quoted s) Hc ltac:(discriminate))
        as (st & Hst & Hfrom & _).
      exists st. split; [tauto|apply Hfrom]. }
  assert (Hsep : forall st,
             st = START_FIELD_IN_SKIP_LINE \/ st = IN_FIELD_IN_SKIP_LINE
             \/ st = QUOTE_IN_QUOTED_FIELD_IN_SKIP_LINE ->
             tokenize_bytes k (reading st n [] [] t) nl = between_lines (S n) t /\
             forall text,
               tokenize_bytes k (reading st n [] [] t) (44%N :: text)
               = tokenize_bytes k (reading START_FIELD_IN_SKIP_LINE n [] [] t) text).
  { intros st [-> | [-> | ->]]; split; reflexivity. }
  destruct cs as [|c' cs].
  - unfold write_line. cbn [write_cells].
    destruct (Hcell nl) as (st & Hst & ->). apply (Hsep st Hst).
  - rewrite write_line_cons, <- app_assoc. cbn [app].
    destruct (Hcell (44%N :: write_line (c' :: cs))) as (st & Hst & ->).
    rewrite (proj2 (Hsep st Hst)). apply IH; [exact Hcs|discriminate].
Qed.

Lemma skipped_record (k n : nat) (t : list (list str)) (cs : list cell) :
  n < k ->
  forallb cell_ok cs = true ->
  begins_with_text cs = true ->
  tokenize_bytes k (between_lines n t) (write_line cs) = between_lines (S n) t.
Proof.
  intros Hn Hok Hbegin. apply Nat.ltb_lt in Hn.
  destruct cs as [|c cs]; [discriminate|].
  assert (Hc : c <> Bare []) by (intros ->; discriminate).
  cbn [forallb] in Hok. apply andb_true_iff in Hok. destruct Hok as [Hcell Hcs].
  destruct (skipped_field k n t c Hcell Hc) as (st & Hst & _ & Hfrom).
  destruct (after_skipped_field k n t st Hst) as [Hnl Hcomma].
  destruct cs as [|c' cs].
  - unfold write_line. cbn [write_cells]. rewrite (Hfrom Hn). exact Hnl.
  - rewrite write_line_cons, <- app_assoc. cbn [app].
    rewrite (Hfrom Hn), Hcomma.
    apply rest_of_skipped_fields; [exact Hcs|discriminate].
Qed.

Lemma skipped_one_line (k n : nat) (t : list (list str)) (l : str) :
  n < k ->
  skipped_as_one_line l ->
  tokenize_bytes k (between_lines n t) l = between_lines (S n) t.
Proof.
  intros Hn [Hplain | (cs & -> & Hok & Hbegin)].
  - now apply skipped_line.
  - now apply skipped_record.
Qed.

Lemma skipped_lines (k : nat) (t : list (list str)) (metadata : list str) :
  Forall skipped_as_one_line metadata ->
  forall n,
    n + List.length metadata <= k ->
    tokenize_bytes k (between_lines n t) (List.concat metadata)
    = between_lines (n + List.length metadata) t.
Proof.
  induction metadata as [|l metadata IH]; intros Hplain n Hn.
  - cbn. now rewrite Nat.add_0_r.
  - apply Forall_cons_iff in Hplain. destruct Hplain as [Hl Hrest].
    cbn [List.concat List.length] in *.
    rewrite tokenize_bytes_app, (skipped_one_line k n t l); [|lia|exact Hl].
    rewrite (IH Hrest (S n)); [|lia]. f_equal. lia.
Qed.

Lemma length_fields_of (n : nat) (cs : list cell) :
  List.length cs <= n -> List.length (fields_of n cs) = n.
Proof.
  intros H. unfold fields_of. rewrite length_app, length_map, repeat_length. lia.
Qed.

Lemma record_ok_inv (n : nat) (cs : list cell) :
  record_ok n cs = true ->
  forallb cell_ok cs = true /\ blank_record cs = false /\ List.length cs <= n.
Proof.
  unfold record_ok. rewrite !andb_true_iff, negb_true_iff, Nat.leb_le. tauto.
Qed.

(** The first line that is read. *)
Lemma header_line (k n : nat) (cs : list cell) :
  k <= n ->
  record_ok (List.length cs) cs = true ->
  tokenize_bytes k (between_lines n []) (write_line cs)
  = between_lines (S n) [map cell_text cs].
Proof.
  intros Hk Hok. apply record_ok_inv in Hok. destruct Hok as (Hok & Hblank & _).
  rewrite (line_of_table k n [] cs Hk Hok Hblank).
  unfold end_line, reading, between_lines.
  cbn [state in_skip_line table words List.length Nat.ltb Nat.leb andb
       file_lines error_msg].
  rewrite rev_involutive, Nat.sub_diag. cbn [repeat]. now rewrite app_nil_r.
Qed.

(** The lines after it. *)
Lemma data_lines (k width : nat) (data : list (list cell)) :
  forallb (record_ok width) data = true ->
  forall n previous t,
    k <= n ->
    List.length previous = width ->
    tokenize_bytes k (between_lines n (previous :: t))
                   (List.concat (map write_line data))
    = between_lines (n + List.length data)
                    (rev (map (fields_of width) data) ++ previous :: t).
Proof.
  induction data as [|cs data IH]; intros Hdata n previous t Hk Hwidth.
  - cbn. now rewrite Nat.add_0_r.
  - cbn [forallb] in Hdata. apply andb_true_iff in Hdata.
    destruct Hdata as [Hcs Hdata]. apply record_ok_inv in Hcs.
    destruct Hcs as (Hok & Hblank & Hlen).
    cbn [map List.concat List.length]. rewrite tokenize_bytes_app.
    rewrite (line_of_table k n (previous :: t) cs Hk Hok Hblank).
    unfold end_line, reading.
    cbn [state in_skip_line table words file_lines error_msg].
    rewrite rev_involutive, length_map, Hwidth.
    replace (Nat.ltb width (List.length cs)) with false
      by (symmetry; apply Nat.ltb_ge; exact Hlen).
    rewrite andb_false_r.
    change {| state := START_RECORD; file_lines := S n; stream := []; words := [];
              table := (map cell_text cs ++ repeat [] (width - List.length cs))
                       :: previous :: t;
              error_msg := None |}
      with (between_lines (S n) (fields_of width cs :: previous :: t)).
    rewrite (IH Hdata (S n) (fields_of width cs) (previous :: t));
      [|lia|now apply length_fields_of].
    cbn [map rev]. rewrite <- app_assoc. cbn [app]. f_equal. lia.
Qed.

Lemma first_char_of_line (cs : list cell) :
  forallb cell_ok cs = true ->
  blank_record cs = false ->
  skip_bom (write_line cs) = write_line cs /\ write_line cs <> [].
Proof.
  intros Hok Hblank. destruct cs as [|c cs]; [discriminate|].
  cbn [forallb] in Hok. apply andb_true_iff in Hok. destruct Hok as [Hc _].
  destruct c as [s|s].
  - destruct s as [|a s].
    + destruct cs as [|c' cs]; [discriminate|].
      rewrite write_line_cons. split; [reflexivity|discriminate].
    + cbn [cell_ok forallb] in Hc. apply andb_true_iff in Hc. destruct Hc as [Ha _].
      apply bare_char_inv in Ha. destruct Ha as (_ & _ & _ & _ & Hbom).
      destruct cs as [|c' cs].
      * unfold write_line. cbn [write_cells write_cell app skip_bom].
        rewrite Hbom. split; [reflexivity|discriminate].
      * rewrite write_line_cons. cbn [write_cell app skip_bom].
        rewrite Hbom. split; [reflexivity|discriminate].
  - destruct cs as [|c' cs].
    + split; [reflexivity|discriminate].
    + rewrite write_line_cons. split; [reflexivity|discriminate].
Qed.

Lemma skip_bom_app (a b : str) :
  a <> [] -> skip_bom a = a -> skip_bom (a ++ b) = a ++ b.
Proof.
  destruct a as [|c a]; [contradiction|]. intros _. cbn [skip_bom app].
  destruct (N.eqb c 65279) eqn:E; [|reflexivity].
  intros H. exfalso. apply (f_equal (@List.length N)) in H. cbn in H. lia.
Qed.

Lemma skip_bom_skipped_line (l rest : str) :
  skipped_as_one_line l ->
  exists l', skipped_as_one_line l' /\ skip_bom (l ++ rest) = l' ++ rest.
Proof.
  intros [Hl | (cs & -> & Hok & Hbegin)].
  - destruct l as [|c l]; [discriminate|].
    cbn [app skip_bom]. destruct (N.eqb c 65279) eqn:E.
    + exists l. split; [|reflexivity]. left.
      cbn [plain_line] in Hl. destruct l as [|c' l].
      * apply N.eqb_eq in Hl. apply N.eqb_eq in E. subst c. discriminate.
      * apply andb_true_iff in Hl. tauto.
    + exists (c :: l). split; [now left|reflexivity].
  - exists (write_line cs). split; [right; now exists cs|].
    destruct cs as [|c cs]; [discriminate|].
    cbn [forallb] in Hok. apply andb_true_iff in Hok. destruct Hok as [Hc _].
    assert (Hfirst : exists a text, write_line (c :: cs) = a :: text
                                    /\ N.eqb a 65279 = false).
    { destruct c as [[|a s]|s]; [discriminate| |].
      - cbn [cell_ok forallb] in Hc. apply andb_true_iff in Hc. destruct Hc as [Ha _].
        apply bare_char_inv in Ha. destruct Ha as (_ & _ & _ & _ & Hbom).
        destruct cs as [|c' cs].
        + exists a, (s ++ nl). split; [reflexivity|exact Hbom].
        + exists a, (s ++ 44%N :: write_line (c' :: cs)).
          split; [|exact Hbom]. rewrite write_line_cons.
          cbn [write_cell]. rewrite <- app_assoc. reflexivity.
      - destruct cs as [|c' cs].
        + exists 34%N, ((double_quotes s ++ dquote) ++ nl). split; reflexivity.
        + exists 34%N, ((double_quotes s ++ dquote) ++ 44%N :: write_line (c' :: cs)).
          split; [|reflexivity]. rewrite write_line_cons.
          cbn [write_cell]. unfold dquote at 1. cbn [app].
          rewrite <- !app_assoc. reflexivity. }
    destruct Hfirst as (a & text & -> & Hbom). cbn [app skip_bom].
    now rewrite Hbom.
Qed.

(** A file of lines to skip, a header line and lines of data, all well
    formed, is taken line by line. *)
Theorem tokenize_written_lines
    (metadata : list str) (header : list cell) (data : list (list cell)) :
  Forall skipped_as_one_line metadata ->
  record_ok (List.length header) header = true ->
  forallb (record_ok (List.length header)) data = true ->
  tokenize (List.length metadata)
           (metadata ++ write_line header :: map write_line data)
  = Ret (map cell_text header :: map (fields_of (List.length header)) data).
Proof.
  intros Hmeta Hheader Hdata. unfold tokenize.
  set (k := List.length metadata).
  assert (Hrun : tokenize_bytes k parser_init
                   (skip_bom (List.concat (metadata ++ write_line header
                                                    :: map write_line data)))
                 = between_lines (k + 1 + List.length data)
                     (rev (map (fields_of (List.length header)) data)
                      ++ [map cell_text header])).
  { rewrite concat_app. cbn [List.concat].
    assert (Hfrom : forall text,
               tokenize_bytes k (between_lines k []) (write_line header ++ text)
               = tokenize_bytes k (between_lines (S k) [map cell_text header]) text).
    { intros text. rewrite tokenize_bytes_app, header_line; [reflexivity|lia|exact Hheader]. }
    assert (Hdone : tokenize_bytes k (between_lines (S k) [map cell_text header])
                      (List.concat (map write_line data))
                    = between_lines (k + 1 + List.length data)
                        (rev (map (fields_of (List.length header)) data)
                         ++ [map cell_text header])).
    { rewrite (data_lines k (List.length header) data Hdata (S k));
        [f_equal; lia|lia|apply length_map]. }
    destruct metadata as [|l metadata].
    - cbn [List.concat app]. apply record_ok_inv in Hheader as Hh.
      destruct Hh as (Hok & Hblank & _).
      destruct (first_char_of_line header Hok Hblank) as [Hbom Hne].
      rewrite (skip_bom_app _ _ Hne Hbom).
      change parser_init with (between_lines k []). now rewrite Hfrom.
    - apply Forall_cons_iff in Hmeta.
      destruct Hmeta as [Hl Hmeta]. cbn [List.concat]. rewrite <- app_assoc.
      destruct (skip_bom_skipped_line l
                  (List.concat metadata
                   ++ write_line header ++ List.concat (map write_line data)) Hl)
        as (l' & Hl' & ->).
      change parser_init with (between_lines 0 []).
      rewrite tokenize_bytes_app, (skipped_one_line k 0 [] l');
        [|subst k; cbn; lia|exact Hl'].
      rewrite tokenize_bytes_app, (skipped_lines k [] metadata Hmeta 1);
        [|subst k; cbn; lia].
      replace (1 + List.length metadata) with k by (subst k; reflexivity).
      now rewrite Hfrom. }
  rewrite Hrun. cbn [handle_eof error_msg state between_lines table].
  rewrite rev_app_distr, rev_involutive. reflexivity.
Qed.

(** The reader on such a file. *)
Lemma read_csv_written_lines
    (metadata : list str) (header : list cell) (data : list (list cell)) :
  Forall skipped_as_one_line metadata ->
  record_ok (List.length header) header = true ->
  forallb (record_ok (List.length header)) data = true ->
  exists df,
    read_csv (List.length metadata)
             (metadata ++ write_line header :: map write_line data) = Ret df /\
    columns df = map cell_text header /\
    List.length (rows df) = List.length data.
Proof.
  intros Hmeta Hheader Hdata. unfold read_csv.
  rewrite (tokenize_written_lines metadata header data Hmeta Hheader Hdata).
  eexists. split; [reflexivity|]. cbn [columns rows].
  split; [reflexivity|]. now rewrite !length_map.
Qed.

(** ** The loader on written files *)

(** C3. The loader takes as header the first line that starts with the
    quoted token "occurrence_no": when no line before it starts with the
    token, its line number is the header offset and its fields name the
    columns.  When the lines before it are each skipped as one line and the
    header and the lines after it are well-formed lines of fields, none
    blank and none with more fields than the header, every line after the
    header is a row: with 3 metadata lines the table has (total lines - 4)
    rows.  The header is taken with names that are distinct and not empty,
    since pandas renames the others. *)
Theorem load_header_is_first_token_line
    (metadata : list str) (header : list cell) (data : list (list cell)) :
  (forall line, In line metadata -> startswith header_token line = false) ->
  startswith header_token (write_line header) = true ->
  Forall skipped_as_one_line metadata ->
  record_ok (List.length header) header = true ->
  forallb (record_ok (List.length header)) data = true ->
  NoDup (map cell_text header) ->
  ~ In [] (map cell_text header) ->
  header_row (metadata ++ write_line header :: map write_line data)
  = List.length metadata /\
  exists df,
    snd (load (metadata ++ write_line header :: map write_line data)) = Ret df /\
    columns df = map cell_text header /\
    List.length (rows df) = List.length data /\
    (List.length metadata = 3 ->
     List.length (rows df)
     = List.length (metadata ++ write_line header :: map write_line data) - 4).
Proof.
  intros Hnone Htoken Hmeta Hheader Hdata _ _.
  assert (Hrow : header_row (metadata ++ write_line header :: map write_line data)
                 = List.length metadata).
  { unfold header_row. now rewrite scan_header_found. }
  split; [exact Hrow|].
  destruct (read_csv_written_lines metadata header data Hmeta Hheader Hdata)
    as (df & Hread & Hcols & Hrows).
  exists df. unfold load. rewrite load_with_outcome, Hrow.
  split; [exact Hread|]. split; [exact Hcols|]. split; [exact Hrows|].
  intros H3. rewrite Hrows, length_app. cbn [List.length].
  rewrite length_map. lia.
Qed.

(** C6. When no line starts with the quoted token the header search does
    not raise: the offset keeps its initial value 0, which is logged like a
    found one, and the reader, whatever it is, is given the file from its
    first line.  With pandas' reader the loader then returns a table headed
    by the first line of the file when the file is
    made of well-formed lines of fields, none blank and none with more
    fields than the first; it raises when the reader does, as for a file
    without lines. *)
Theorem load_without_header_defaults_to_zero (lines : list str) :
  (forall line, In line lines -> startswith header_token line = false) ->
  header_row lines = 0 /\
  find_header_row lines = ([Log DEBUG (u "Found header row at line 0")], Ret 0) /\
  (forall reader, snd (load_with reader lines) = reader 0 lines) /\
  (forall header data,
      lines = write_line header :: map write_line data ->
      record_ok (List.length header) header = true ->
      forallb (record_ok (List.length header)) data = true ->
      NoDup (map cell_text header) ->
      ~ In [] (map cell_text header) ->
      exists df,
        snd (load lines) = Ret df /\
        columns df = map cell_text header /\
        List.length (rows df) = List.length data) /\
  (lines = [] ->
   snd (load lines) = Raise (LibraryError (u "No columns to parse from file"))).
Proof.
  intros Hnone.
  assert (Hrow : header_row lines = 0).
  { unfold header_row. now apply scan_header_default. }
  assert (Hload : snd (load lines) = read_csv 0 lines).
  { unfold load. now rewrite load_with_outcome, Hrow. }
  split; [exact Hrow|]. split; [|split; [|split]].
  - unfold find_header_row. rewrite Hrow. reflexivity.
  - intros reader. now rewrite load_with_outcome, Hrow.
  - intros header data -> Hheader Hdata _ _. rewrite Hload.
    exact (read_csv_written_lines [] header data (Forall_nil _) Hheader Hdata).
  - intros ->. rewrite Hload. reflexivity.
Qed.

(** ** The match mask *)

Lemma str_eqb_eq (a b : str) : str_eqb a b = true <-> a = b.
Proof.
  revert b. induction a as [|x a IH]; intros [|y b]; cbn [str_eqb];
    try (split; [discriminate|discriminate]); [split; reflexivity|].
  rewrite andb_true_iff, N.eqb_eq, IH. split.
  - intros [-> ->]. reflexivity.
  - intros E. injection E as -> ->. split; reflexivity.
Qed.

Lemma has_column_In (cols : list str) (key : str) :
  has_column cols key = true <-> In key cols.
Proof.
  unfold has_column. rewrite existsb_exists. split.
  - intros [c [Hin Heq]]. apply str_eqb_eq in Heq. now subst.
  - intros Hin. exists key. split; [exact Hin | now apply str_eqb_eq].
Qed.

Lemma select_present (df : DataFrame) (keys : list str) :
  (forall key, In key keys -> In key (columns df)) ->
  select df keys = Ret {| columns := keys; rows := rows df |}.
Proof.
  intros Hall. unfold select.
  destruct (filter _ keys) as [|missing rest] eqn:E; [reflexivity|].
  assert (Hin : In missing (filter (fun key => negb (has_column (columns df) key)) keys))
    by (rewrite E; now left).
  apply filter_In in Hin. destruct Hin as [Hin Hneg].
  apply Hall, has_column_In in Hin. rewrite Hin in Hneg. discriminate.
Qed.

Lemma nth_map_row (f : row -> bool) (rs : list row) (i : nat) (record : row) :
  nth_error rs i = Some record -> nth i (map f rs) false = f record.
Proof.
  revert i. induction rs as [|r rs IH]; intros [|i] H; try discriminate.
  - injection H as ->. reflexivity.
  - cbn. now apply IH.
Qed.

Lemma any_axis1_row (f : value -> bool) (df : DataFrame) (i : nat) (record : row) :
  nth_error (rows df) i = Some record ->
  nth_error (any_axis1 (List.length (rows df)) (apply_columns f df)) i
  = Some (existsb (fun c => f (record c)) (columns df)).
Proof.
  intros Hrow. unfold any_axis1.
  assert (Hlt : i < List.length (rows df)).
  { apply nth_error_Some. rewrite Hrow. discriminate. }
  rewrite nth_error_map.
  rewrite (nth_error_nth' (seq 0 (List.length (rows df))) 0)
    by (rewrite length_seq; exact Hlt).
  rewrite seq_nth by exact Hlt. cbn [option_map plus]. f_equal.
  unfold apply_columns. induction (columns df) as [|c cs IH]; [reflexivity|].
  cbn [map existsb]. rewrite IH.
  rewrite (nth_map_row (fun r => f (r c)) _ _ _ Hrow). reflexivity.
Qed.

(** C5. For every row of a table that has the candidate columns, the entry
    of the match mask for that row is true if and only if one of the
    candidate columns holds, in that row, a value on which the cell
    predicate is true. *)
Theorem trex_mask_true_iff_some_candidate_matches (df : DataFrame) :
  (forall c, In c taxonomic_columns -> In c (columns df)) ->
  exists mask,
    trex_mask df = Ret mask /\
    List.length mask = List.length (rows df) /\
    forall i record,
      nth_error (rows df) i = Some record ->
      exists b,
        nth_error mask i = Some b /\
        (b = true <->
         exists c, In c taxonomic_columns /\ contains_trex (record c) = true).
Proof.
  intros Hcols. unfold trex_mask.
  rewrite (select_present df taxonomic_columns Hcols). cbn [obind rows columns].
  eexists. split; [reflexivity|]. split.
  - unfold any_axis1. now rewrite length_map, length_seq.
  - intros i record Hrow.
    exists (existsb (fun c => contains_trex (record c)) taxonomic_columns). split.
    + exact (any_axis1_row contains_trex
               {| columns := taxonomic_columns; rows := rows df |} i record Hrow).
    + rewrite existsb_exists. reflexivity.
Qed.

(** ** Computations *)

Lemma bind_Ret {A B} (t : list event) (a : A) (f : A -> M B) :
  bind (t, Ret a) f = (t ++ fst (f a), snd (f a)).
Proof.
  reflexivity.
Qed.

Lemma bind_lift_Ret {A B} (a : A) (f : A -> M B) :
  bind (lift (Ret a)) f = f a.
Proof.
  unfold bind, lift. cbn [fst snd app]. now destruct (f a).
Qed.

Lemma bind_ret {A B} (a : A) (f : A -> M B) :
  bind (ret a) f = f a.
Proof.
  exact (bind_lift_Ret a f).
Qed.

Lemma invoke_ok (c : call) :
  raises W c = None -> invoke c = ([Did c], Ret tt).
Proof.
  intros H. unfold invoke. now rewrite H.
Qed.

(** A [try] whose handler only logs ends normally, whatever its body does. *)
Lemma try_except_log (body : M unit) (msg : exn -> str) :
  snd (try_except body (fun e => log ERROR (msg e))) = Ret tt.
Proof.
  unfold try_except. destruct body as [t [[]|e]]; reflexivity.
Qed.

Lemma try_except_Ret {A} (t : list event) (a : A) (handler : exn -> M A) :
  try_except (t, Ret a) handler = (t, Ret a).
Proof.
  reflexivity.
Qed.

Lemma getitem_present (cols : list str) (record : row) (key : str) :
  In key cols -> getitem cols record key = Ret (record key).
Proof.
  intros H. unfold getitem. apply has_column_In in H. now rewrite H.
Qed.

Lemma bind_eq {A B} (m : M A) (f : A -> M B)
    (t1 t2 : list event) (a : A) (o : outcome B) :
  m = (t1, Ret a) -> f a = (t2, o) -> bind m f = (t1 ++ t2, o).
Proof.
  intros -> Hf. rewrite bind_Ret, Hf. reflexivity.
Qed.


(** One statement of a block: what it does, then the rest of the block. *)
Ltac step tac := cbv beta; eapply bind_eq; [tac|]; cbv beta.

(** ** The map builder *)

Lemma popup_content_present (cols : list str) (record : row) :
  (forall c, In c map_columns -> In c cols) ->
  popup_content cols record = Ret (popup_text record).
Proof.
  intros H. unfold popup_content.
  rewrite !getitem_present by (apply H; cbn; tauto). reflexivity.
Qed.

Lemma py_float_ok (v : value) : float_ok v = true -> py_float v = Ret v.
Proof.
  unfold float_ok. destruct v as [| |s|t]; cbn [py_float]; try reflexivity;
    try discriminate.
  destruct (float_parses W s); [reflexivity|discriminate].
Qed.

(** A row with a null latitude or longitude: nothing happens. *)
Lemma add_marker_skip (cols : list str) (n : nat) (record : row) :
  In lat cols -> In lng cols ->
  has_coordinates record = false ->
  add_marker cols n record = ret n.
Proof.
  intros Hlat Hlng Hno. unfold add_marker, has_coordinates in *.
  rewrite (getitem_present _ _ _ Hlat), bind_lift_Ret.
  destruct (notna (record lat)); [|reflexivity].
  rewrite (getitem_present _ _ _ Hlng), bind_lift_Ret.
  cbn [andb] in Hno. rewrite Hno. reflexivity.
Qed.

Lemma add_marker_valid (cols : list str) (n : nat) (record : row) :
  (forall c, In c map_columns -> In c cols) ->
  (forall c, raises W c = None) ->
  has_coordinates record = true ->
  float_ok (record lat) = true -> float_ok (record lng) = true ->
  add_marker cols n record = ([Did (marker_of record)], Ret (S n)).
Proof.
  intros Hcols Hquiet Hco Hla Hlo. unfold add_marker, has_coordinates in *.
  apply andb_true_iff in Hco. destruct Hco as [Hna Hno].
  assert (Hlat : In lat cols) by (apply Hcols; cbn; tauto).
  assert (Hlng : In lng cols) by (apply Hcols; cbn; tauto).
  rewrite !(getitem_present _ _ _ Hlat), !(getitem_present _ _ _ Hlng).
  rewrite bind_lift_Ret, Hna, bind_lift_Ret, Hno.
  rewrite (popup_content_present _ _ Hcols), bind_lift_Ret.
  cbn [obind]. rewrite (py_float_ok _ Hla), (py_float_ok _ Hlo).
  rewrite !bind_lift_Ret.
  rewrite (invoke_ok _ (Hquiet _)). reflexivity.
Qed.

Lemma for_each_add_marker (cols : list str) (rs : list row) :
  (forall c, In c map_columns -> In c cols) ->
  (forall c, raises W c = None) ->
  (forall record, In record rs -> has_coordinates record = true ->
                  float_ok (record lat) = true /\ float_ok (record lng) = true) ->
  forall n,
    for_each (add_marker cols) rs n
    = (map (fun record => Did (marker_of record)) (filter has_coordinates rs),
       Ret (n + List.length (filter has_coordinates rs))).
Proof.
  intros Hcols Hquiet. induction rs as [|record rs IH]; intros Hfloat n.
  - cbn. now rewrite Nat.add_0_r.
  - cbn [for_each filter].
    assert (IH' := IH (fun r Hr => Hfloat r (or_intror Hr))).
    destruct (has_coordinates record) eqn:Hco.
    + destruct (Hfloat record (or_introl eq_refl) Hco) as [Hla Hlo].
      rewrite (add_marker_valid cols n record Hcols Hquiet Hco Hla Hlo).
      rewrite bind_Ret, IH'. cbn [fst snd map app List.length].
      now rewrite Nat.add_succ_r.
    + rewrite (add_marker_skip cols n record); [|apply Hcols; cbn; tauto..|exact Hco].
      rewrite bind_ret. apply IH'.
Qed.

(** C1 (as amended). The map builder skips each row whose latitude or
    longitude is null without raising; when the columns it reads exist and
    no step fails it then writes the map file, whether or not any row has
    both coordinates: the map gets one marker for each row with both
    coordinates non-null, none when there is no such row. *)
Theorem create_fossil_map_saves_map_of_rows_with_coordinates (records : DataFrame) :
  (forall c, In c map_columns -> In c (columns records)) ->
  (forall c, raises W c = None) ->
  (forall record, In record (rows records) -> has_coordinates record = true ->
                  float_ok (record lat) = true /\ float_ok (record lng) = true) ->
  (forall n record,
      has_coordinates record = false ->
      add_marker (columns records) n record = ([], Ret n)) /\
  create_fossil_map records
  = (Log DEBUG (u "Creating fossil map...")
     :: Did FoliumMap
     :: map (fun record => Did (marker_of record))
            (filter has_coordinates (rows records))
     ++ [ Log DEBUG (u "Added "
                     ++ str_of_nat (List.length (filter has_coordinates (rows records)))
                     ++ u " markers to the map");
          Did (MapSave map_path);
          Log INFO (u "Map saved successfully to " ++ map_path) ],
     Ret tt).
Proof.
  intros Hcols Hquiet Hfloat. split.
  - intros n record Hno. apply add_marker_skip; [apply Hcols; cbn; tauto..|exact Hno].
  - unfold create_fossil_map.
    assert (Hbody : fossil_map_body records
                    = ([Log DEBUG (u "Creating fossil map...")]
                       ++ [Did FoliumMap]
                       ++ map (fun record => Did (marker_of record))
                              (filter has_coordinates (rows records))
                       ++ [Log DEBUG (u "Added "
                             ++ str_of_nat (0 + List.length (filter has_coordinates (rows records)))
                             ++ u " markers to the map")]
                       ++ [Did (MapSave map_path)]
                       ++ [Log INFO (u "Map saved successfully to " ++ map_path)],
                       Ret tt)).
    { unfold fossil_map_body.
      step ltac:(reflexivity).
      step ltac:(apply invoke_ok, Hquiet).
      step ltac:(apply (for_each_add_marker _ _ Hcols Hquiet Hfloat)).
      step ltac:(reflexivity).
      step ltac:(apply invoke_ok, Hquiet).
      reflexivity. }
    rewrite Hbody, try_except_Ret. reflexivity.
Qed.

(** ** The timeline builder *)

Lemma add_year_valid_year (cols : list str) (years : list Z) (record : row) :
  In collection_dates cols ->
  add_year cols years record = ret (years ++ valid_year record).
Proof.
  intros Hcol. unfold add_year, valid_year.
  rewrite (getitem_present _ _ _ Hcol), bind_lift_Ret.
  rewrite extract_years_simple, bind_lift_Ret.
  destruct (simple_year (record collection_dates)) as [y|].
  - destruct (truthy (Some y)); [reflexivity|]. now rewrite app_nil_r.
  - now rewrite app_nil_r.
Qed.

Lemma for_each_add_year (cols : list str) (rs : list row) :
  In collection_dates cols ->
  forall years,
    for_each (add_year cols) rs years = ret (years ++ flat_map valid_year rs).
Proof.
  intros Hcol. induction rs as [|record rs IH]; intros years.
  - cbn. now rewrite app_nil_r.
  - cbn [for_each flat_map]. rewrite (add_year_valid_year _ _ _ Hcol), bind_ret, IH.
    now rewrite app_assoc.
Qed.

Lemma plot_timeline_ok (years : list Z) :
  (forall c, raises W c = None) ->
  plot_timeline years
  = (map Did (plot_calls years)
     ++ [Log INFO (u "Timeline plot saved successfully to " ++ timeline_path)],
     Ret tt).
Proof.
  intros Hquiet. unfold plot_timeline.
  etransitivity.
  - do 9 (step ltac:(apply invoke_ok, Hquiet)). reflexivity.
  - reflexivity.
Qed.

Lemma timeline_body_eq (records : DataFrame) :
  In collection_dates (columns records) ->
  timeline_body records
  = bind (Log DEBUG (u "Creating discovery timeline...")
          :: [Log DEBUG (u "Found "
                ++ str_of_nat (List.length (flat_map valid_year (rows records)))
                ++ u " valid years")],
          Ret tt)
         (fun _ => match flat_map valid_year (rows records) with
                   | [] => log WARNING (u "No valid years found for timeline plot")
                   | _ :: _ => plot_timeline (flat_map valid_year (rows records))
                   end).
Proof.
  intros Hcol. unfold timeline_body.
  rewrite (for_each_add_year _ (rows records) Hcol). cbn [app].
  unfold log at 1. rewrite bind_Ret, bind_ret. unfold log at 1.
  rewrite !bind_Ret. cbn [app fst snd]. reflexivity.
Qed.

Lemma valid_year_nil (record : row) :
  extract_years (record collection_dates) = Ret None -> valid_year record = [].
Proof.
  intros H. unfold valid_year. now rewrite H.
Qed.

Lemma valid_year_cons (record : row) (y : Z) :
  extract_years (record collection_dates) = Ret (Some y) -> y <> 0%Z ->
  valid_year record = [y].
Proof.
  intros H Hy. unfold valid_year. rewrite H. cbn [truthy].
  destruct (Z.eqb_spec y 0); [contradiction|reflexivity].
Qed.

Lemma insert_year_keys (y : Z) (counts : list (Z * nat)) (z : Z) :
  In z (map fst (insert_year y counts)) <-> z = y \/ In z (map fst counts).
Proof.
  induction counts as [|[y' n] counts IH]; cbn [insert_year map fst In].
  - intuition congruence.
  - destruct (Z.ltb y y'); [cbn [map fst In]; intuition congruence|].
    destruct (Z.eqb_spec y y') as [->|Hne]; cbn [map fst In].
    + intuition congruence.
    + rewrite IH. intuition congruence.
Qed.

Lemma insert_year_sorted (y : Z) (counts : list (Z * nat)) :
  StronglySorted Z.lt (map fst counts) ->
  StronglySorted Z.lt (map fst (insert_year y counts)).
Proof.
  induction counts as [|[y' n] counts IH]; cbn [insert_year map fst]; intros Hs.
  - repeat constructor.
  - inversion Hs as [|? ? Hs' Hall]; subst.
    destruct (Z.ltb_spec y y') as [Hlt|Hge].
    + constructor; [exact Hs|]. constructor; [exact Hlt|].
      eapply Forall_impl; [|exact Hall]. intros z Hz. cbn [fst]. lia.
    + destruct (Z.eqb_spec y y') as [->|Hne]; cbn [map fst].
      * exact Hs.
      * constructor; [now apply IH|]. apply Forall_forall. intros z Hz.
        apply insert_year_keys in Hz. destruct Hz as [->|Hz]; [lia|].
        rewrite Forall_forall in Hall. now apply Hall.
Qed.

Lemma insert_year_total (y z : Z) (counts : list (Z * nat)) :
  total_for z (insert_year y counts)
  = (if Z.eqb y z then 1 else 0) + total_for z counts.
Proof.
  unfold total_for, list_sum.
  induction counts as [|[y' n] counts IH]; cbn [insert_year].
  - cbn [filter fst]. destruct (Z.eqb y z); reflexivity.
  - destruct (Z.ltb y y').
    + cbn [filter fst]. destruct (Z.eqb y z); reflexivity.
    + destruct (Z.eqb_spec y y') as [->|Hne]; cbn [filter fst].
      * destruct (Z.eqb y' z); cbn [map snd fold_right]; lia.
      * destruct (Z.eqb y' z); cbn [map snd fold_right]; rewrite IH; lia.
Qed.

(** The bars: the years in increasing order, each once, each with the
    number of times it occurs in the list. *)
Lemma year_counts_spec (years : list Z) :
  StronglySorted Z.lt (map fst (year_counts years)) /\
  (forall y, total_for y (year_counts years) = count_occ Z.eq_dec years y) /\
  (forall y, In y (map fst (year_counts years)) <-> In y years).
Proof.
  unfold year_counts. induction years as [|y years (Hs & Ht & Hk)]; cbn [fold_right].
  - split; [constructor|]. split; [reflexivity|]. cbn. tauto.
  - split; [now apply insert_year_sorted|]. split.
    + intros z. rewrite insert_year_total, Ht. cbn [count_occ].
      destruct (Z.eqb_spec y z) as [->|Hne]; destruct (Z.eq_dec _ z);
        try contradiction; reflexivity.
    + intros z. rewrite insert_year_keys, Hk. cbn [In]. intuition congruence.
Qed.

Lemma combine_fst_snd (A B : Type) (l : list (A * B)) :
  combine (map fst l) (map snd l) = l.
Proof.
  induction l as [|[a b] l IH]; [reflexivity|]. cbn. now rewrite IH.
Qed.

Lemma total_for_absent (y : Z) (counts : list (Z * nat)) :
  ~ In y (map fst counts) -> total_for y counts = 0.
Proof.
  unfold total_for, list_sum.
  induction counts as [|[y' n] counts IH]; intros Hno; [reflexivity|].
  cbn [filter fst]. destruct (Z.eqb_spec y' y) as [->|Hne].
  - exfalso. apply Hno. now left.
  - apply IH. intros Hin. apply Hno. now right.
Qed.

Lemma total_for_bar (y : Z) (n : nat) (counts : list (Z * nat)) :
  StronglySorted Z.lt (map fst counts) ->
  In (y, n) counts ->
  total_for y counts = n.
Proof.
  induction counts as [|[y' n'] counts IH]; intros Hs Hin; [destruct Hin|].
  cbn [map fst] in Hs. apply StronglySorted_inv in Hs. destruct Hs as [Hs Hall].
  assert (Hstep : forall z, total_for z ((y', n') :: counts)
                            = (if Z.eqb y' z then n' else 0) + total_for z counts).
  { intros z. unfold total_for, list_sum. cbn [filter fst].
    destruct (Z.eqb y' z); reflexivity. }
  rewrite Hstep. destruct Hin as [[= -> ->]|Hin].
  - rewrite Z.eqb_refl, total_for_absent; [lia|].
    intros Hy. rewrite Forall_forall in Hall. specialize (Hall y Hy). lia.
  - assert (Hy : In y (map fst counts)) by (apply in_map_iff; now exists (y, n)).
    rewrite Forall_forall in Hall. specialize (Hall y Hy).
    destruct (Z.eqb_spec y' y) as [->|_]; [lia|]. now apply IH.
Qed.

(** The bars of a list of years: one for each year of the list, the years
    in increasing order, each as high as the year is often in the list. *)
Lemma year_counts_bars (years : list Z) :
  StronglySorted Z.lt (map fst (year_counts years)) /\
  List.length (map snd (year_counts years))
  = List.length (map fst (year_counts years)) /\
  (forall y, In y (map fst (year_counts years)) <-> In y years) /\
  (forall y n,
      In (y, n) (combine (map fst (year_counts years)) (map snd (year_counts years))) ->
      n = count_occ Z.eq_dec years y /\ 1 <= n).
Proof.
  destruct (year_counts_spec years) as (Hsorted & Htotal & Hkeys).
  split; [exact Hsorted|]. split; [now rewrite !length_map|].
  split; [exact Hkeys|].
  intros y n Hin. rewrite combine_fst_snd in Hin.
  assert (Hn : n = count_occ Z.eq_dec years y).
  { rewrite <- Htotal. symmetry. now apply total_for_bar. }
  split; [exact Hn|].
  assert (Hy : In y years).
  { apply Hkeys, in_map_iff. now exists (y, n). }
  apply (count_occ_In Z.eq_dec) in Hy. lia.
Qed.

(** C7. For a table with the date column: if no row yields an extractable
    year the timeline builder logs a warning and saves no image; if some row
    yields a valid (non-zero) year and no plotting call fails, it draws a
    bar chart of years against counts and saves the figure to the fixed
    path: there is one bar for each year that some row yields as a valid
    year, the years stand in increasing order, and a bar is as high as the
    number of rows that yield its year. *)
Theorem create_discovery_timeline_warns_or_saves (records : DataFrame) :
  In collection_dates (columns records) ->
  ((forall record, In record (rows records) ->
                   extract_years (record collection_dates) = Ret None) ->
   create_discovery_timeline records
   = ([ Log DEBUG (u "Creating discovery timeline...");
        Log DEBUG (u "Found 0 valid years");
        Log WARNING (u "No valid years found for timeline plot") ],
      Ret tt) /\
   forall path, ~ In (Did (PltSavefig path)) (fst (create_discovery_timeline records))) /\
  ((exists record y,
       In record (rows records) /\
       extract_years (record collection_dates) = Ret (Some y) /\ y <> 0%Z) ->
   (forall c, raises W c = None) ->
   create_discovery_timeline records
   = (Log DEBUG (u "Creating discovery timeline...")
      :: Log DEBUG (u "Found "
            ++ str_of_nat (List.length (flat_map valid_year (rows records)))
            ++ u " valid years")
      :: map Did (plot_calls (flat_map valid_year (rows records)))
      ++ [Log INFO (u "Timeline plot saved successfully to " ++ timeline_path)],
      Ret tt) /\
   In (Did (PltSavefig timeline_path)) (fst (create_discovery_timeline records)) /\
   exists years counts,
     In (Did (PltBar years counts)) (fst (create_discovery_timeline records)) /\
     StronglySorted Z.lt years /\
     List.length counts = List.length years /\
     (forall y,
         In y years <->
         exists record, In record (rows records) /\ In y (valid_year record)) /\
     (forall y n,
         In (y, n) (combine years counts) ->
         n = count_occ Z.eq_dec (flat_map valid_year (rows records)) y /\ 1 <= n)).
Proof.
  intros Hcol. split.
  - intros Hnone.
    assert (Hyears : flat_map valid_year (rows records) = []).
    { induction (rows records) as [|record rs IH]; [reflexivity|].
      cbn [flat_map]. rewrite (valid_year_nil record), IH; [reflexivity| |].
      - intros r Hr. apply Hnone. now right.
      - apply Hnone. now left. }
    assert (Hrun : create_discovery_timeline records
                   = ([ Log DEBUG (u "Creating discovery timeline...");
                        Log DEBUG (u "Found 0 valid years");
                        Log WARNING (u "No valid years found for timeline plot") ],
                      Ret tt)).
    { unfold create_discovery_timeline.
      rewrite (timeline_body_eq records Hcol), Hyears. reflexivity. }
    split; [exact Hrun|].
    intros path Hin. rewrite Hrun in Hin. cbn in Hin.
    destruct Hin as [H|[H|[H|[]]]]; discriminate.
  - intros (record & y & Hin & Hy & Hnz) Hquiet.
    assert (Hyears : flat_map valid_year (rows records) <> []).
    { intros E. apply (in_nil (a := y)). rewrite <- E.
      apply in_flat_map. exists record. split; [exact Hin|].
      rewrite (valid_year_cons record y Hy Hnz). now left. }
    assert (Hrun : create_discovery_timeline records
       = (Log DEBUG (u "Creating discovery timeline...")
          :: Log DEBUG (u "Found "
                ++ str_of_nat (List.length (flat_map valid_year (rows records)))
                ++ u " valid years")
          :: map Did (plot_calls (flat_map valid_year (rows records)))
          ++ [Log INFO (u "Timeline plot saved successfully to " ++ timeline_path)],
          Ret tt)).
    { unfold create_discovery_timeline.
      rewrite (timeline_body_eq records Hcol).
      destruct (flat_map valid_year (rows records)) as [|y0 years] eqn:E;
        [contradiction|].
      rewrite bind_Ret, (plot_timeline_ok (y0 :: years) Hquiet). reflexivity. }
    split; [exact Hrun|].
    split; [rewrite Hrun; cbn [fst plot_calls map app]; cbn; tauto|].
    destruct (year_counts_bars (flat_map valid_year (rows records)))
      as (Hsorted & Hlen & Hkeys & Hbars).
    exists (map fst (year_counts (flat_map valid_year (rows records)))),
           (map snd (year_counts (flat_map valid_year (rows records)))).
    split; [rewrite Hrun; cbn [fst plot_calls map app]; cbn; tauto|].
    split; [exact Hsorted|]. split; [exact Hlen|]. split; [|exact Hbars].
    intros y'. rewrite Hkeys, in_flat_map. reflexivity.
Qed.

(** ** The last stage *)

Lemma create_fossil_map_returns (records : DataFrame) :
  snd (create_fossil_map records) = Ret tt.
Proof.
  apply try_except_log.
Qed.

Lemma create_discovery_timeline_returns (records : DataFrame) :
  snd (create_discovery_timeline records) = Ret tt.
Proof.
  apply try_except_log.
Qed.

Lemma create_visualizations_returns (records : DataFrame) :
  snd (create_visualizations records) = Ret tt.
Proof.
  unfold create_visualizations. destruct (empty records); [reflexivity|].
  unfold log. rewrite !bind_Ret. cbn [snd]. unfold bind.
  rewrite create_fossil_map_returns. cbn [snd].
  apply create_discovery_timeline_returns.
Qed.

(** C8. A failure inside the map builder or the timeline builder is caught
    there and logged as an error, and the builder returns normally; so the
    visualizations never abort the run, and the results are written to the
    fixed CSV path whatever the builders did. *)
Theorem visualization_failures_are_logged_and_results_saved (records : DataFrame) :
  (forall e, snd (fossil_map_body records) = Raise e ->
             create_fossil_map records
             = (fst (fossil_map_body records)
                ++ [Log ERROR (u "Error creating map: " ++ exn_str e)],
                Ret tt)) /\
  (forall e, snd (timeline_body records) = Raise e ->
             create_discovery_timeline records
             = (fst (timeline_body records)
                ++ [Log ERROR (u "Error creating timeline: " ++ exn_str e)],
                Ret tt)) /\
  snd (create_fossil_map records) = Ret tt /\
  snd (create_discovery_timeline records) = Ret tt /\
  snd (create_visualizations records) = Ret tt /\
  last_stage records
  = (fst (create_visualizations records) ++ fst (save_results records),
     snd (save_results records)) /\
  save_results records
  = match raises W (ToCsv records output_path) with
    | None =>
        ([ Log INFO (nl ++ u "Saving detailed results to " ++ output_path);
           Did (ToCsv records output_path);
           Log INFO (u "Analysis completed successfully") ],
         Ret tt)
    | Some e =>
        ([Log INFO (nl ++ u "Saving detailed results to " ++ output_path)], Raise e)
    end.
Proof.
  split; [|split; [|split; [|split; [|split; [|split]]]]].
  - intros e He. unfold create_fossil_map, try_except. rewrite He. reflexivity.
  - intros e He. unfold create_discovery_timeline, try_except. rewrite He. reflexivity.
  - apply create_fossil_map_returns.
  - apply create_discovery_timeline_returns.
  - apply create_visualizations_returns.
  - unfold last_stage, bind. now rewrite create_visualizations_returns.
  - unfold save_results, invoke.
    destruct (raises W (ToCsv records output_path)); reflexivity.
Qed.

(** * Further properties *)

(** ** The header search *)

Lemma scan_header_spec (lines : list str) :
  forall i default,
    (exists k h,
        scan_header i lines default = i + k /\
        nth_error lines k = Some h /\
        startswith header_token h = true /\
        forall j l, j < k -> nth_error lines j = Some l ->
                    startswith header_token l = false)
    \/ (scan_header i lines default = default /\
        forall l, In l lines -> startswith header_token l = false).
Proof.
  induction lines as [|line lines IH]; intros i default.
  - right. split; [reflexivity|]. intros l [].
  - cbn [scan_header]. destruct (startswith header_token line) eqn:Hline.
    + left. exists 0, line. split; [lia|]. split; [reflexivity|].
      split; [exact Hline|]. intros j l Hj. lia.
    + destruct (IH (S i) default) as [(k & h & Hk & Hnth & Hh & Hbefore)|[Hd Hnone]].
      * left. exists (S k), h. split; [lia|]. split; [exact Hnth|].
        split; [exact Hh|]. intros [|j] l Hj Hl.
        -- injection Hl as <-. exact Hline.
        -- apply (Hbefore j l); [lia | exact Hl].
      * right. split; [exact Hd|]. intros l [<-|Hl]; [exact Hline | now apply Hnone].
Qed.

(** For a file that is not empty the header offset is the number of a line
    of the file, so the reader is always left with a header line: the first
    line that starts with the token, or else the first line of the file. *)
Theorem header_row_is_a_line_of_the_file (lines : list str) :
  lines <> [] ->
  header_row lines < List.length lines /\
  skipn (header_row lines) lines <> [] /\
  exists h,
    nth_error lines (header_row lines) = Some h /\
    ((startswith header_token h = true /\
      forall j l, j < header_row lines -> nth_error lines j = Some l ->
                  startswith header_token l = false)
     \/ (header_row lines = 0 /\
         forall l, In l lines -> startswith header_token l = false)).
Proof.
  intros Hne.
  assert (Hh : exists h,
             nth_error lines (header_row lines) = Some h /\
             ((startswith header_token h = true /\
               forall j l, j < header_row lines -> nth_error lines j = Some l ->
                           startswith header_token l = false)
              \/ (header_row lines = 0 /\
                  forall l, In l lines -> startswith header_token l = false))).
  { unfold header_row.
    destruct (scan_header_spec lines 0 0) as [(k & h & Hk & Hnth & Hh & Hbefore)|[Hd Hnone]].
    - rewrite Hk. cbn [plus]. exists h. split; [exact Hnth|]. left. now split.
    - rewrite Hd. destruct lines as [|first rest]; [contradiction|].
      exists first. split; [reflexivity|]. right. now split. }
  destruct Hh as (h & Hnth & Hcase).
  assert (Hlt : header_row lines < List.length lines).
  { apply nth_error_Some. rewrite Hnth. discriminate. }
  split; [exact Hlt|]. split.
  - intros Hskip. apply (f_equal (@List.length str)) in Hskip.
    rewrite length_skipn in Hskip. cbn [List.length] in Hskip. lia.
  - now exists h.
Qed.

(** ** The date extractor, further *)

Lemma decimal_value_below_10 (c d : N) :
  (forall c' d', ucd_decimal U c' = Some d' -> (d' < 10)%N) ->
  decimal_value c = Some d -> (d < 10)%N.
Proof.
  intros Hdb. unfold decimal_value.
  destruct (N.leb 48 c && N.leb c 57) eqn:Hascii.
  - intros H. injection H as <-. apply andb_true_iff in Hascii.
    destruct Hascii as [H1 H2]. apply N.leb_le in H1, H2. lia.
  - destruct (is_ascii c); [discriminate | apply Hdb].
Qed.

Lemma first_four_digit_number_short (s : str) :
  List.length s < 4 -> first_four_digit_number s = None.
Proof.
  destruct s as [|a [|b [|c [|d t]]]]; cbn [List.length]; intros H;
    try reflexivity. lia.
Qed.

Lemma first_four_digit_number_range (s : str) (y : Z) :
  (forall c d, ucd_decimal U c = Some d -> (d < 10)%N) ->
  first_four_digit_number s = Some y -> (0 <= y <= 9999)%Z.
Proof.
  intros Hdb. induction s as [|a t IH]; [discriminate|].
  destruct t as [|b [|c [|d t']]];
    try (rewrite first_four_digit_number_short by (cbn; lia); discriminate).
  rewrite first_four_digit_number_step.
  destruct (decimal_value a) as [da|] eqn:Ha; [|exact IH].
  destruct (decimal_value b) as [db|] eqn:Hb; [|exact IH].
  destruct (decimal_value c) as [dc|] eqn:Hc; [|exact IH].
  destruct (decimal_value d) as [dd|] eqn:Hd; [|exact IH].
  intros H.
  replace y with (Z.of_N (1000 * da + 100 * db + 10 * dc + dd)) by congruence.
  pose proof (decimal_value_below_10 _ _ Hdb Ha).
  pose proof (decimal_value_below_10 _ _ Hdb Hb).
  pose proof (decimal_value_below_10 _ _ Hdb Hc).
  pose proof (decimal_value_below_10 _ _ Hdb Hd). lia.
Qed.

Lemma first_four_digit_number_app (a b : str) (y : Z) :
  first_four_digit_number a = Some y -> first_four_digit_number (a ++ b) = Some y.
Proof.
  induction a as [|x t IH]; [discriminate|].
  destruct t as [|b0 [|c0 [|d0 t']]];
    try (rewrite first_four_digit_number_short by (cbn; lia); discriminate).
  cbn [app]. rewrite !first_four_digit_number_step.
  destruct (decimal_value x); [|exact IH].
  destruct (decimal_value b0); [|exact IH].
  destruct (decimal_value c0); [|exact IH].
  destruct (decimal_value d0); [|exact IH].
  intros H. exact H.
Qed.

(** A year that was extracted lies between 0 and 9999, when the digits of
    the Unicode database have values below ten. *)
Theorem extract_years_is_a_four_digit_number (date_str : value) (y : Z) :
  (forall c d, ucd_decimal U c = Some d -> (d < 10)%N) ->
  extract_years date_str = Ret (Some y) ->
  (0 <= y <= 9999)%Z.
Proof.
  intros Hdb. rewrite extract_years_simple. unfold simple_year.
  destruct (isna date_str); [discriminate|].
  intros H. injection H as H. exact (first_four_digit_number_range _ _ Hdb H).
Qed.

(** Once a text yields a year, nothing written after it changes that year:
    only the first run of four digits counts. *)
Theorem extract_years_ignores_what_follows (text more : str) (y : Z) :
  extract_years (VStr text) = Ret (Some y) ->
  extract_years (VStr (text ++ more)) = Ret (Some y).
Proof.
  rewrite !extract_years_simple. unfold simple_year. cbn [isna py_str].
  intros H. injection H as H. now rewrite (first_four_digit_number_app _ more _ H).
Qed.

(** ** The matcher, further *)

Lemma contains_trex_token (s : str) :
  contains_trex (VStr s) = true <->
  exists before w after, lower s = before ++ w ++ after /\ trex_token w.
Proof.
  cbn [contains_trex]. rewrite existsb_exists. split.
  - intros (pattern & Hin & Hm). apply search_matches in Hm.
    destruct Hm as (before & w & after & E & Hm).
    exists before, w, after. split; [exact E|].
    apply patterns_trex_token. now exists pattern.
  - intros (before & w & after & E & Hw). apply patterns_trex_token in Hw.
    destruct Hw as (pattern & Hin & Hm). exists pattern. split; [exact Hin|].
    apply search_matches. now exists before, w, after.
Qed.

(** Lower-casing goes through a text from left to right. *)
Lemma lower_from_app (a : str) :
  forall before s,
    exists lowered,
      lower_from before (a ++ s) = lowered ++ lower_from (before ++ a) s.
Proof.
  induction a as [|c a IH]; intros before s.
  - exists []. now rewrite app_nil_r.
  - destruct (IH (before ++ [c]) s) as (lowered & E).
    exists (lower_char before c (a ++ s) ++ lowered).
    cbn [app lower_from]. rewrite E, <- (app_assoc before [c] a).
    cbn [app]. now rewrite app_assoc.
Qed.

(** An ASCII text is lower-cased the same way wherever it stands. *)
Lemma lower_from_ascii (w : str) :
  forallb is_ascii w = true ->
  forall before s,
    lower_from before (w ++ s) = lower w ++ lower_from (before ++ w) s.
Proof.
  unfold lower. induction w as [|c w IH]; intros Hascii before s.
  - now rewrite app_nil_r.
  - cbn [forallb] in Hascii. apply andb_true_iff in Hascii.
    destruct Hascii as [Hc Hw]. cbn [app lower_from].
    rewrite (IH Hw (before ++ [c]) s).
    assert (Hlow : lower_from [c] w = lower_from [] w).
    { pose proof (IH Hw [c] []) as E. rewrite (app_nil_r w) in E.
      rewrite E. cbn [lower_from]. apply app_nil_r. }
    rewrite Hlow.
    replace ((before ++ [c]) ++ w) with (before ++ c :: w)
      by (now rewrite <- app_assoc).
    rewrite <- (app_assoc (lower_char [] c w)). f_equal.
    unfold lower_char. rewrite Hc. reflexivity.
Qed.

(** Matching looks for the tokens anywhere in the text, in any letter case:
    an ASCII piece whose lower-casing is one of the matched texts makes the
    whole text match, whatever stands before and after it. *)
Theorem contains_trex_token_anywhere (before w after : str) :
  forallb is_ascii w = true ->
  trex_token (lower w) ->
  contains_trex (VStr (before ++ w ++ after)) = true.
Proof.
  intros Hascii Htoken. apply contains_trex_token.
  destruct (lower_from_app before [] (w ++ after)) as (lowered & E).
  exists lowered, (lower w), (lower_from (before ++ w) after).
  split; [|exact Htoken].
  unfold lower at 1. rewrite E. cbn [app].
  now rewrite (lower_from_ascii w Hascii).
Qed.

(** A text matches only if its lower-casing contains "rex" or "tyran". *)
Theorem contains_trex_needs_rex_or_tyran (s : str) :
  contains_trex (VStr s) = true ->
  exists before after,
    lower s = before ++ u "rex" ++ after \/ lower s = before ++ u "tyran" ++ after.
Proof.
  intros H. apply contains_trex_token in H.
  destruct H as (before & w & after & -> & Hw).
  destruct Hw as [-> | [(c & _ & ->) | [-> | [(n & blanks & _ & ->) | ->]]]].
  - exists (before ++ u "t"), after. left. now rewrite <- !app_assoc.
  - exists (before ++ u "t" ++ [c]), after. left. now rewrite <- !app_assoc.
  - exists before, (u "nosaurus" ++ after). right. reflexivity.
  - exists (before ++ u "t" ++ repeat 46%N n ++ blanks), (u "us" ++ after). left.
    now rewrite <- !app_assoc.
  - exists before, (u "t" ++ after). right. reflexivity.
Qed.

(** ** The mask and the filtered table *)

Lemma any_axis1_rows (f : value -> bool) (df : DataFrame) :
  any_axis1 (List.length (rows df)) (apply_columns f df)
  = map (fun record : row => existsb (fun c => f (record c)) (columns df)) (rows df).
Proof.
  apply nth_error_ext. intros i.
  destruct (nth_error (rows df) i) as [record|] eqn:Hrow.
  - rewrite (any_axis1_row f df i record Hrow), nth_error_map, Hrow. reflexivity.
  - apply nth_error_None in Hrow.
    rewrite (proj2 (nth_error_None _ _)), (proj2 (nth_error_None _ _));
      [reflexivity| |].
    + now rewrite length_map.
    + unfold any_axis1. now rewrite length_map, length_seq.
Qed.

Lemma boolean_index_map (f : row -> bool) (rs : list row) :
  boolean_index rs (map f rs) = filter f rs.
Proof.
  induction rs as [|record rs IH]; [reflexivity|].
  cbn [map boolean_index filter]. now rewrite IH.
Qed.

Lemma trex_mask_present (df : DataFrame) :
  (forall c, In c taxonomic_columns -> In c (columns df)) ->
  trex_mask df = Ret (map row_matches (rows df)).
Proof.
  intros Hcols. unfold trex_mask.
  rewrite (select_present df taxonomic_columns Hcols). cbn [obind rows].
  f_equal.
  exact (any_axis1_rows contains_trex {| columns := taxonomic_columns; rows := rows df |}).
Qed.

Lemma select_missing (df : DataFrame) (keys : list str) :
  (exists c, In c keys /\ ~ In c (columns df)) ->
  exists c, In c keys /\ ~ In c (columns df) /\ select df keys = Raise (KeyError c).
Proof.
  intros (c & Hin & Hmiss). unfold select.
  destruct (filter _ keys) as [|missing rest] eqn:E.
  - exfalso.
    assert (Hc : In c (filter (fun key => negb (has_column (columns df) key)) keys)).
    { apply filter_In. split; [exact Hin|].
      destruct (has_column (columns df) c) eqn:Hhas; [|reflexivity].
      now apply has_column_In in Hhas. }
    rewrite E in Hc. destruct Hc.
  - assert (Hm : In missing (filter (fun key => negb (has_column (columns df) key)) keys))
      by (rewrite E; now left).
    apply filter_In in Hm. destruct Hm as [Hmin Hneg].
    exists missing. split; [exact Hmin|]. split; [|reflexivity].
    intros Hhas. apply has_column_In in Hhas. rewrite Hhas in Hneg. discriminate.
Qed.

Lemma trex_mask_Ret_columns (df : DataFrame) (mask : list bool) :
  trex_mask df = Ret mask ->
  forall c, In c taxonomic_columns -> In c (columns df).
Proof.
  intros Hmask c Hc.
  destruct (has_column (columns df) c) eqn:Hhas; [now apply has_column_In|].
  destruct (select_missing df taxonomic_columns) as (c' & _ & _ & Hsel).
  - exists c. split; [exact Hc|]. intros Hin. apply has_column_In in Hin.
    rewrite Hin in Hhas. discriminate.
  - unfold trex_mask in Hmask. rewrite Hsel in Hmask. discriminate.
Qed.

Lemma select_raises (df : DataFrame) (keys : list str) (e : exn) :
  select df keys = Raise e ->
  exists c, e = KeyError c /\ In c keys /\ ~ In c (columns df).
Proof.
  unfold select.
  destruct (filter (fun key => negb (has_column (columns df) key)) keys)
    as [|missing rest] eqn:E; [discriminate|].
  intros [= <-].
  assert (Hm : In missing (filter (fun key => negb (has_column (columns df) key)) keys))
    by (rewrite E; now left).
  apply filter_In in Hm. destruct Hm as [Hin Hneg].
  exists missing. split; [reflexivity|]. split; [exact Hin|].
  intros Hhas. apply has_column_In in Hhas. rewrite Hhas in Hneg. discriminate.
Qed.

(** The mask exists exactly for a table that has every candidate column:
    with one of them missing, building the mask raises [KeyError] whatever
    the rows are, and so does the filtering; nothing but [KeyError] is
    raised by either. *)
Theorem trex_mask_raises_iff_a_column_is_missing (df : DataFrame) :
  ((exists c, In c taxonomic_columns /\ ~ In c (columns df)) <->
   exists key, trex_mask df = Raise (KeyError key)) /\
  (forall e, trex_mask df = Raise e <-> trex_records df = Raise e) /\
  (forall e, trex_mask df = Raise e -> exists key, e = KeyError key).
Proof.
  split; [split|split].
  - intros Hmiss.
    destruct (select_missing df taxonomic_columns Hmiss) as (c & _ & _ & Hsel).
    exists c. unfold trex_mask. now rewrite Hsel.
  - intros (key & Hraise). unfold trex_mask in Hraise.
    destruct (select df taxonomic_columns) as [sub|e] eqn:Hsel; [discriminate|].
    destruct (select_raises df taxonomic_columns e Hsel) as (c & _ & Hin & Hno).
    now exists c.
  - intros e. unfold trex_records.
    destruct (trex_mask df) as [mask|e']; cbn [obind]; split; congruence.
  - intros e Hraise. unfold trex_mask in Hraise.
    destruct (select df taxonomic_columns) as [sub|e'] eqn:Hsel; [discriminate|].
    cbn [obind] in Hraise. injection Hraise as <-.
    destruct (select_raises df taxonomic_columns e' Hsel) as (c & -> & _).
    now exists c.
Qed.

(** Filtering keeps the columns and exactly the rows with a matching
    candidate cell, in their order. *)
Theorem trex_records_are_the_matching_rows (df : DataFrame) :
  (forall c, In c taxonomic_columns -> In c (columns df)) ->
  trex_records df
  = Ret {| columns := columns df; rows := filter row_matches (rows df) |}.
Proof.
  intros Hcols. unfold trex_records.
  rewrite (trex_mask_present df Hcols). cbn [obind].
  now rewrite boolean_index_map.
Qed.

Lemma filter_filter_same (A : Type) (f : A -> bool) (l : list A) :
  filter f (filter f l) = filter f l.
Proof.
  induction l as [|x l IH]; [reflexivity|].
  cbn [filter]. destruct (f x) eqn:Hx; [|exact IH].
  cbn [filter]. now rewrite Hx, IH.
Qed.

(** Filtering a filtered table changes nothing. *)
Theorem trex_records_twice (df records : DataFrame) :
  trex_records df = Ret records ->
  trex_records records = Ret records.
Proof.
  intros H. unfold trex_records in *.
  destruct (trex_mask df) as [mask|e] eqn:Hmask; [|discriminate].
  pose proof (trex_mask_Ret_columns df mask Hmask) as Hcols.
  rewrite (trex_mask_present df Hcols) in Hmask. injection Hmask as <-.
  cbn [obind] in H. injection H as <-.
  rewrite boolean_index_map.
  rewrite (trex_mask_present {| columns := columns df;
                                rows := filter row_matches (rows df) |} Hcols).
  cbn [obind rows columns]. now rewrite boolean_index_map, filter_filter_same.
Qed.

Lemma filter_length_le_impl (A : Type) (f g : A -> bool) (l : list A) :
  (forall x, In x l -> f x = true -> g x = true) ->
  List.length (filter f l) <= List.length (filter g l).
Proof.
  induction l as [|x l IH]; intros H; [reflexivity|].
  assert (IH' := IH (fun y Hy => H y (or_intror Hy))).
  cbn [filter]. destruct (f x) eqn:Hf.
  - rewrite (H x (or_introl eq_refl) Hf). cbn [List.length]. lia.
  - destruct (g x); cbn [List.length]; lia.
Qed.

(** The rows found for one candidate column are among the filtered rows,
    so no column total exceeds the total of records; and there are no
    records exactly when no column has an entry. *)
Theorem column_entries_are_among_the_records (df records : DataFrame) :
  trex_records df = Ret records ->
  (forall col record,
      In col taxonomic_columns ->
      In record (column_entries df col) -> In record (rows records)) /\
  (forall col,
      In col taxonomic_columns ->
      List.length (column_entries df col) <= List.length (rows records)) /\
  (rows records = [] <->
   forall col, In col taxonomic_columns -> column_entries df col = []).
Proof.
  intros H. unfold trex_records in H.
  destruct (trex_mask df) as [mask|e] eqn:Hmask; [|discriminate].
  pose proof (trex_mask_Ret_columns df mask Hmask) as Hcols.
  rewrite (trex_mask_present df Hcols) in Hmask. injection Hmask as <-.
  cbn [obind] in H. injection H as <-. cbn [rows].
  rewrite boolean_index_map. unfold column_entries.
  assert (Hrow : forall col record,
             In col taxonomic_columns ->
             contains_trex (record col) = true -> row_matches record = true).
  { intros col record Hcol Hm. apply existsb_exists. now exists col. }
  split; [|split].
  - intros col record Hcol Hin. apply filter_In in Hin. destruct Hin as [Hin Hm].
    apply filter_In. split; [exact Hin | now apply (Hrow col)].
  - intros col Hcol. apply filter_length_le_impl. intros record _. now apply Hrow.
  - split.
    + intros Hnil col Hcol.
      destruct (filter (fun r : row => contains_trex (r col)) (rows df))
        as [|record rest] eqn:E; [reflexivity|].
      assert (Hin : In record (filter (fun r : row => contains_trex (r col)) (rows df)))
        by (rewrite E; now left).
      apply filter_In in Hin. destruct Hin as [Hin Hm].
      assert (Hrec : In record (filter row_matches (rows df))).
      { apply filter_In. split; [exact Hin | now apply (Hrow col)]. }
      rewrite Hnil in Hrec. destruct Hrec.
    + intros Hall.
      destruct (filter row_matches (rows df)) as [|record rest] eqn:E; [reflexivity|].
      assert (Hin : In record (filter row_matches (rows df))) by (rewrite E; now left).
      apply filter_In in Hin. destruct Hin as [Hin Hm].
      apply existsb_exists in Hm. destruct Hm as (col & Hcol & Hm).
      assert (Hent : In record (filter (fun r : row => contains_trex (r col)) (rows df))).
      { apply filter_In. now split. }
      rewrite (Hall col Hcol) in Hent. destruct Hent.
Qed.

(** ** Traces *)

Lemma fst_bind {A B} (m : M A) (f : A -> M B) :
  fst (bind m f)
  = fst m ++ match snd m with Ret a => fst (f a) | Raise _ => [] end.
Proof.
  unfold bind. destruct (snd m); cbn [fst]; [reflexivity | now rewrite app_nil_r].
Qed.

Lemma snd_bind {A B} (m : M A) (f : A -> M B) :
  snd (bind m f) = match snd m with Ret a => snd (f a) | Raise e => Raise e end.
Proof.
  unfold bind. destruct (snd m); reflexivity.
Qed.

Lemma calls_of_app (t1 t2 : list event) :
  calls_of (t1 ++ t2) = calls_of t1 ++ calls_of t2.
Proof.
  induction t1 as [|[lvl msg|c] t1 IH]; cbn [app calls_of]; [reflexivity|exact IH|].
  now rewrite IH.
Qed.

Lemma calls_of_In (t : list event) (c : call) :
  In c (calls_of t) <-> In (Did c) t.
Proof.
  induction t as [|[lvl msg|c'] t IH]; cbn [calls_of In].
  - tauto.
  - rewrite IH. split; [now right | intros [H|H]; [discriminate | exact H]].
  - rewrite IH. split; (intros [H|H]; [left; congruence | now right]).
Qed.

(** A loop whose body only logs and returns only logs and returns. *)
Lemma for_in_only_logs {A} (body : A -> M unit) (xs : list A) :
  (forall x, snd (body x) = Ret tt /\ calls_of (fst (body x)) = []) ->
  snd (for_in body xs) = Ret tt /\ calls_of (fst (for_in body xs)) = [].
Proof.
  intros Hbody. induction xs as [|x xs [IHs IHc]]; [now split|].
  destruct (Hbody x) as [Hs Hc]. cbn [for_in].
  rewrite snd_bind, fst_bind, Hs, calls_of_app, Hc, IHc. now split.
Qed.

Lemma for_in_log (A : Type) (msg : A -> str) (xs : list A) :
  for_in (fun x => log INFO (msg x)) xs = (map (fun x => Log INFO (msg x)) xs, Ret tt).
Proof.
  induction xs as [|x xs IH]; [reflexivity|].
  cbn [for_in map]. unfold log at 1. now rewrite bind_Ret, IH.
Qed.

(** ** The report of the columns *)

Lemma value_eqb_eq (a b : value) : value_eqb a b = true <-> a = b.
Proof.
  destruct a as [| |s|s], b as [| |t|t]; cbn [value_eqb];
    try (split; [discriminate|discriminate]); try (split; reflexivity);
    rewrite str_eqb_eq; split; congruence.
Qed.

Lemma unique_from_spec (vs : list value) :
  forall seen,
    NoDup (unique_from seen vs) /\
    forall v, In v (unique_from seen vs) <-> In v vs /\ ~ In v seen.
Proof.
  induction vs as [|x vs IH]; intros seen.
  - split; [constructor|]. intros v. cbn. tauto.
  - cbn [unique_from].
    destruct (existsb (value_eqb x) seen) eqn:Hseen.
    + apply existsb_exists in Hseen. destruct Hseen as (y & Hy & Exy).
      apply value_eqb_eq in Exy. subst y.
      destruct (IH seen) as [Hnd Hin]. split; [exact Hnd|].
      intros v. rewrite Hin. cbn [In]. split; [tauto|].
      intros [[<-|Hv] Hno]; [contradiction | now split].
    + assert (Hx : ~ In x seen).
      { intros Hx. apply not_true_iff_false in Hseen. apply Hseen.
        apply existsb_exists. exists x. split; [exact Hx | now apply value_eqb_eq]. }
      destruct (IH (x :: seen)) as [Hnd Hin]. split.
      * constructor; [|exact Hnd]. rewrite Hin. cbn [In]. tauto.
      * intros v. cbn [In]. rewrite Hin. cbn [In]. split.
        -- intros [<-|[Hv Hno]]; [tauto|]. split; [now right | tauto].
        -- intros [[<-|Hv] Hno]; [now left|].
           destruct (value_eqb x v) eqn:E.
           ++ apply value_eqb_eq in E. now left.
           ++ right. split; [exact Hv|]. intros [->|Hs]; [|contradiction].
              rewrite (proj2 (value_eqb_eq v v) eq_refl) in E. discriminate.
Qed.

Lemma column_present (df : DataFrame) (col : str) :
  In col (columns df) ->
  column df col = Ret (map (fun record : row => record col) (rows df)).
Proof.
  intros H. unfold column. apply has_column_In in H. now rewrite H.
Qed.

Lemma report_column_entries (df : DataFrame) (col : str) :
  boolean_index (rows df)
    (map contains_trex (map (fun record : row => record col) (rows df)))
  = column_entries df col.
Proof.
  rewrite map_map. apply (boolean_index_map (fun record => contains_trex (record col))).
Qed.

Lemma report_column_trace (df : DataFrame) (col : str) :
  In col (columns df) ->
  column_entries df col <> [] ->
  report_column df col
  = ([ Log INFO (nl ++ u "Found T-Rex related entries in " ++ col ++ u ":");
       Log INFO (u "Total entries: "
                 ++ str_of_nat (List.length (column_entries df col)));
       Log INFO (u "Unique values:") ]
     ++ map (fun val => Log INFO (u "  - " ++ py_str val))
            (unique (map (fun record : row => record col) (column_entries df col))),
     Ret tt).
Proof.
  intros Hcol Hentries. unfold report_column.
  rewrite (proj2 (has_column_In _ _) Hcol), (column_present df col Hcol).
  rewrite bind_lift_Ret. cbn zeta. rewrite report_column_entries.
  assert (Hne : empty {| columns := columns df; rows := column_entries df col |}
                = false).
  { unfold empty. cbn [rows columns].
    destruct (column_entries df col); [contradiction|].
    destruct (columns df); [destruct Hcol | reflexivity]. }
  rewrite Hne.
  unfold log at 1 2 3. rewrite !bind_Ret. unfold column. cbn [columns rows].
  rewrite (proj2 (has_column_In _ _) Hcol). cbn [obind].
  rewrite bind_lift_Ret, for_in_log. reflexivity.
Qed.

Lemma report_column_nothing (df : DataFrame) (col : str) :
  ~ In col (columns df) \/ column_entries df col = [] ->
  report_column df col = ret tt.
Proof.
  intros Hno. unfold report_column.
  destruct (has_column (columns df) col) eqn:Hhas; [|reflexivity].
  apply has_column_In in Hhas. destruct Hno as [Hno|Hno]; [contradiction|].
  rewrite (column_present df col Hhas), bind_lift_Ret. cbn zeta.
  rewrite report_column_entries, Hno. reflexivity.
Qed.

(** For a column that is there and has matching cells the report gives the
    number of rows that match in it and then each matching value once, in
    the order of first appearance; every value it lists is a text on which
    the cell predicate is true. *)
Theorem report_column_lists_each_matching_value_once (df : DataFrame) (col : str) :
  In col (columns df) ->
  column_entries df col <> [] ->
  report_column df col
  = ([ Log INFO (nl ++ u "Found T-Rex related entries in " ++ col ++ u ":");
       Log INFO (u "Total entries: "
                 ++ str_of_nat (List.length (column_entries df col)));
       Log INFO (u "Unique values:") ]
     ++ map (fun val => Log INFO (u "  - " ++ py_str val))
            (unique (map (fun record : row => record col) (column_entries df col))),
     Ret tt) /\
  NoDup (unique (map (fun record : row => record col) (column_entries df col))) /\
  (forall val,
      In val (unique (map (fun record : row => record col) (column_entries df col)))
      <-> exists record, In record (column_entries df col) /\ record col = val) /\
  (forall val,
      In val (unique (map (fun record : row => record col) (column_entries df col)))
      -> contains_trex val = true).
Proof.
  intros Hcol Hentries.
  destruct (unique_from_spec
              (map (fun record : row => record col) (column_entries df col)) [])
    as [Hnd Hin].
  assert (Hlisted : forall val,
             In val (unique (map (fun record : row => record col)
                                 (column_entries df col)))
             <-> exists record, In record (column_entries df col) /\ record col = val).
  { intros val. unfold unique. rewrite Hin, in_map_iff. cbn [In]. split.
    - intros [(record & E & Hr) _]. now exists record.
    - intros (record & Hr & E). split; [now exists record | tauto]. }
  split; [|split; [exact Hnd|split; [exact Hlisted|]]].
  - now apply report_column_trace.
  - intros val Hval. apply Hlisted in Hval. destruct Hval as (record & Hr & <-).
    unfold column_entries in Hr. apply filter_In in Hr. tauto.
Qed.

Lemma report_column_only_logs (df : DataFrame) (col : str) :
  snd (report_column df col) = Ret tt /\ calls_of (fst (report_column df col)) = [].
Proof.
  destruct (has_column (columns df) col) eqn:Hhas.
  - apply has_column_In in Hhas.
    destruct (column_entries df col) as [|entry entries] eqn:E.
    + rewrite report_column_nothing by now right. now split.
    + rewrite report_column_trace by (rewrite ?E; easy).
      cbn [fst snd app calls_of]. split; [reflexivity|].
      induction (unique _) as [|v vs IH]; [reflexivity | exact IH].
  - rewrite report_column_nothing; [now split|]. left. intros Hin.
    apply has_column_In in Hin. rewrite Hin in Hhas. discriminate.
Qed.

(** The report of the columns tolerates every table: it returns normally and
    makes no library call, also when candidate columns are missing. *)
Theorem report_columns_never_raises (df : DataFrame) :
  snd (report_columns df) = Ret tt /\
  calls_of (fst (report_columns df)) = [].
Proof.
  unfold report_columns. unfold log at 1 2. rewrite !bind_Ret.
  destruct (for_in_only_logs (report_column df) taxonomic_columns
              (report_column_only_logs df)) as [Hs Hc].
  cbn [fst snd app calls_of]. split; [exact Hs | exact Hc].
Qed.

(** ** The report of the records *)

(** Reading the field [key] of the record: go on when the column is there,
    and show that the report raises when it is not. *)
Ltac read_field record cols key :=
  let Hhas := fresh "Hhas" in
  destruct (has_column cols key) eqn:Hhas;
  [ | right; exists key;
      split; [unfold report_fields; cbn [In]; tauto|];
      split; [exact Hhas|];
      split; vm_compute;
      repeat match goal with
             | |- context [record ?k] => destruct (record k)
             end;
      reflexivity ].

Lemma report_record_cases (cols : list str) (idx : nat) (record : row) :
  ((forall c, In c report_fields -> has_column cols c = true) /\
   snd (report_record cols (idx, record)) = Ret tt /\
   calls_of (fst (report_record cols (idx, record))) = [] /\
   14 <= List.length (fst (report_record cols (idx, record))) <= 17)
  \/ (exists c,
         In c report_fields /\ has_column cols c = false /\
         snd (report_record cols (idx, record)) = Raise (KeyError c) /\
         calls_of (fst (report_record cols (idx, record))) = []).
Proof.
  unfold report_record, record_lines. cbn [fst snd for_in report_line fstring].
  unfold getitem.
  read_field record cols (u "accepted_name").
  read_field record cols (u "genus").
  read_field record cols (u "collection_name").
  read_field record cols (u "cc").
  read_field record cols (u "state").
  read_field record cols (u "lat").
  read_field record cols (u "lng").
  read_field record cols (u "collectors").
  read_field record cols (u "collection_dates").
  read_field record cols (u "collection_type").
  read_field record cols (u "collection_size").
  read_field record cols (u "collection_methods").
  read_field record cols (u "occurrence_comments").
  read_field record cols (u "preservation_comments").
  read_field record cols (u "collection_comments").
  left. split.
  - intros c Hc. unfold report_fields in Hc. cbn [In] in Hc.
    repeat (destruct Hc as [<-|Hc]; [assumption|]). destruct Hc.
  - repeat split; vm_compute;
      repeat match goal with
             | |- context [match record ?k with _ => _ end] => destruct (record k)
             end;
      vm_compute; try reflexivity; lia.
Qed.

(** The report of one record needs every column of [report_fields]: with all
    of them it logs between 14 and 17 lines and returns; without one of them
    it raises [KeyError] for a missing column. *)
Theorem report_record_needs_every_field (cols : list str) (idx : nat) (record : row) :
  ((forall c, In c report_fields -> In c cols) ->
   snd (report_record cols (idx, record)) = Ret tt /\
   14 <= List.length (fst (report_record cols (idx, record))) <= 17) /\
  ((exists c, In c report_fields /\ ~ In c cols) ->
   exists c,
     In c report_fields /\ ~ In c cols /\
     snd (report_record cols (idx, record)) = Raise (KeyError c)).
Proof.
  destruct (report_record_cases cols idx record)
    as [(Hall & Hret & _ & Hlen)|(c & Hc & Hhas & Hraise & _)].
  - split; [now intros _|].
    intros (c & Hc & Hno). exfalso. apply Hno, has_column_In. now apply Hall.
  - split.
    + intros Hall. apply Hall, has_column_In in Hc. rewrite Hc in Hhas. discriminate.
    + intros _. exists c. split; [exact Hc|]. split; [|exact Hraise].
      intros Hin. apply has_column_In in Hin. rewrite Hin in Hhas. discriminate.
Qed.

Lemma iterrows_from_snd (rs : list row) :
  forall idx mask, map snd (iterrows_from idx rs mask) = boolean_index rs mask.
Proof.
  induction rs as [|record rs IH]; intros idx [|b mask]; try reflexivity.
  cbn [iterrows_from boolean_index]. destruct b; cbn [map snd]; now rewrite IH.
Qed.

Lemma iterrows_from_In (rs : list row) :
  forall start mask idx record,
    In (idx, record) (iterrows_from start rs mask) <->
    exists k, idx = start + k /\
              nth_error rs k = Some record /\ nth_error mask k = Some true.
Proof.
  induction rs as [|r rs IH]; intros start mask idx record.
  - cbn [iterrows_from In]. split; [intros []|].
    intros (k & _ & H & _). destruct k; discriminate.
  - destruct mask as [|b mask].
    + cbn [iterrows_from In]. split; [intros []|].
      intros (k & _ & _ & H). destruct k; discriminate.
    + cbn [iterrows_from].
      assert (Hrest : In (idx, record) (iterrows_from (S start) rs mask) <->
                      exists k, idx = start + S k /\
                                nth_error rs k = Some record /\
                                nth_error mask k = Some true).
      { rewrite IH. split; intros (k & E & H); exists k; (split; [lia | exact H]). }
      destruct b; cbn [In]; rewrite Hrest; split.
      * intros [E|(k & E & H)]; [|now exists (S k)].
        injection E as <- <-. exists 0. split; [lia|]. now split.
      * intros ([|k] & E & Hr & Hm); [|right; now exists k].
        left. cbn in Hr. injection Hr as <-. f_equal. lia.
      * intros (k & E & H). now exists (S k).
      * intros ([|k] & E & Hr & Hm); [discriminate|]. now exists k.
Qed.

Lemma iterrows_from_sorted (rs : list row) :
  forall start mask,
    StronglySorted lt (map fst (iterrows_from start rs mask)).
Proof.
  induction rs as [|r rs IH]; intros start [|b mask]; try constructor.
  cbn [iterrows_from]. destruct b; [|apply IH].
  cbn [map fst]. constructor; [apply IH|].
  apply Forall_forall. intros idx Hidx. apply in_map_iff in Hidx.
  destruct Hidx as ([idx' record] & <- & Hin). cbn [fst].
  apply iterrows_from_In in Hin. destruct Hin as (k & -> & _). lia.
Qed.

(** The records are reported under the numbers they have in the loaded
    table, counted from 1: the rows the loop visits are the filtered rows,
    each labelled with its position in the table, in increasing order, and
    the second line logged for a record is "Record position + 1:". *)
Theorem report_numbers_records_by_table_position
    (rs : list row) (mask : list bool) :
  map snd (iterrows_from 0 rs mask) = boolean_index rs mask /\
  (forall idx record,
      In (idx, record) (iterrows_from 0 rs mask) <->
      nth_error rs idx = Some record /\ nth_error mask idx = Some true) /\
  StronglySorted lt (map fst (iterrows_from 0 rs mask)) /\
  (forall cols idx record,
      nth_error (fst (report_record cols (idx, record))) 1
      = Some (Log INFO (u "Record " ++ str_of_nat (idx + 1) ++ u ":"))).
Proof.
  split; [apply iterrows_from_snd|]. split; [|split; [apply iterrows_from_sorted|]].
  - intros idx record. rewrite iterrows_from_In. split.
    + intros (k & -> & H). exact H.
    + intros H. now exists idx.
  - intros cols idx record. unfold report_record, record_lines.
    cbn [fst snd for_in report_line fstring obind].
    rewrite !bind_lift_Ret. unfold log at 1 2. rewrite !bind_Ret.
    cbn [fst app nth_error]. now rewrite app_nil_r.
Qed.

(** ** The map builder, further *)

Lemma in_bind_lift {A B} (o : outcome A) (f : A -> M B) (e : event) :
  In e (fst (bind (lift o) f)) -> exists a, o = Ret a /\ In e (fst (f a)).
Proof.
  rewrite fst_bind. unfold lift. cbn [fst snd app].
  destruct o as [a|x]; [|intros []]. intros H. now exists a.
Qed.

Lemma add_marker_events (cols : list str) (n : nat) (record : row) (e : event) :
  In e (fst (add_marker cols n record)) ->
  exists la lo popup, e = Did (MarkerAddTo la lo popup).
Proof.
  unfold add_marker. intros H.
  apply in_bind_lift in H. destruct H as (la & _ & H).
  destruct (notna la); [|destruct H].
  apply in_bind_lift in H. destruct H as (lo & _ & H).
  destruct (notna lo); [|destruct H].
  apply in_bind_lift in H. destruct H as (popup & _ & H).
  apply in_bind_lift in H. destruct H as (la' & _ & H).
  apply in_bind_lift in H. destruct H as (lo' & _ & H).
  rewrite fst_bind in H. unfold invoke in H.
  destruct (raises W (MarkerAddTo la' lo' popup)); cbn in H; [destruct H|].
  destruct H as [<-|[]]. now exists la', lo', popup.
Qed.

Lemma for_each_events {S} (body : S -> row -> M S) (P : event -> Prop) :
  (forall s record e, In e (fst (body s record)) -> P e) ->
  forall rs s e, In e (fst (for_each body rs s)) -> P e.
Proof.
  intros Hbody. induction rs as [|record rs IH]; intros s e H; [destruct H|].
  cbn [for_each] in H. rewrite fst_bind in H. apply in_app_or in H.
  destruct H as [H|H]; [now apply (Hbody s record)|].
  destruct (snd (body s record)) as [s'|x]; [now apply (IH s') | destruct H].
Qed.

(** The builder step by step: where it can stop, and what it has left. *)
Lemma fossil_map_body_shape (records : DataFrame) :
  fossil_map_body records
  = match raises W FoliumMap with
    | Some e => ([Log DEBUG (u "Creating fossil map...")], Raise e)
    | None =>
        let loop := for_each (add_marker (columns records)) (rows records) 0 in
        match snd loop with
        | Raise e =>
            (Log DEBUG (u "Creating fossil map...") :: Did FoliumMap :: fst loop,
             Raise e)
        | Ret n =>
            match raises W (MapSave map_path) with
            | Some e =>
                (Log DEBUG (u "Creating fossil map...") :: Did FoliumMap
                 :: fst loop
                 ++ [Log DEBUG (u "Added " ++ str_of_nat n ++ u " markers to the map")],
                 Raise e)
            | None =>
                (Log DEBUG (u "Creating fossil map...") :: Did FoliumMap
                 :: fst loop
                 ++ [ Log DEBUG (u "Added " ++ str_of_nat n ++ u " markers to the map");
                      Did (MapSave map_path);
                      Log INFO (u "Map saved successfully to " ++ map_path) ],
                 Ret tt)
            end
        end
    end.
Proof.
  unfold fossil_map_body, invoke, log, bind. cbn zeta.
  destruct (raises W FoliumMap) as [e|]; cbn [fst snd app]; [reflexivity|].
  destruct (for_each (add_marker (columns records)) (rows records) 0) as [t [n|e]];
    cbn [fst snd app]; [|rewrite ?app_nil_r; reflexivity].
  destruct (raises W (MapSave map_path)) as [e|]; cbn [fst snd app];
    rewrite ?app_nil_r; reflexivity.
Qed.

Lemma marker_events_in_loop (records : DataFrame) (e : event) :
  In e (fst (for_each (add_marker (columns records)) (rows records) 0)) ->
  exists la lo popup, e = Did (MarkerAddTo la lo popup).
Proof.
  apply (for_each_events (add_marker (columns records))
           (fun e => exists la lo popup, e = Did (MarkerAddTo la lo popup))).
  intros s record. apply add_marker_events.
Qed.

Lemma create_fossil_map_saved_or_failed (records : DataFrame) :
  (snd (fossil_map_body records) = Ret tt /\
   In (Did (MapSave map_path)) (fst (create_fossil_map records)) /\
   forall msg, ~ In (Log ERROR msg) (fst (create_fossil_map records)))
  \/ (exists e,
         snd (fossil_map_body records) = Raise e /\
         In (Log ERROR (u "Error creating map: " ++ exn_str e))
            (fst (create_fossil_map records)) /\
         forall path, ~ In (Did (MapSave path)) (fst (create_fossil_map records))).
Proof.
  unfold create_fossil_map, try_except. rewrite fossil_map_body_shape.
  pose proof (marker_events_in_loop records) as Hloop. cbn zeta.
  destruct (raises W FoliumMap) as [e|].
  - right. exists e. cbn [fst snd app]. split; [reflexivity|]. split; [cbn; tauto|].
    intros path [H|[H|[]]]; discriminate.
  - destruct (for_each (add_marker (columns records)) (rows records) 0) as [t [n|e]];
      cbn [fst snd] in *.
    + destruct (raises W (MapSave map_path)) as [e|]; cbn [fst snd].
      * right. exists e. split; [reflexivity|]. split.
        -- apply in_or_app. right. now left.
        -- intros path H. apply in_app_or in H.
           destruct H as [[H|[H|H]]|[H|[]]]; try discriminate.
           apply in_app_or in H. destruct H as [H|[H|[]]]; [|discriminate].
           destruct (Hloop _ H) as (la & lo & popup & E). discriminate.
      * left. split; [reflexivity|]. split.
        -- right. right. apply in_or_app. right. cbn. tauto.
        -- intros msg [H|[H|H]]; try discriminate.
           apply in_app_or in H. destruct H as [H|[H|[H|[H|[]]]]]; try discriminate.
           destruct (Hloop _ H) as (la & lo & popup & E). discriminate.
    + right. exists e. split; [reflexivity|]. split.
      * apply in_or_app. right. now left.
      * intros path H. apply in_app_or in H.
        destruct H as [[H|[H|H]]|[H|[]]]; try discriminate.
        destruct (Hloop _ H) as (la & lo & popup & E). discriminate.
Qed.

(** The map file is written exactly when the builder logs no error: any
    failure on the way (a missing column, a coordinate that is no number, a
    failing library call) leaves no map at all, also when markers were
    already added. *)
Theorem map_is_saved_iff_no_error_is_logged (records : DataFrame) :
  (In (Did (MapSave map_path)) (fst (create_fossil_map records)) <->
   forall msg, ~ In (Log ERROR msg) (fst (create_fossil_map records))) /\
  ((exists path, In (Did (MapSave path)) (fst (create_fossil_map records))) <->
   snd (fossil_map_body records) = Ret tt).
Proof.
  destruct (create_fossil_map_saved_or_failed records)
    as [(Hret & Hsaved & Hnoerr)|(e & Hraise & Herr & Hnomap)].
  - split; split; intros _; try assumption. now exists map_path.
  - split; split.
    + intros H. now destruct (Hnomap map_path).
    + intros H. now destruct (H _ Herr).
    + intros (path & H). now destruct (Hnomap path).
    + intros H. rewrite Hraise in H. discriminate.
Qed.

Lemma for_each_raises {S} (body : S -> row -> M S) (rs : list row) (bad : row) :
  In bad rs ->
  (forall s, exists e, snd (body s bad) = Raise e) ->
  forall s, exists e, snd (for_each body rs s) = Raise e.
Proof.
  intros Hin Hbad. induction rs as [|record rs IH]; intros s; [destruct Hin|].
  cbn [for_each]. rewrite snd_bind.
  destruct (snd (body s record)) as [s'|e] eqn:E; [|now exists e].
  destruct Hin as [->|Hin]; [|now apply IH].
  destruct (Hbad s) as (e & He). rewrite He in E. discriminate.
Qed.

(** One row whose coordinate is present but is no number spoils the whole
    map: nothing is saved, and the failure is logged as an error. *)
Theorem one_bad_coordinate_leaves_no_map (records : DataFrame) (bad : row) :
  (forall c, In c map_columns -> In c (columns records)) ->
  In bad (rows records) ->
  has_coordinates bad = true ->
  float_ok (bad lat) = false \/ float_ok (bad lng) = false ->
  (forall path, ~ In (Did (MapSave path)) (fst (create_fossil_map records))) /\
  exists msg, In (Log ERROR msg) (fst (create_fossil_map records)).
Proof.
  intros Hcols Hin Hco Hbad.
  assert (Hrow : forall n, exists e,
             snd (add_marker (columns records) n bad) = Raise e).
  { intros n. unfold add_marker, has_coordinates in *.
    apply andb_true_iff in Hco. destruct Hco as [Hna Hno].
    assert (Hlat : In lat (columns records)) by (apply Hcols; cbn; tauto).
    assert (Hlng : In lng (columns records)) by (apply Hcols; cbn; tauto).
    rewrite !(getitem_present _ _ _ Hlat), !(getitem_present _ _ _ Hlng).
    rewrite bind_lift_Ret, Hna, bind_lift_Ret, Hno.
    rewrite (popup_content_present _ _ Hcols), bind_lift_Ret. cbn [obind].
    unfold float_ok in Hbad.
    destruct (py_float (bad lat)) as [la|e1] eqn:E1; [|now exists e1].
    rewrite bind_lift_Ret.
    destruct (py_float (bad lng)) as [lo|e2] eqn:E2; [|now exists e2].
    destruct Hbad; discriminate. }
  assert (Hbody : exists e, snd (fossil_map_body records) = Raise e).
  { rewrite fossil_map_body_shape. cbn zeta.
    destruct (raises W FoliumMap) as [e|]; [now exists e|].
    destruct (for_each_raises (add_marker (columns records)) (rows records) bad
                Hin Hrow 0) as (e & He).
    rewrite He. now exists e. }
  destruct Hbody as (e & He).
  destruct (create_fossil_map_saved_or_failed records)
    as [(Hret & _)|(e' & _ & Herr & Hnomap)].
  - rewrite He in Hret. discriminate.
  - split; [exact Hnomap|]. eexists. exact Herr.
Qed.

(** ** The timeline builder, further *)

(** A table without the date column: with a row, the builder logs the
    [KeyError] and plots nothing; without rows it never looks for the column
    and only warns. *)
Theorem create_discovery_timeline_without_date_column (records : DataFrame) :
  ~ In collection_dates (columns records) ->
  create_discovery_timeline records
  = match rows records with
    | [] =>
        ([ Log DEBUG (u "Creating discovery timeline...");
           Log DEBUG (u "Found 0 valid years");
           Log WARNING (u "No valid years found for timeline plot") ],
         Ret tt)
    | _ :: _ =>
        ([ Log DEBUG (u "Creating discovery timeline...");
           Log ERROR (u "Error creating timeline: 'collection_dates'") ],
         Ret tt)
    end.
Proof.
  intros Hno. unfold create_discovery_timeline, timeline_body.
  destruct (rows records) as [|record rs]; [reflexivity|].
  cbn [for_each]. unfold add_year at 1, getitem.
  destruct (has_column (columns records) collection_dates) eqn:Hhas.
  - now apply has_column_In in Hhas.
  - reflexivity.
Qed.

(** ** The whole run *)

Lemma in_bind {A B} (m : M A) (f : A -> M B) (e : event) :
  In e (fst (bind m f)) ->
  In e (fst m) \/ exists a, snd m = Ret a /\ In e (fst (f a)).
Proof.
  rewrite fst_bind. intros H. apply in_app_or in H.
  destruct H as [H|H]; [now left|].
  destruct (snd m) as [a|x]; [right; now exists a | destruct H].
Qed.

Lemma in_invoke (c : call) (e : event) : In e (fst (invoke c)) -> e = Did c.
Proof.
  unfold invoke. destruct (raises W c); cbn; [intros [] | intros [<-|[]]; reflexivity].
Qed.

Lemma in_try_except_log (body : M unit) (msg : exn -> str) (e : event) :
  In e (fst (try_except body (fun x => log ERROR (msg x)))) ->
  In e (fst body) \/ exists x, e = Log ERROR (msg x).
Proof.
  unfold try_except. destruct (snd body) as [a|x]; [now left|].
  cbn [fst log]. intros H. apply in_app_or in H.
  destruct H as [H|[<-|[]]]; [now left | right; now exists x].
Qed.

Lemma no_calls_no_Did (t : list event) (c : call) :
  calls_of t = [] -> ~ In (Did c) t.
Proof.
  intros Hnil Hin. apply calls_of_In in Hin. rewrite Hnil in Hin. destruct Hin.
Qed.

Lemma for_in_no_calls {A} (body : A -> M unit) (xs : list A) :
  (forall x, calls_of (fst (body x)) = []) ->
  calls_of (fst (for_in body xs)) = [].
Proof.
  intros Hbody. induction xs as [|x xs IH]; [reflexivity|].
  cbn [for_in]. rewrite fst_bind, calls_of_app, Hbody.
  destruct (snd (body x)); [exact IH | reflexivity].
Qed.

Lemma for_in_returns {A} (body : A -> M unit) (xs : list A) :
  (forall x, In x xs -> snd (body x) = Ret tt) ->
  snd (for_in body xs) = Ret tt.
Proof.
  induction xs as [|x xs IH]; intros Hbody; [reflexivity|].
  cbn [for_in]. rewrite snd_bind, (Hbody x (or_introl eq_refl)).
  apply IH. intros y Hy. apply Hbody. now right.
Qed.

(** Loading only logs, whatever the reader does. *)
Lemma read_input_only_logs (reader : nat -> list str -> outcome DataFrame)
    (file : outcome (list str)) :
  calls_of (fst (read_input reader file)) = [] /\
  snd (read_input reader file)
  = match file with
    | Ret lines => reader (header_row lines) lines
    | Raise e => Raise e
    end.
Proof.
  destruct file as [lines|e]; [|now split]. cbn [read_input].
  split; [|apply load_with_outcome].
  unfold load_with, find_header_row, log, lift, ret, bind. cbn [fst snd app].
  destruct (reader (header_row lines) lines); reflexivity.
Qed.

Lemma report_columns_only_logs (df : DataFrame) :
  snd (report_columns df) = Ret tt /\ calls_of (fst (report_columns df)) = [].
Proof.
  unfold report_columns. unfold log at 1 2. rewrite !bind_Ret.
  destruct (for_in_only_logs (report_column df) taxonomic_columns
              (report_column_only_logs df)) as [Hs Hc].
  cbn [fst snd app calls_of]. now split.
Qed.

Lemma report_record_no_calls (cols : list str) (labelled : nat * row) :
  calls_of (fst (report_record cols labelled)) = [].
Proof.
  destruct labelled as [idx record].
  destruct (report_record_cases cols idx record)
    as [(_ & _ & H & _)|(c & _ & _ & _ & H)]; exact H.
Qed.

Lemma report_records_shape (df : DataFrame) (mask : list bool) :
  report_records df mask
  = ([ Log INFO (nl ++ u "Complete T-Rex Records Found:");
       Log INFO (repeat 45%N 50);
       Log INFO (u "Total number of potential T-Rex records: "
                 ++ str_of_nat (List.length (boolean_index (rows df) mask))) ]
     ++ (if empty {| columns := columns df; rows := boolean_index (rows df) mask |}
         then []
         else Log INFO (nl ++ u "Sample of records with discovery information:")
              :: fst (for_in (report_record (columns df))
                             (iterrows_from 0 (rows df) mask))),
     if empty {| columns := columns df; rows := boolean_index (rows df) mask |}
     then Ret tt
     else snd (for_in (report_record (columns df))
                      (iterrows_from 0 (rows df) mask))).
Proof.
  unfold report_records, log, bind. cbn zeta. cbn [fst snd app rows].
  destruct (empty _); reflexivity.
Qed.

(** What the report of the records does, for any table and mask. *)
Lemma report_records_result (df : DataFrame) (mask : list bool) :
  calls_of (fst (report_records df mask)) = [] /\
  (boolean_index (rows df) mask = [] -> snd (report_records df mask) = Ret tt) /\
  ((forall c, In c report_fields -> In c (columns df)) ->
   snd (report_records df mask) = Ret tt) /\
  (boolean_index (rows df) mask <> [] -> columns df <> [] ->
   (exists c, In c report_fields /\ ~ In c (columns df)) ->
   exists c, In c report_fields /\ ~ In c (columns df) /\
             snd (report_records df mask) = Raise (KeyError c)).
Proof.
  rewrite report_records_shape. cbn [fst snd app calls_of].
  destruct (empty {| columns := columns df; rows := boolean_index (rows df) mask |})
    eqn:Hempty.
  - split; [reflexivity|]. split; [reflexivity|]. split; [reflexivity|].
    intros Hrows Hcols _. unfold empty in Hempty. cbn [rows columns] in Hempty.
    destruct (boolean_index (rows df) mask) as [|r rs]; [contradiction|].
    destruct (columns df) as [|c0 cs]; [contradiction|discriminate].
  - cbn [calls_of].
    split; [apply for_in_no_calls; intros x; apply report_record_no_calls|].
    split.
    { intros Hnil. unfold empty in Hempty. cbn [rows columns] in Hempty.
      rewrite Hnil in Hempty. discriminate. }
    split.
    + intros Hall. apply for_in_returns. intros [idx record] _.
      destruct (report_record_cases (columns df) idx record)
        as [(_ & H & _)|(c & Hc & Hhas & _)]; [exact H|].
      apply Hall, has_column_In in Hc. rewrite Hc in Hhas. discriminate.
    + intros Hrows _ Hmiss.
      destruct (iterrows_from 0 (rows df) mask) as [|[idx record] rest] eqn:Eit.
      { apply (f_equal (map snd)) in Eit. rewrite iterrows_from_snd in Eit.
        now destruct Hrows. }
      destruct (report_record_cases (columns df) idx record)
        as [(Hall & _)|(c & Hc & Hhas & Hraise & _)].
      * destruct Hmiss as (c & Hc & Hno). exfalso. apply Hno, has_column_In.
        now apply Hall.
      * exists c. split; [exact Hc|]. split.
        -- intros Hin. apply has_column_In in Hin. rewrite Hin in Hhas. discriminate.
        -- cbn [for_in]. now rewrite snd_bind, Hraise.
Qed.

Lemma add_year_no_events (cols : list str) (years : list Z) (record : row) :
  fst (add_year cols years record) = [].
Proof.
  unfold add_year. rewrite fst_bind. cbn [lift fst snd app].
  destruct (getitem cols record collection_dates) as [date|e]; [|reflexivity].
  rewrite fst_bind. cbn [lift fst snd app].
  destruct (extract_years date) as [[y|]|e]; try reflexivity.
  destruct (truthy (Some y)); reflexivity.
Qed.

(** The calls of the two builders. *)
Lemma create_fossil_map_calls (records : DataFrame) (c : call) :
  In (Did c) (fst (create_fossil_map records)) ->
  c = FoliumMap \/ c = MapSave map_path \/ exists la lo popup, c = MarkerAddTo la lo popup.
Proof.
  intros H. apply in_try_except_log in H. destruct H as [H|(x & E)]; [|discriminate].
  rewrite fossil_map_body_shape in H. cbn zeta in H.
  pose proof (marker_events_in_loop records) as Hloop.
  destruct (raises W FoliumMap).
  { destruct H as [H|[]]. discriminate. }
  assert (Hin : In (Did c) (fst (for_each (add_marker (columns records))
                                          (rows records) 0))
                \/ c = FoliumMap \/ c = MapSave map_path).
  { destruct (snd (for_each (add_marker (columns records)) (rows records) 0)).
    - destruct (raises W (MapSave map_path)); cbn [fst] in H;
        destruct H as [H|[H|H]]; try discriminate;
        try (injection H as <-; tauto);
        apply in_app_or in H; destruct H as [H|H]; try tauto.
      + destruct H as [H|[]]. discriminate.
      + destruct H as [H|[H|[H|[]]]]; try discriminate. injection H as <-. tauto.
    - cbn [fst] in H. destruct H as [H|[H|H]]; try discriminate; try tauto.
      injection H as <-. tauto. }
  destruct Hin as [Hin | [-> | ->]]; [|tauto..].
  destruct (Hloop _ Hin) as (la & lo & popup & E). injection E as ->.
  right. right. now exists la, lo, popup.
Qed.

Lemma create_discovery_timeline_calls (records : DataFrame) (c : call) :
  In (Did c) (fst (create_discovery_timeline records)) ->
  exists years, In c (plot_calls years).
Proof.
  intros H. apply in_try_except_log in H. destruct H as [H|(x & E)]; [|discriminate].
  unfold timeline_body in H.
  apply in_bind in H. destruct H as [[H|[]]|(? & _ & H)]; [discriminate|].
  apply in_bind in H. destruct H as [H|(years & _ & H)].
  { exfalso. revert H.
    apply (for_each_events (add_year (columns records)) (fun _ => False)).
    intros s record e. now rewrite add_year_no_events. }
  apply in_bind in H. destruct H as [[H|[]]|(? & _ & H)]; [discriminate|].
  destruct years as [|y years]; [destruct H as [H|[]]; discriminate|].
  exists (y :: years). unfold plot_timeline in H.
  repeat (apply in_bind in H;
          destruct H as [H|(? & _ & H)];
          [apply in_invoke in H; injection H as ->; cbn; tauto|]).
  destruct H as [H|[]]. discriminate.
Qed.

Lemma plot_timeline_bar (years xs : list Z) (hs : list nat) :
  In (Did (PltBar xs hs)) (fst (plot_timeline years)) ->
  xs = map fst (year_counts years) /\ hs = map snd (year_counts years).
Proof.
  intros H. unfold plot_timeline in H.
  apply in_bind in H. destruct H as [H|(? & _ & H)];
    [apply in_invoke in H; discriminate|].
  apply in_bind in H. destruct H as [H|(? & _ & H)].
  { apply in_invoke in H. injection H as -> ->. split; reflexivity. }
  repeat (apply in_bind in H;
          destruct H as [H|(? & _ & H)];
          [apply in_invoke in H; discriminate|]).
  destruct H as [H|[]]. discriminate.
Qed.

(** The chart. When the date column is there, the bars drawn are these,
    whatever happens to the later plotting calls: one bar for each year that
    some row yields as a valid year, the years in increasing order, and the
    height of a bar is the number of rows that yield its year. *)
Theorem timeline_bars_count_the_rows_per_year
    (records : DataFrame) (xs : list Z) (hs : list nat) :
  In collection_dates (columns records) ->
  In (Did (PltBar xs hs)) (fst (create_discovery_timeline records)) ->
  StronglySorted Z.lt xs /\
  List.length hs = List.length xs /\
  (forall y,
      In y xs <-> exists record, In record (rows records) /\ In y (valid_year record)) /\
  (forall y n,
      In (y, n) (combine xs hs) ->
      n = count_occ Z.eq_dec (flat_map valid_year (rows records)) y /\ 1 <= n).
Proof.
  intros Hcol H. unfold create_discovery_timeline in H.
  apply in_try_except_log in H. destruct H as [H|(x & E)]; [|discriminate].
  rewrite (timeline_body_eq records Hcol) in H.
  apply in_bind in H. destruct H as [[H|[H|[]]]|(? & _ & H)]; try discriminate.
  remember (flat_map valid_year (rows records)) as years eqn:Ey.
  destruct years as [|y0 years]; [destruct H as [H|[]]; discriminate|].
  apply plot_timeline_bar in H. destruct H as [-> ->].
  destruct (year_counts_spec (y0 :: years)) as (Hsorted & Htotal & Hkeys).
  split; [exact Hsorted|]. split; [now rewrite !length_map|]. split.
  - intros y. rewrite Hkeys, Ey, in_flat_map. reflexivity.
  - intros y n Hin. rewrite combine_fst_snd in Hin.
    assert (Hn : n = count_occ Z.eq_dec (y0 :: years) y).
    { rewrite <- Htotal. symmetry. now apply total_for_bar. }
    split; [exact Hn|].
    assert (Hy : In y (y0 :: years)).
    { apply Hkeys, in_map_iff. now exists (y, n). }
    apply (count_occ_In Z.eq_dec) in Hy. lia.
Qed.

Lemma create_visualizations_writes_no_results (records : DataFrame) :
  forall r path, ~ In (Did (ToCsv r path)) (fst (create_visualizations records)).
Proof.
  intros r path H. unfold create_visualizations in H.
  destruct (empty records); [destruct H|].
  apply in_bind in H. destruct H as [[H|[]]|(? & _ & H)]; [discriminate|].
  apply in_bind in H. destruct H as [[H|[]]|(? & _ & H)]; [discriminate|].
  apply in_bind in H. destruct H as [H|(? & _ & H)].
  - apply create_fossil_map_calls in H.
    destruct H as [H|[H|(la & lo & popup & H)]]; discriminate.
  - apply create_discovery_timeline_calls in H. destruct H as (years & H).
    cbn in H. repeat (destruct H as [H|H]; [discriminate|]). destruct H.
Qed.

Lemma last_stage_shape (records : DataFrame) :
  last_stage records
  = (fst (create_visualizations records) ++ fst (save_results records),
     snd (save_results records)).
Proof.
  unfold last_stage, bind. now rewrite create_visualizations_returns.
Qed.

Lemma save_results_shape (records : DataFrame) :
  save_results records
  = match raises W (ToCsv records output_path) with
    | None =>
        ([ Log INFO (nl ++ u "Saving detailed results to " ++ output_path);
           Did (ToCsv records output_path);
           Log INFO (u "Analysis completed successfully") ],
         Ret tt)
    | Some e =>
        ([Log INFO (nl ++ u "Saving detailed results to " ++ output_path)], Raise e)
    end.
Proof.
  unfold save_results, invoke.
  destruct (raises W (ToCsv records output_path)); reflexivity.
Qed.

(** The body of the script either stops before the last stage, having made
    no library call, or reaches it after loading, masking and reporting. *)
Lemma analysis_cases (reader : nat -> list str -> outcome DataFrame)
    (dirs : outcome unit) (file : outcome (list str)) :
  (exists lines df mask before,
      dirs = Ret tt /\ file = Ret lines /\
      reader (header_row lines) lines = Ret df /\
      trex_mask df = Ret mask /\
      snd (report_records df mask) = Ret tt /\
      calls_of before = [] /\
      analysis reader dirs file
      = (before
         ++ fst (last_stage {| columns := columns df;
                               rows := boolean_index (rows df) mask |}),
         snd (last_stage {| columns := columns df;
                            rows := boolean_index (rows df) mask |})))
  \/ (exists e,
         snd (analysis reader dirs file) = Raise e /\
         calls_of (fst (analysis reader dirs file)) = []).
Proof.
  unfold analysis. destruct dirs as [[]|e]; [|right; now exists e].
  rewrite bind_lift_Ret.
  destruct (read_input_only_logs reader file) as [Hc1 Hs1].
  destruct (read_input reader file) as [t1 [df|e]] eqn:E1; cbn [fst snd] in *;
    [|right; exists e; now split].
  destruct file as [lines|e]; [|discriminate].
  rewrite bind_Ret.
  destruct (report_columns_only_logs df) as [Hs2 Hc2].
  destruct (report_columns df) as [t2 o2]; cbn [fst snd] in *. subst o2.
  rewrite bind_Ret.
  destruct (trex_mask df) as [mask|e] eqn:Hmask.
  - rewrite bind_lift_Ret.
    destruct (report_records_result df mask) as [Hc3 _].
    destruct (report_records df mask) as [t3 [[]|e]] eqn:E3; cbn [fst snd] in *.
    + left. exists lines, df, mask, (t1 ++ t2 ++ t3).
      split; [reflexivity|]. split; [reflexivity|]. split; [now symmetry|].
      split; [exact Hmask|]. split; [now rewrite E3|]. split.
      * now rewrite !calls_of_app, Hc1, Hc2, Hc3.
      * rewrite bind_Ret. cbn [fst snd]. now rewrite <- !app_assoc.
    + right. exists e. unfold bind. cbn [fst snd]. split; [reflexivity|].
      now rewrite !calls_of_app, Hc1, Hc2, Hc3.
  - right. exists e. unfold bind, lift. cbn [fst snd app].
    split; [reflexivity|]. rewrite !app_nil_r. now rewrite calls_of_app, Hc1, Hc2.
Qed.

Lemma analysis_outcome (reader : nat -> list str -> outcome DataFrame)
    (lines : list str) (df : DataFrame) (mask : list bool) :
  reader (header_row lines) lines = Ret df ->
  trex_mask df = Ret mask ->
  snd (analysis reader (Ret tt) (Ret lines))
  = match snd (report_records df mask) with
    | Ret _ => snd (last_stage {| columns := columns df;
                                  rows := boolean_index (rows df) mask |})
    | Raise e => Raise e
    end.
Proof.
  intros Hreader Hmask. unfold analysis.
  rewrite bind_lift_Ret, snd_bind.
  rewrite (proj2 (read_input_only_logs reader (Ret lines))), Hreader.
  rewrite snd_bind, (proj1 (report_columns_only_logs df)).
  rewrite Hmask, bind_lift_Ret, snd_bind. reflexivity.
Qed.

Lemma main_shape (reader : nat -> list str -> outcome DataFrame)
    (dirs : outcome unit) (file : outcome (list str)) :
  main reader dirs file
  = match snd (analysis reader dirs file) with
    | Ret _ => analysis reader dirs file
    | Raise e =>
        (fst (analysis reader dirs file)
         ++ [Log ERROR (u "An error occurred: " ++ exn_str e)],
         Ret tt)
    end.
Proof.
  unfold main, try_except. destruct (snd (analysis reader dirs file)); reflexivity.
Qed.

(** No map, chart or results file is produced before the report is through:
    a call to folium, to matplotlib or to [to_csv] is made only in a run
    that created its directories, read the file, loaded the table, built
    the mask and reported every record without an error. *)
Theorem main_calls_libraries_only_after_the_report
    (reader : nat -> list str -> outcome DataFrame)
    (dirs : outcome unit) (file : outcome (list str)) (c : call) :
  In (Did c) (fst (main reader dirs file)) ->
  exists lines df mask,
    dirs = Ret tt /\ file = Ret lines /\
    reader (header_row lines) lines = Ret df /\
    trex_mask df = Ret mask /\
    snd (report_records df mask) = Ret tt.
Proof.
  intros H. unfold main in H. apply in_try_except_log in H.
  destruct H as [H|(x & E)]; [|discriminate].
  destruct (analysis_cases reader dirs file)
    as [(lines & df & mask & before & Hd & Hf & Hr & Hm & Hrep & _)|(e & _ & Hc)].
  - now exists lines, df, mask.
  - now destruct (no_calls_no_Did _ c Hc).
Qed.

(** The [try] statement never raises, and it ends in one of two ways: the
    results file was written and the last line of the log reports success,
    or the last line of the log is the error and no results file was
    written. *)
Lemma main_ends_with_success_or_error
    (reader : nat -> list str -> outcome DataFrame)
    (dirs : outcome unit) (file : outcome (list str)) :
  snd (main reader dirs file) = Ret tt /\
  ((exists t records,
       fst (main reader dirs file)
       = t ++ [ Did (ToCsv records output_path);
                Log INFO (u "Analysis completed successfully") ])
   \/ (exists t e,
          fst (main reader dirs file)
          = t ++ [Log ERROR (u "An error occurred: " ++ exn_str e)] /\
          forall records path, ~ In (Did (ToCsv records path)) t)).
Proof.
  split; [apply try_except_log|]. rewrite main_shape.
  destruct (analysis_cases reader dirs file)
    as [(lines & df & mask & before & _ & _ & _ & _ & _ & Hc & Hshape)
       |(e & He & Hc)].
  - rewrite Hshape, last_stage_shape, save_results_shape. cbn [fst snd].
    destruct (raises W (ToCsv _ output_path)) as [e|]; cbn [fst snd].
    + right. eexists. exists e. split; [reflexivity|].
      intros records path H. apply in_app_or in H. destruct H as [H|H].
      * now destruct (no_calls_no_Did _ _ Hc H).
      * apply in_app_or in H. destruct H as [H|[H|[]]]; [|discriminate].
        now destruct (create_visualizations_writes_no_results _ _ _ H).
    + left. exists (before
                    ++ fst (create_visualizations
                              {| columns := columns df;
                                 rows := boolean_index (rows df) mask |})
                    ++ [Log INFO (nl ++ u "Saving detailed results to " ++ output_path)]).
      eexists. rewrite <- !app_assoc. reflexivity.
  - rewrite He. right. exists (fst (analysis reader dirs file)), e.
    split; [reflexivity|]. intros records path H.
    now destruct (no_calls_no_Did _ _ Hc H).
Qed.

(** An exception escapes the script only from the logging set-up, which
    stands before the [try]: the script raises exactly what the set-up
    raises, and then nothing is logged and no library call is made.  Once
    logging is set up the run returns, and it ends in one of two ways: the
    results file was written and the last line of the log reports success,
    or the last line of the log is the error and no results file was
    written. *)
Theorem script_raises_only_from_the_logging_setup
    (setup : outcome unit)
    (reader : nat -> list str -> outcome DataFrame)
    (dirs : outcome unit) (file : outcome (list str)) :
  (forall e,
      snd (script setup reader dirs file) = Raise e <-> setup = Raise e) /\
  (forall e,
      setup = Raise e -> fst (script setup reader dirs file) = []) /\
  (setup = Ret tt ->
   snd (script setup reader dirs file) = Ret tt /\
   ((exists t records,
        fst (script setup reader dirs file)
        = t ++ [ Did (ToCsv records output_path);
                 Log INFO (u "Analysis completed successfully") ])
    \/ (exists t e,
           fst (script setup reader dirs file)
           = t ++ [Log ERROR (u "An error occurred: " ++ exn_str e)] /\
           forall records path, ~ In (Did (ToCsv records path)) t))).
Proof.
  destruct (main_ends_with_success_or_error reader dirs file) as [Hret Hends].
  unfold script, bind, lift. cbn [fst snd].
  destruct setup as [[]|e0]; cbn [fst snd app].
  - split; [|split].
    + intros e. rewrite Hret. split; discriminate.
    + discriminate.
    + intros _. split; [exact Hret|exact Hends].
  - split; [|split].
    + intros e. split; congruence.
    + reflexivity.
    + discriminate.
Qed.

Lemma filter_none (A : Type) (f : A -> bool) (l : list A) :
  (forall x, In x l -> f x = false) -> filter f l = [].
Proof.
  induction l as [|x l IH]; intros H; [reflexivity|].
  cbn [filter]. rewrite (H x (or_introl eq_refl)). apply IH.
  intros y Hy. apply H. now right.
Qed.

(** A table in which no row matches: the run succeeds whatever other
    columns the table has, draws nothing, and its only library call writes
    a results file with the columns of the table and no row. *)
Theorem main_without_matches_writes_an_empty_table
    (reader : nat -> list str -> outcome DataFrame)
    (lines : list str) (df : DataFrame) :
  reader (header_row lines) lines = Ret df ->
  (forall c, In c taxonomic_columns -> In c (columns df)) ->
  (forall record, In record (rows df) -> row_matches record = false) ->
  raises W (ToCsv {| columns := columns df; rows := [] |} output_path) = None ->
  calls_of (fst (main reader (Ret tt) (Ret lines)))
  = [ToCsv {| columns := columns df; rows := [] |} output_path] /\
  exists t,
    fst (main reader (Ret tt) (Ret lines))
    = t ++ [Log INFO (u "Analysis completed successfully")].
Proof.
  intros Hreader Hcols Hnone Hcsv.
  pose proof (trex_mask_present df Hcols) as Hmask.
  assert (Hrows : boolean_index (rows df) (map row_matches (rows df)) = []).
  { rewrite boolean_index_map. now apply filter_none. }
  destruct (report_records_result df (map row_matches (rows df)))
    as (_ & Hrep & _). specialize (Hrep Hrows).
  rewrite main_shape.
  rewrite (analysis_outcome reader lines df _ Hreader Hmask), Hrep, Hrows.
  rewrite last_stage_shape, save_results_shape, Hcsv. cbn [snd].
  destruct (analysis_cases reader (Ret tt) (Ret lines))
    as [(lines' & df' & mask & before & _ & Hf & Hr & Hm & _ & Hc & Hshape)
       |(e & He & _)].
  - injection Hf as <-. rewrite Hreader in Hr. injection Hr as <-.
    rewrite Hmask in Hm. injection Hm as <-.
    rewrite Hshape, Hrows, last_stage_shape, save_results_shape, Hcsv.
    cbn [fst snd create_visualizations empty rows columns ret app].
    split.
    + rewrite calls_of_app, Hc. reflexivity.
    + eexists (before ++ [_; _]). rewrite <- app_assoc. reflexivity.
  - rewrite (analysis_outcome reader lines df _ Hreader Hmask), Hrep, Hrows in He.
    rewrite last_stage_shape, save_results_shape, Hcsv in He. discriminate.
Qed.

(** A table with a matching row but without one of the columns the report
    reads: the run stops in the report with the [KeyError] as its last log
    line, and writes nothing: no map, no chart and no results file. *)
Theorem main_stops_at_a_missing_report_column
    (reader : nat -> list str -> outcome DataFrame)
    (lines : list str) (df : DataFrame) :
  reader (header_row lines) lines = Ret df ->
  (forall c, In c taxonomic_columns -> In c (columns df)) ->
  (exists record, In record (rows df) /\ row_matches record = true) ->
  (exists c, In c report_fields /\ ~ In c (columns df)) ->
  calls_of (fst (main reader (Ret tt) (Ret lines))) = [] /\
  exists t c,
    In c report_fields /\ ~ In c (columns df) /\
    fst (main reader (Ret tt) (Ret lines))
    = t ++ [Log ERROR (u "An error occurred: " ++ exn_str (KeyError c))].
Proof.
  intros Hreader Hcols (record & Hin & Hmatch) Hmiss.
  pose proof (trex_mask_present df Hcols) as Hmask.
  assert (Hrows : boolean_index (rows df) (map row_matches (rows df)) <> []).
  { rewrite boolean_index_map. intros E.
    assert (H : In record (filter row_matches (rows df)))
      by (apply filter_In; now split).
    rewrite E in H. destruct H. }
  assert (Hne : columns df <> []).
  { intros E. specialize (Hcols (u "genus")). rewrite E in Hcols.
    apply Hcols. cbn. tauto. }
  destruct (report_records_result df (map row_matches (rows df)))
    as (_ & _ & _ & Hrep).
  destruct (Hrep Hrows Hne Hmiss) as (c & Hc & Hno & Hraise).
  pose proof (analysis_outcome reader lines df _ Hreader Hmask) as Hout.
  rewrite Hraise in Hout.
  rewrite main_shape, Hout. cbn [fst].
  destruct (analysis_cases reader (Ret tt) (Ret lines))
    as [(lines' & df' & mask & before & _ & Hf & Hr & Hm & Hok & _)
       |(e & _ & Hcalls)].
  - injection Hf as <-. rewrite Hreader in Hr. injection Hr as <-.
    rewrite Hmask in Hm. injection Hm as <-. rewrite Hraise in Hok. discriminate.
  - split.
    + rewrite calls_of_app, Hcalls. reflexivity.
    + exists (fst (analysis reader (Ret tt) (Ret lines))), c. now split.
Qed.

Lemma calls_of_map_Did (A : Type) (f : A -> call) (l : list A) :
  calls_of (map (fun x => Did (f x)) l) = map f l.
Proof.
  induction l as [|x l IH]; [reflexivity|]. cbn [map calls_of]. now rewrite IH.
Qed.

Lemma map_columns_are_report_fields (c : str) :
  In c map_columns -> In c report_fields.
Proof.
  unfold map_columns, report_fields. cbn [In].
  intros [<-|[<-|[<-|[<-|[<-|[<-|[]]]]]]];
    repeat first [left; reflexivity | right].
Qed.

(** The calls of the map builder when nothing fails. *)
Lemma create_fossil_map_quiet_calls (records : DataFrame) :
  (forall c, In c map_columns -> In c (columns records)) ->
  (forall c, raises W c = None) ->
  (forall record, In record (rows records) -> has_coordinates record = true ->
                  float_ok (record lat) = true /\ float_ok (record lng) = true) ->
  snd (fossil_map_body records) = Ret tt /\
  calls_of (fst (create_fossil_map records))
  = FoliumMap :: map marker_of (filter has_coordinates (rows records))
    ++ [MapSave map_path].
Proof.
  intros Hcols Hquiet Hfloat.
  assert (Hbody : fossil_map_body records
                  = (Log DEBUG (u "Creating fossil map...") :: Did FoliumMap
                     :: map (fun record => Did (marker_of record))
                            (filter has_coordinates (rows records))
                     ++ [ Log DEBUG (u "Added "
                            ++ str_of_nat (0 + List.length
                                 (filter has_coordinates (rows records)))
                            ++ u " markers to the map");
                          Did (MapSave map_path);
                          Log INFO (u "Map saved successfully to " ++ map_path) ],
                     Ret tt)).
  { rewrite fossil_map_body_shape, !Hquiet. cbn zeta.
    now rewrite (for_each_add_marker _ _ Hcols Hquiet Hfloat 0). }
  split; [now rewrite Hbody|].
  unfold create_fossil_map. rewrite Hbody, try_except_Ret.
  cbn [fst calls_of]. rewrite calls_of_app, calls_of_map_Did. reflexivity.
Qed.

(** The calls of the timeline builder when nothing fails. *)
Lemma create_discovery_timeline_quiet_calls (records : DataFrame) :
  In collection_dates (columns records) ->
  (forall c, raises W c = None) ->
  calls_of (fst (create_discovery_timeline records))
  = match flat_map valid_year (rows records) with
    | [] => []
    | _ :: _ => plot_calls (flat_map valid_year (rows records))
    end.
Proof.
  intros Hcol Hquiet. unfold create_discovery_timeline.
  rewrite (timeline_body_eq records Hcol), bind_Ret.
  destruct (flat_map valid_year (rows records)) as [|y years]; [reflexivity|].
  rewrite (plot_timeline_ok (y :: years) Hquiet). cbn [fst snd].
  rewrite try_except_Ret. cbn [fst snd app calls_of]. rewrite calls_of_app.
  rewrite (calls_of_map_Did call (fun c => c)), map_id. cbn [calls_of].
  apply app_nil_r.
Qed.

(** When every column is there and nothing fails, a run with a matching row
    makes these calls, in this order: the map with one marker for each
    matching row that has both coordinates, the chart if some matching row
    gives a valid year, and the results file with exactly the matching
    rows. *)
Theorem main_draws_and_writes_the_matching_rows
    (reader : nat -> list str -> outcome DataFrame)
    (lines : list str) (df : DataFrame) :
  reader (header_row lines) lines = Ret df ->
  (forall c, In c taxonomic_columns -> In c (columns df)) ->
  (forall c, In c report_fields -> In c (columns df)) ->
  (forall c, raises W c = None) ->
  (exists record, In record (rows df) /\ row_matches record = true) ->
  (forall record,
      In record (rows df) -> row_matches record = true ->
      has_coordinates record = true ->
      float_ok (record lat) = true /\ float_ok (record lng) = true) ->
  calls_of (fst (main reader (Ret tt) (Ret lines)))
  = FoliumMap
    :: map marker_of (filter has_coordinates (filter row_matches (rows df)))
    ++ MapSave map_path
    :: match flat_map valid_year (filter row_matches (rows df)) with
       | [] => []
       | _ :: _ => plot_calls (flat_map valid_year (filter row_matches (rows df)))
       end
    ++ [ToCsv {| columns := columns df; rows := filter row_matches (rows df) |}
              output_path].
Proof.
  intros Hreader Hcols Hfields Hquiet (record & Hin & Hmatch) Hfloat.
  pose proof (trex_mask_present df Hcols) as Hmask.
  pose proof (boolean_index_map row_matches (rows df)) as Hrows.
  destruct (report_records_result df (map row_matches (rows df)))
    as (_ & _ & Hrep & _). specialize (Hrep Hfields).
  pose proof (analysis_outcome reader lines df _ Hreader Hmask) as Hout.
  rewrite Hrep, Hrows, last_stage_shape, save_results_shape, Hquiet in Hout.
  cbn [snd] in Hout. rewrite main_shape, Hout.
  destruct (analysis_cases reader (Ret tt) (Ret lines))
    as [(lines' & df' & mask & before & _ & Hf & Hr & Hm & _ & Hc & Hshape)
       |(e & He & _)]; [|rewrite Hout in He; discriminate].
  injection Hf as <-. rewrite Hreader in Hr. injection Hr as <-.
  rewrite Hmask in Hm. injection Hm as <-.
  rewrite Hshape, Hrows, last_stage_shape, save_results_shape, Hquiet.
  cbn [fst]. rewrite !calls_of_app, Hc. cbn [app].
  assert (Hne : empty {| columns := columns df;
                         rows := filter row_matches (rows df) |} = false).
  { unfold empty. cbn [rows columns].
    destruct (filter row_matches (rows df)) as [|r rs] eqn:E.
    - assert (H : In record (filter row_matches (rows df)))
        by (apply filter_In; now split).
      rewrite E in H. destruct H.
    - destruct (columns df) as [|c0 cs]; [|reflexivity].
      exfalso. apply (Hcols (u "genus")). cbn. tauto. }
  unfold create_visualizations. rewrite Hne.
  unfold log at 1 2. rewrite !bind_Ret, fst_bind.
  assert (Hmapcols : forall c, In c map_columns ->
                               In c (columns {| columns := columns df;
                                                rows := filter row_matches (rows df) |})).
  { intros c Hc'. cbn [columns]. now apply Hfields, map_columns_are_report_fields. }
  assert (Hflt : forall r,
             In r (rows {| columns := columns df;
                           rows := filter row_matches (rows df) |}) ->
             has_coordinates r = true ->
             float_ok (r lat) = true /\ float_ok (r lng) = true).
  { intros r Hr Hco. cbn [rows] in Hr. apply filter_In in Hr.
    destruct Hr as [Hr Hm]. now apply Hfloat. }
  destruct (create_fossil_map_quiet_calls _ Hmapcols Hquiet Hflt) as [_ Hmapcalls].
  rewrite create_fossil_map_returns.
  cbn [fst app calls_of]. rewrite !calls_of_app, Hmapcalls.
  rewrite create_discovery_timeline_quiet_calls; [|apply Hfields; cbn; tauto|exact Hquiet].
  cbn [rows calls_of app]. rewrite <- !app_assoc. reflexivity.
Qed.

End Script.

(** * The properties at sample inputs *)

(** The claim that a map is written only for a table with a located row
    fails: for the one unlocated find the map is saved all the same, without
    markers. *)
Lemma create_fossil_map_saves_map_without_coordinates :
  ~ (In (Did (MapSave map_path)) (fst (create_fossil_map quiet unlocated_records)) ->
     exists record,
       In record (rows unlocated_records) /\
       notna (record lat) = true /\ notna (record lng) = true).
Proof.
  intros Hclaim. destruct Hclaim as (record & Hin & Hlat & _).
  - vm_compute. tauto.
  - destruct Hin as [<-|[]]. vm_compute in Hlat. discriminate Hlat.
Qed.

Lemma create_fossil_map_sample :
  (forall n record,
      has_coordinates record = false ->
      add_marker quiet (columns sample_records) n record = ([], Ret n)) /\
  create_fossil_map quiet sample_records
  = (Log DEBUG (u "Creating fossil map...")
     :: Did FoliumMap
     :: map (fun record => Did (marker_of record))
            (filter has_coordinates (rows sample_records))
     ++ [ Log DEBUG (u "Added "
                     ++ str_of_nat (List.length (filter has_coordinates (rows sample_records)))
                     ++ u " markers to the map");
          Did (MapSave map_path);
          Log INFO (u "Map saved successfully to " ++ map_path) ],
     Ret tt).
Proof.
  apply (create_fossil_map_saves_map_of_rows_with_coordinates quiet sample_records).
  - intros c Hc. vm_compute in Hc. vm_compute.
    repeat (destruct Hc as [<-|Hc]; [tauto|]). destruct Hc.
  - intros c. reflexivity.
  - intros record [<-|[<-|[]]] Hco.
    + split; reflexivity.
    + vm_compute in Hco. discriminate Hco.
Defined.

Lemma load_sample_file :
  header_row (sample_metadata ++ sample_header :: sample_data) = 3 /\
  exists df,
    snd (load quiet (sample_metadata ++ sample_header :: sample_data)) = Ret df /\
    columns df = [u "occurrence_no"; u "accepted_name"; u "lat"; u "lng"] /\
    List.length (rows df) = 2 /\
    (List.length sample_metadata = 3 ->
     List.length (rows df)
     = List.length (sample_metadata ++ sample_header :: sample_data) - 4).
Proof.
  apply (load_header_is_first_token_line
           quiet sample_metadata sample_header_cells sample_data_cells).
  - intros line [<-|[<-|[<-|[]]]]; reflexivity.
  - reflexivity.
  - repeat constructor.
  - reflexivity.
  - reflexivity.
  - repeat constructor; cbn; intuition discriminate.
  - cbn. intuition discriminate.
Defined.

(** The claim that every line after the header is a row fails: of the three
    lines after the header one is empty, and the table has two rows. *)
Lemma load_passes_an_empty_line :
  ~ (exists df,
        snd (load quiet (sample_metadata ++ sample_header :: sample_data_with_blank))
        = Ret df /\
        List.length (rows df)
        = List.length (sample_metadata ++ sample_header :: sample_data_with_blank) - 4).
Proof.
  intros (df & Hload & Hrows).
  assert (H2 : List.length (rows df) = 2).
  { apply (f_equal (fun o => match o with
                             | Ret d => List.length (rows d)
                             | Raise _ => 0
                             end)) in Hload.
    vm_compute in Hload. symmetry. exact Hload. }
  rewrite H2 in Hrows. vm_compute in Hrows. discriminate Hrows.
Qed.

Lemma load_file_without_header :
  header_row sample_metadata = 0 /\
  exists df,
    snd (load quiet sample_metadata) = Ret df /\
    columns df = [u "Data Provider: The Paleobiology Database"] /\
    List.length (rows df) = 2.
Proof.
  assert (Hnone : forall line, In line sample_metadata ->
                               startswith header_token line = false).
  { intros line [<-|[<-|[<-|[]]]]; reflexivity. }
  destruct (load_without_header_defaults_to_zero quiet sample_metadata Hnone)
    as (Hrow & _ & _ & Hread & _).
  split; [exact Hrow|].
  apply (Hread [Bare (u "Data Provider: The Paleobiology Database")]
               [ [Bare (u "Data License: Creative Commons CC0")];
                 [Bare (u "Records:")] ]).
  - reflexivity.
  - reflexivity.
  - reflexivity.
  - repeat constructor. intros [].
  - cbn. intuition discriminate.
Defined.

(** The claim that the loader does not raise when no line starts with the
    token fails: a file without lines has no such line, and the reader
    raises on it. *)
Lemma load_raises_on_a_file_without_lines :
  ~ ((forall line, In line [] -> startswith header_token line = false) ->
     exists df, snd (load quiet []) = Ret df).
Proof.
  intros Hclaim. destruct Hclaim as (df & Hload).
  - intros line [].
  - vm_compute in Hload. discriminate Hload.
Qed.

Lemma trex_mask_sample :
  exists mask,
    trex_mask ascii_only sample_table = Ret mask /\
    List.length mask = List.length (rows sample_table) /\
    forall i record,
      nth_error (rows sample_table) i = Some record ->
      exists b,
        nth_error mask i = Some b /\
        (b = true <->
         exists c, In c taxonomic_columns /\ contains_trex ascii_only (record c) = true).
Proof.
  apply (trex_mask_true_iff_some_candidate_matches ascii_only sample_table).
  intros c Hc. apply in_or_app. left. exact Hc.
Defined.

Lemma create_discovery_timeline_sample :
  create_discovery_timeline ascii_only quiet unlocated_records
  = ([ Log DEBUG (u "Creating discovery timeline...");
       Log DEBUG (u "Found 0 valid years");
       Log WARNING (u "No valid years found for timeline plot") ],
     Ret tt) /\
  In (Did (PltSavefig timeline_path))
     (fst (create_discovery_timeline ascii_only quiet sample_records)).
Proof.
  assert (Hcol : In collection_dates sample_columns).
  { apply in_or_app. right. cbn. tauto. }
  split.
  - destruct (create_discovery_timeline_warns_or_saves
                ascii_only quiet unlocated_records Hcol) as [Hwarn _].
    apply Hwarn. intros record [<-|[]]. reflexivity.
  - destruct (create_discovery_timeline_warns_or_saves
                ascii_only quiet sample_records Hcol) as [_ Hsave].
    destruct Hsave as (_ & Hfigure & _).
    + exists located_row, 1990%Z. split; [now left|]. split; [reflexivity|discriminate].
    + intros c. reflexivity.
    + exact Hfigure.
Defined.

(** When saving the map fails, the error is logged, the timeline is still
    drawn and the results are still written. *)
Example last_stage_when_map_save_fails :
  snd (fossil_map_body map_save_fails sample_records)
  = Raise (LibraryError (u "Permission denied")) /\
  In (Log ERROR (u "Error creating map: Permission denied"))
     (fst (last_stage ascii_only map_save_fails sample_records)) /\
  ~ In (Did (MapSave map_path))
       (fst (last_stage ascii_only map_save_fails sample_records)) /\
  In (Did (PltSavefig timeline_path))
     (fst (last_stage ascii_only map_save_fails sample_records)) /\
  In (Did (ToCsv sample_records output_path))
     (fst (last_stage ascii_only map_save_fails sample_records)) /\
  snd (last_stage ascii_only map_save_fails sample_records) = Ret tt.
Proof.
  split; [reflexivity|].
  split; [cbn; tauto|]. split; [|split; [cbn; tauto|split; [cbn; tauto|reflexivity]]].
  cbn. intros H. repeat (destruct H as [H|H]; [discriminate H|]). exact H.
Qed.

(** A date of four zeros gives the year 0, which [if year:] takes for no
    year: the row is not counted. *)
Example year_zero_is_not_counted :
  extract_years ascii_only (VStr (u "0000")) = Ret (Some 0%Z) /\
  truthy (Some 0%Z) = false.
Proof.
  split; reflexivity.
Qed.

(** "Trexus" contains "trex" and so matches the first pattern. *)
Example contains_trex_Trexus :
  contains_trex ascii_only (VStr (u "Trexus")) = true.
Proof.
  reflexivity.
Qed.

(** The sample file: its header offset is the number of one of its lines. *)
Lemma header_row_of_the_sample_file :
  header_row (sample_metadata ++ sample_header :: sample_data)
  < List.length (sample_metadata ++ sample_header :: sample_data) /\
  skipn (header_row (sample_metadata ++ sample_header :: sample_data))
        (sample_metadata ++ sample_header :: sample_data) <> [] /\
  exists h,
    nth_error (sample_metadata ++ sample_header :: sample_data)
              (header_row (sample_metadata ++ sample_header :: sample_data)) = Some h /\
    ((startswith header_token h = true /\
      forall j l,
        j < header_row (sample_metadata ++ sample_header :: sample_data) ->
        nth_error (sample_metadata ++ sample_header :: sample_data) j = Some l ->
        startswith header_token l = false)
     \/ (header_row (sample_metadata ++ sample_header :: sample_data) = 0 /\
         forall l, In l (sample_metadata ++ sample_header :: sample_data) ->
                   startswith header_token l = false)).
Proof.
  apply (header_row_is_a_line_of_the_file
           (sample_metadata ++ sample_header :: sample_data)).
  discriminate.
Defined.

(** The year of a range of years, in the database without other digits. *)
Lemma extract_years_of_a_range_is_a_four_digit_number :
  extract_years ascii_only (VStr (u "1990-1992")) = Ret (Some 1990%Z) /\
  (0 <= 1990 <= 9999)%Z.
Proof.
  split; [reflexivity|].
  apply (extract_years_is_a_four_digit_number
           ascii_only (VStr (u "1990-1992")) 1990%Z).
  - intros c d H. discriminate H.
  - reflexivity.
Defined.

(** A year followed by a note with a later year. *)
Lemma extract_years_of_a_year_with_a_note :
  extract_years ascii_only (VStr (u "1990" ++ u ", reworked in 2004"))
  = Ret (Some 1990%Z).
Proof.
  apply (extract_years_ignores_what_follows
           ascii_only (u "1990") (u ", reworked in 2004") 1990%Z).
  reflexivity.
Defined.

(** The abbreviation in capitals, inside a longer text. *)
Lemma contains_trex_in_a_sentence :
  contains_trex ascii_only (VStr (u "cf. " ++ u "T-Rex" ++ u " tooth")) = true.
Proof.
  apply (contains_trex_token_anywhere ascii_only (u "cf. ") (u "T-Rex") (u " tooth")).
  - reflexivity.
  - right. left. exists 45%N. split; [now left | reflexivity].
Defined.

(** The species name contains one of the two pieces. *)
Lemma contains_trex_of_the_species_name :
  exists before after,
    lower ascii_only (u "Tyrannosaurus rex") = before ++ u "rex" ++ after \/
    lower ascii_only (u "Tyrannosaurus rex") = before ++ u "tyran" ++ after.
Proof.
  apply (contains_trex_needs_rex_or_tyran ascii_only (u "Tyrannosaurus rex")).
  reflexivity.
Defined.

(** The table with coordinates only has no mask. *)
Lemma trex_mask_of_coordinates_only :
  exists key, trex_mask ascii_only coordinates_only = Raise (KeyError key).
Proof.
  destruct (trex_mask_raises_iff_a_column_is_missing ascii_only coordinates_only)
    as [[Hraises _] _].
  apply Hraises. exists (u "genus"). split.
  - cbn. tauto.
  - intros [H|[H|[]]]; discriminate H.
Defined.

(** The sample table has the candidate columns. *)
Lemma trex_records_of_the_sample_table :
  trex_records ascii_only sample_table
  = Ret {| columns := columns sample_table;
           rows := filter (row_matches ascii_only) (rows sample_table) |}.
Proof.
  apply (trex_records_are_the_matching_rows ascii_only sample_table).
  intros c Hc. apply in_or_app. left. exact Hc.
Defined.

(** The sample records are the filtered sample table. *)
Lemma trex_records_of_the_sample_records :
  trex_records ascii_only sample_records = Ret sample_records.
Proof.
  apply (trex_records_twice ascii_only sample_table sample_records).
  reflexivity.
Defined.

(** The entries of the columns of the sample table. *)
Lemma column_entries_of_the_sample_table :
  (forall col record,
      In col taxonomic_columns ->
      In record (column_entries ascii_only sample_table col) ->
      In record (rows sample_records)) /\
  (forall col,
      In col taxonomic_columns ->
      List.length (column_entries ascii_only sample_table col)
      <= List.length (rows sample_records)) /\
  (rows sample_records = [] <->
   forall col, In col taxonomic_columns ->
               column_entries ascii_only sample_table col = []).
Proof.
  apply (column_entries_are_among_the_records ascii_only sample_table sample_records).
  reflexivity.
Defined.

(** Two rows of the sample table match in their accepted name, with one
    value between them. *)
Lemma report_column_of_the_accepted_names :
  fst (report_column ascii_only sample_table accepted_name)
  = [ Log INFO (nl ++ u "Found T-Rex related entries in accepted_name:");
      Log INFO (u "Total entries: 2");
      Log INFO (u "Unique values:");
      Log INFO (u "  - Tyrannosaurus rex") ].
Proof.
  destruct (report_column_lists_each_matching_value_once
              ascii_only sample_table accepted_name) as [Htrace _].
  - apply in_or_app. left. cbn. tauto.
  - intros H. apply (f_equal (@List.length row)) in H. vm_compute in H.
    discriminate H.
  - rewrite Htrace. reflexivity.
Defined.

(** The second of two finds has a latitude that is no number: the marker of
    the first is added, and no map is saved. *)
Lemma mistyped_latitude_leaves_no_map :
  (forall path,
      ~ In (Did (MapSave path)) (fst (create_fossil_map plain_floats mistyped_records))) /\
  exists msg,
    In (Log ERROR msg) (fst (create_fossil_map plain_floats mistyped_records)).
Proof.
  apply (one_bad_coordinate_leaves_no_map plain_floats mistyped_records mistyped_row).
  - intros c Hc. vm_compute in Hc. vm_compute.
    repeat (destruct Hc as [<-|Hc]; [tauto|]). destruct Hc.
  - right. now left.
  - reflexivity.
  - left. reflexivity.
Defined.

(** The table with coordinates only has a row and no date column. *)
Lemma create_discovery_timeline_of_coordinates_only :
  create_discovery_timeline ascii_only quiet coordinates_only
  = ([ Log DEBUG (u "Creating discovery timeline...");
       Log ERROR (u "Error creating timeline: 'collection_dates'") ],
     Ret tt).
Proof.
  apply (create_discovery_timeline_without_date_column
           ascii_only quiet coordinates_only).
  intros [H|[H|[]]]; discriminate H.
Defined.

(** A record of the table with every column is reported; a record of the
    sample table, which has no country column, is not. *)
Lemma report_record_of_full_and_sample_columns :
  snd (report_record full_columns (1, full_located_row)) = Ret tt /\
  exists c,
    In c report_fields /\ ~ In c sample_columns /\
    snd (report_record sample_columns (0, located_row)) = Raise (KeyError c).
Proof.
  split.
  - destruct (report_record_needs_every_field full_columns 1 full_located_row)
      as [Hall _].
    apply Hall. intros c Hc. vm_compute in Hc. vm_compute.
    repeat (destruct Hc as [<-|Hc]; [tauto|]). destruct Hc.
  - destruct (report_record_needs_every_field sample_columns 0 located_row)
      as [_ Hmissing].
    apply Hmissing. exists (u "cc"). split; [cbn; tauto|].
    intros H. vm_compute in H.
    repeat (destruct H as [H|H]; [discriminate H|]). exact H.
Defined.

(** The run over the table without matches writes the results file, so it
    got through the report. *)
Lemma main_of_a_table_without_matches_called_after_the_report :
  exists lines df mask,
    Ret tt = Ret tt /\ Ret sample_metadata = Ret lines /\
    reads other_table (header_row lines) lines = Ret df /\
    trex_mask ascii_only df = Ret mask /\
    snd (report_records df mask) = Ret tt.
Proof.
  apply (main_calls_libraries_only_after_the_report
           ascii_only quiet (reads other_table) (Ret tt) (Ret sample_metadata)
           (ToCsv {| columns := sample_columns; rows := [] |} output_path)).
  apply calls_of_In. left. reflexivity.
Defined.

(** The run over the table without matches. *)
Lemma main_of_a_table_without_matches :
  calls_of (fst (main ascii_only quiet (reads other_table) (Ret tt) (Ret sample_metadata)))
  = [ToCsv {| columns := columns other_table; rows := [] |} output_path] /\
  exists t,
    fst (main ascii_only quiet (reads other_table) (Ret tt) (Ret sample_metadata))
    = t ++ [Log INFO (u "Analysis completed successfully")].
Proof.
  apply (main_without_matches_writes_an_empty_table
           ascii_only quiet (reads other_table) sample_metadata other_table).
  - reflexivity.
  - intros c Hc. apply in_or_app. left. exact Hc.
  - intros record [<-|[]]. reflexivity.
  - reflexivity.
Defined.

(** The sample table has matching rows and no country column. *)
Lemma main_of_a_table_without_country :
  calls_of (fst (main ascii_only quiet (reads sample_table) (Ret tt) (Ret sample_metadata)))
  = [] /\
  exists t c,
    In c report_fields /\ ~ In c (columns sample_table) /\
    fst (main ascii_only quiet (reads sample_table) (Ret tt) (Ret sample_metadata))
    = t ++ [Log ERROR (u "An error occurred: " ++ exn_str (KeyError c))].
Proof.
  apply (main_stops_at_a_missing_report_column
           ascii_only quiet (reads sample_table) sample_metadata sample_table).
  - reflexivity.
  - intros c Hc. apply in_or_app. left. exact Hc.
  - exists located_row. split; [now left | reflexivity].
  - exists (u "cc"). split; [cbn; tauto|].
    intros H. vm_compute in H.
    repeat (destruct H as [H|H]; [discriminate H|]). exact H.
Defined.

(** The run over the table with every column: one marker, the chart of the
    one year, and the one matching row in the results file. *)
Lemma main_of_the_full_table :
  calls_of (fst (main ascii_only quiet (reads full_table) (Ret tt) (Ret sample_metadata)))
  = [FoliumMap; marker_of full_located_row; MapSave map_path]
    ++ plot_calls [1990%Z]
    ++ [ToCsv {| columns := full_columns; rows := [full_located_row] |} output_path].
Proof.
  etransitivity.
  - apply (main_draws_and_writes_the_matching_rows
             ascii_only quiet (reads full_table) sample_metadata full_table).
    + reflexivity.
    + intros c Hc. apply in_or_app. left. apply in_or_app. left. exact Hc.
    + intros c Hc. vm_compute in Hc. vm_compute.
      repeat (destruct Hc as [<-|Hc]; [tauto|]). destruct Hc.
    + intros c. reflexivity.
    + exists full_located_row. split; [right; now left | reflexivity].
    + intros record [<-|[<-|[]]] _ _; split; reflexivity.
  - reflexivity.
Defined.

(** The bars for the sample records: the one year 1990, found once. *)
Lemma timeline_bars_of_the_sample_records :
  StronglySorted Z.lt [1990%Z] /\
  List.length [1] = List.length [1990%Z] /\
  (forall y,
      In y [1990%Z] <->
      exists record,
        In record (rows sample_records) /\ In y (valid_year ascii_only record)) /\
  (forall y n,
      In (y, n) (combine [1990%Z] [1]) ->
      n = count_occ Z.eq_dec (flat_map (valid_year ascii_only) (rows sample_records)) y
      /\ 1 <= n).
Proof.
  apply (timeline_bars_count_the_rows_per_year ascii_only quiet sample_records).
  - apply in_or_app. right. cbn. tauto.
  - apply calls_of_In. right. left. reflexivity.
Defined.

(** The reader on files that are not line by line: a quoted field may run
    over the end of a line, and then two lines of the file are one row; a
    row with more fields than the row before it is refused. *)
Example read_csv_on_other_files :
  match read_csv quiet 0 [ u "name,note" ++ nl;
                           u "a," ++ dquote ++ u "first" ++ nl;
                           u "second" ++ dquote ++ nl ] with
  | Ret df => List.length (rows df) = 1
  | Raise _ => False
  end /\
  match read_csv quiet 0 [ u "name,note" ++ nl;
                           u "a,b" ++ nl;
                           u "c,d,e" ++ nl ] with
  | Ret _ => False
  | Raise _ => True
  end.
Proof.
  split; vm_compute; [reflexivity|exact I].
Qed.
